(** * Log analyzer: a shallow embedding of [task2_log_analyzer/log_analyzer.py]

    The development follows the program: characters and strings, the
    backtracking matcher that runs [LOG_PATTERN], [parse_log_line], the
    [Counter] objects, the aggregation loop of [analyze], the detection
    stage and the report.

    Conventions.
    - A Python [str] is a [string]; every [ascii] stands for the code point
      of the same number (0..255).  In that range [\s] and [str.strip] see
      the characters 9-13, 28-31, 32, 133 and 160 as white space and [\d]
      sees ['0'..'9'].
    - A Python [int] is a [Z]; a Python [float] is a binary64 value, a
      [spec_float] handled at precision 53 and maximal exponent 1024.
    - A Python exception is an explicit [Raise] in the [outcome] type. *)

From Stdlib Require Import ZArith List Bool Ascii String Lia Permutation Sorted.
From Stdlib Require Import DecimalString Decimal.
From Stdlib Require Import SpecFloat.
Import ListNotations.

Local Open Scope string_scope.
Local Open Scope Z_scope.

Set Implicit Arguments.

(** ** Exceptions *)

Inductive exn : Type :=
| ValueError
| TypeError
| ZeroDivisionError
| OverflowError.

Inductive outcome (A : Type) : Type :=
| Ret (a : A)
| Raise (e : exn).

Arguments Ret {A} a.
Arguments Raise {A} e.

Definition bind {A B : Type} (m : outcome A) (f : A -> outcome B) : outcome B :=
  match m with
  | Ret a => f a
  | Raise e => Raise e
  end.

Notation "x <- m ;; k" := (bind m (fun x => k))
  (at level 61, m at next level, right associativity).

(** ** Characters and strings *)

Module Str.

Definition code (c : ascii) : Z := Z.of_N (N_of_ascii c).

(** [str.isspace] and the class [\s] on one character. *)
Definition is_space (c : ascii) : bool :=
  let n := code c in
  ((9 <=? n) && (n <=? 13)) || ((28 <=? n) && (n <=? 32))
  || (n =? 133) || (n =? 160).

(** The class [\S]. *)
Definition non_space (c : ascii) : bool := negb (is_space c).

(** The class [\d]. *)
Definition is_digit (c : ascii) : bool :=
  let n := code c in (48 <=? n) && (n <=? 57).

Definition digit_val (c : ascii) : Z := code c - 48.

(** The double quote, code 34. *)
Definition dquote : ascii := Ascii false true false false false true false false.

(** The classes of the characters other than the closing bracket and
    other than the double quote. *)
Definition not_rbracket (c : ascii) : bool := negb (Ascii.eqb c "]").
Definition not_dquote (c : ascii) : bool := negb (Ascii.eqb c dquote).

Fixpoint lstrip (s : string) : string :=
  match s with
  | String c s' => if is_space c then lstrip s' else s
  | EmptyString => EmptyString
  end.

Fixpoint rstrip (s : string) : string :=
  match s with
  | EmptyString => EmptyString
  | String c s' =>
      match rstrip s' with
      | EmptyString => if is_space c then EmptyString else String c EmptyString
      | r => String c r
      end
  end.

(** [s.strip()] *)
Definition strip (s : string) : string := rstrip (lstrip s).

(** [s.startswith(p)] *)
Fixpoint startswith (p s : string) : bool :=
  match p, s with
  | EmptyString, _ => true
  | String a p', String b s' => Ascii.eqb a b && startswith p' s'
  | String _ _, EmptyString => false
  end.

(** [needle in hay] *)
Fixpoint contains (needle hay : string) : bool :=
  startswith needle hay ||
  match hay with
  | EmptyString => false
  | String _ hay' => contains needle hay'
  end.

(** [s.split(sep, 1)[0]] for a separator of one character. *)
Fixpoint before_first (sep : ascii) (s : string) : string :=
  match s with
  | EmptyString => EmptyString
  | String c s' => if Ascii.eqb c sep then EmptyString else String c (before_first sep s')
  end.

(** The first [n] characters of [s]. *)
Fixpoint take (n : nat) (s : string) : string :=
  match n, s with
  | S n', String c s' => String c (take n' s')
  | _, _ => EmptyString
  end.

Fixpoint all (p : ascii -> bool) (s : string) : bool :=
  match s with
  | EmptyString => true
  | String c s' => p c && all p s'
  end.

End Str.

(** ** Integers from and to text *)

Module PyInt.

(** The digits of [int(s)], base 10: one or more digits, single
    underscores allowed between two digits.  [seen] tells that the
    previous character was a digit. *)
Fixpoint digits (acc : Z) (seen : bool) (s : string) : option Z :=
  match s with
  | EmptyString => if seen then Some acc else None
  | String c s' =>
      if Str.is_digit c then digits (10 * acc + Str.digit_val c) true s'
      else if Ascii.eqb c "_" && seen then digits acc false s'
      else None
  end.

(** [int(s)] for a text without white space: an optional sign and the
    digits.  [None] stands for [ValueError].  The interpreter's limit on
    the number of digits of a conversion is not part of the model. *)
Definition of_string (s : string) : option Z :=
  match s with
  | String "+" s' => digits 0 false s'
  | String "-" s' => option_map Z.opp (digits 0 false s')
  | _ => digits 0 false s
  end.

(** [str(n)] *)
Definition to_string (n : Z) : string := NilZero.string_of_int (Z.to_int n).

End PyInt.

(** ** The matcher of [re]: greedy, backtracking, with named groups *)

Module Re.

Inductive regex : Type :=
| Lit (c : ascii)                     (* one given character *)
| Class (p : ascii -> bool)           (* one character of a class *)
| Plus (p : ascii -> bool)            (* class+, greedy *)
| Cat (r1 r2 : regex)                 (* r1 r2 *)
| Opt (r : regex)                     (* (?:r)?, greedy *)
| Group (name : string) (r : regex).  (* (?P<name>r) *)

(** The groups set so far, most recent first. *)
Definition groups : Type := list (string * string).

Fixpoint group (name : string) (g : groups) : option string :=
  match g with
  | [] => None
  | (n, w) :: g' => if String.eqb n name then Some w else group name g'
  end.

(** The text consumed between the position [s] and the later position
    [s'] (both are suffixes of the subject). *)
Definition consumed (s s' : string) : string :=
  Str.take (String.length s - String.length s') s.

Section Exec.
Variable A : Type.

(** [class+] at [s]: the longest run first, then shorter ones. *)
Fixpoint plus_run (p : ascii -> bool) (s : string) (k : string -> option A)
  : option A :=
  match s with
  | String c s' =>
      if p c then
        match plus_run p s' k with
        | Some a => Some a
        | None => k s'
        end
      else None
  | EmptyString => None
  end.

(** [exec r s g k]: match [r] at [s] with groups [g], then continue
    with [k]; on failure of the continuation the next alternative of
    [r] is tried. *)
Fixpoint exec (r : regex) (s : string) (g : groups)
         (k : string -> groups -> option A) : option A :=
  match r with
  | Lit c =>
      match s with
      | String c' s' => if Ascii.eqb c c' then k s' g else None
      | EmptyString => None
      end
  | Class p =>
      match s with
      | String c' s' => if p c' then k s' g else None
      | EmptyString => None
      end
  | Plus p => plus_run p s (fun s' => k s' g)
  | Cat r1 r2 => exec r1 s g (fun s1 g1 => exec r2 s1 g1 k)
  | Opt r' =>
      match exec r' s g k with
      | Some a => Some a
      | None => k s g
      end
  | Group name r' =>
      exec r' s g (fun s' g' => k s' ((name, consumed s s') :: g'))
  end.
End Exec.

(** [pattern.match(s)]: the match starts at the first character and may
    end anywhere; the result is the groups of the first match found. *)
Definition match_ (r : regex) (s : string) : option groups :=
  exec r s [] (fun _ g => Some g).

Fixpoint cat (rs : list regex) (last : regex) : regex :=
  match rs with
  | [] => last
  | r :: rs' => Cat r (cat rs' last)
  end.

End Re.

(** ** Parsing one line *)

Import Re.

(** [LOG_PATTERN].  The leading [^] is implied by [match_], which looks
    for a match at the start of the subject only. *)
Definition LOG_PATTERN : regex :=
  cat [ Group "ip" (Plus Str.non_space);
        Plus Str.is_space; Plus Str.non_space;
        Plus Str.is_space; Plus Str.non_space;
        Plus Str.is_space;
        Lit "["; Group "time" (Plus Str.not_rbracket); Lit "]";
        Plus Str.is_space;
        Lit Str.dquote;
        Group "method" (Plus Str.non_space);
        Plus Str.is_space;
        Group "path" (Plus Str.non_space);
        Opt (Cat (Plus Str.is_space) (Group "proto" (Plus Str.not_dquote)));
        Lit Str.dquote;
        Plus Str.is_space;
        Group "status"
          (Cat (Class Str.is_digit) (Cat (Class Str.is_digit) (Class Str.is_digit)));
        Plus Str.is_space ]
      (Group "size" (Plus Str.non_space)).

Definition SUSPICIOUS_PATH_SNIPPETS : list string :=
  [ "/admin"; "/wp-admin"; "/wp-login"; "/phpmyadmin"; "/.env"; "/login" ].

(** A request line between double quotes. *)
Definition quoted (s : string) : string :=
  String Str.dquote (s ++ String Str.dquote EmptyString).

Definition DEMO_LINES : list string :=
  [ "127.0.0.1 - - [10/Oct/2024:13:55:36 +0000] " ++ quoted "GET / HTTP/1.1" ++ " 200 1024";
    "127.0.0.1 - - [10/Oct/2024:13:55:37 +0000] " ++ quoted "GET /products?category=oil HTTP/1.1" ++ " 200 2048";
    "10.0.0.5 - - [10/Oct/2024:13:55:40 +0000] " ++ quoted "GET /admin HTTP/1.1" ++ " 403 512";
    "10.0.0.5 - - [10/Oct/2024:13:55:41 +0000] " ++ quoted "GET /wp-login.php HTTP/1.1" ++ " 404 321";
    "10.0.0.5 - - [10/Oct/2024:13:55:42 +0000] " ++ quoted "GET /.env HTTP/1.1" ++ " 404 123";
    "203.0.113.9 - - [10/Oct/2024:13:56:00 +0000] " ++ quoted "POST /login HTTP/1.1" ++ " 500 900";
    "203.0.113.9 - - [10/Oct/2024:13:56:10 +0000] " ++ quoted "GET /api/orders HTTP/1.1" ++ " 200 777" ]%string.

Module LogEntry.
Record t : Type := mk {
  ip : string;
  timestamp_raw : string;
  method : string;
  path : string;
  status : Z;
  size : option Z
}.
End LogEntry.

Definition _strip_query (path : string) : string := Str.before_first "?" path.

(** [int(value)], which raises [ValueError] on a text that is no integer. *)
Definition py_int (value : string) : outcome Z :=
  match PyInt.of_string value with
  | Some n => Ret n
  | None => Raise ValueError
  end.

Definition _parse_size (value : string) : option Z :=
  if String.eqb value "-" then None
  else match py_int value with
       | Ret n => Some n
       | Raise _ => None
       end.

(** [match.group(name)].  A group that took no part in the match is
    [None] in Python; the entry's fields are texts, so using such a group
    is the [TypeError] that [int(None)] raises. *)
Definition group_text (name : string) (g : groups) : outcome string :=
  match group name g with
  | Some w => Ret w
  | None => Raise TypeError
  end.

Definition parse_log_line (line : string) : outcome (option LogEntry.t) :=
  match match_ LOG_PATTERN (Str.strip line) with
  | None => Ret None
  | Some g =>
      path <- group_text "path" g ;;
      status_text <- group_text "status" g ;;
      status <- py_int status_text ;;
      size_text <- group_text "size" g ;;
      let size := _parse_size size_text in
      ip <- group_text "ip" g ;;
      time <- group_text "time" g ;;
      method <- group_text "method" g ;;
      Ret (Some (LogEntry.mk ip time method path status size))
  end.

(** ** Time stamps

    [datetime.strptime(value, "%d/%b/%Y:%H:%M:%S %z")] and the operations
    the program applies to its result belong to the [datetime] library;
    the program is embedded over any implementation of them. *)

Class Clock : Type := {
  datetime : Type;
  (** [strptime]; [None] stands for its [ValueError]. *)
  strptime : string -> option datetime;
  (** [a < b] and [a > b] on two results of [strptime]. *)
  dt_lt : datetime -> datetime -> bool;
  dt_gt : datetime -> datetime -> bool;
  isoformat : datetime -> string
}.

Definition _try_parse_apache_time `{Clock} (value : string) : option datetime :=
  strptime value.

(** ** [collections.Counter] *)

Module Counter.

(** The items in insertion order; a key occurs once. *)
Definition t : Type := list (string * Z).

(** [c.get(k, 0)], and [c[k]] read, which is 0 on a missing key. *)
Fixpoint get (k : string) (c : t) : Z :=
  match c with
  | [] => 0
  | (k', v) :: c' => if String.eqb k' k then v else get k c'
  end.

(** [c[k] += 1]: a present key keeps its place, a new key goes last. *)
Fixpoint incr (k : string) (c : t) : t :=
  match c with
  | [] => [(k, 1)]
  | (k', v) :: c' =>
      if String.eqb k' k then (k', v + 1) :: c' else (k', v) :: incr k c'
  end.

Definition keys (c : t) : list string := map fst c.

(** [sum(c.values())] *)
Definition total (c : t) : Z := fold_right Z.add 0 (map snd c).

(** [len(c)] *)
Definition len (c : t) : Z := Z.of_nat (List.length c).

(** [sorted(items, key=itemgetter(1), reverse=True)].  The sort is
    stable, also in reverse: items of equal count keep their order.  That
    fixes the result, which is computed here by insertion: an item moves
    past the items of a strictly greater count only. *)
Fixpoint insert_desc (x : string * Z) (l : list (string * Z)) : list (string * Z) :=
  match l with
  | [] => [x]
  | y :: l' => if snd x <? snd y then y :: insert_desc x l' else x :: l
  end.

Definition sorted_desc (c : t) : list (string * Z) :=
  fold_right insert_desc [] c.

(** [c.most_common()] *)
Definition most_common_all (c : t) : list (string * Z) := sorted_desc c.

(** [c.most_common(n)], which is [heapq.nlargest(n, items, key)]: the
    first [n] items of the sorted list, and nothing when [n <= 0]. *)
Definition most_common (n : Z) (c : t) : list (string * Z) :=
  if n <=? 0 then [] else firstn (Z.to_nat n) (sorted_desc c).

End Counter.

(** ** Floats *)

Module PyFloat.

Definition float : Type := spec_float.

Definition prec : Z := 53.
Definition emax : Z := 1024.

Definition zero : float := S754_zero false.
Definition one : float := S754_finite false 4503599627370496 (-52).

(** The literals [0.2] and [0.3]: the floats nearest to 1/5 and 3/10. *)
Definition lit_0_2 : float := S754_finite false 7205759403792794 (-55).
Definition lit_0_3 : float := S754_finite false 5404319552844595 (-54).

(** The float of an [int] operand of a float operation; too large a
    value is an [OverflowError]. *)
Definition of_int (n : Z) : outcome float :=
  match binary_normalize prec emax n 0 false with
  | S754_infinity _ => Raise OverflowError
  | f => Ret f
  end.

(** [a / b] on two [int]: the float nearest to the quotient. *)
Definition truediv (a b : Z) : outcome float :=
  if b =? 0 then Raise ZeroDivisionError
  else if a =? 0 then Ret (S754_zero (b <? 0))
  else
    match SFdiv prec emax (S754_finite (a <? 0) (Z.to_pos (Z.abs a)) 0)
                          (S754_finite (b <? 0) (Z.to_pos (Z.abs b)) 0) with
    | S754_infinity _ => Raise OverflowError
    | f => Ret f
    end.

(** [x * n] for a float [x] and an [int] [n]. *)
Definition mul_int (x : float) (n : Z) : outcome float :=
  y <- of_int n ;; Ret (SFmul prec emax x y).

(** [a >= b] *)
Definition ge (a b : float) : bool :=
  match SFcompare a b with
  | Some Gt | Some Eq => true
  | _ => false
  end.

(** [a <= b] *)
Definition le (a b : float) : bool := SFleb a b.

(** [int(x)]: truncation towards zero. *)
Definition to_int (x : float) : outcome Z :=
  match x with
  | S754_zero _ => Ret 0
  | S754_finite s m e =>
      let v := if 0 <=? e then Z.shiftl (Zpos m) e else Z.shiftr (Zpos m) (- e) in
      Ret (if s then - v else v)
  | S754_infinity _ => Raise OverflowError
  | S754_nan => Raise ValueError
  end.

(** The integer nearest to [n / d], ties to the even one ([0 <= n], [0 < d]). *)
Definition div_half_even (n d : Z) : Z :=
  let q := n / d in
  match 2 * (n mod d) ?= d with
  | Lt => q
  | Gt => q + 1
  | Eq => if Z.even q then q else q + 1
  end.

(** [round(x, ndigits)] for [0 <= ndigits]: the exact value of [x] is
    rounded, ties to even, to a decimal of [ndigits] places, and that
    decimal is read back as the nearest float. *)
Definition round (x : float) (ndigits : Z) : outcome float :=
  match x with
  | S754_finite s m e =>
      let q := div_half_even (Zpos m * 10 ^ ndigits * 2 ^ Z.max e 0) (2 ^ Z.max (- e) 0) in
      if q =? 0 then Ret (S754_zero s)
      else truediv (if s then - q else q) (10 ^ ndigits)
  | _ => Ret x
  end.

End PyFloat.

Abbreviation float := PyFloat.float.

(** ** The data of [analyze] *)

Module SuspiciousIp.
Record t : Type := mk {
  ip : string;
  requests : Z;
  error_rate : float;
  suspicious_path_hits : Z
}.
End SuspiciousIp.

(** The dictionaries appended to [issues], by their ["type"]. *)
Inductive Issue : Type :=
| no_data
| high_error_rate (error_rate : float) (threshold : float)
| suspicious_ip_activity (ips : list SuspiciousIp.t) (volume_threshold : Z).

Definition issue_type (i : Issue) : string :=
  match i with
  | no_data => "no_data"
  | high_error_rate _ _ => "high_error_rate"
  | suspicious_ip_activity _ _ => "suspicious_ip_activity"
  end.

Definition issue_message (i : Issue) : string :=
  match i with
  | no_data => "No valid log lines were parsed."
  | high_error_rate _ _ => "High proportion of 4xx/5xx responses."
  | suspicious_ip_activity _ _ => "IPs with unusual volume/errors/sensitive endpoints."
  end.

Module Summary.
Record t : Type := mk {
  total_lines : Z;
  parsed_requests : Z;
  parse_failures : Z;
  unique_ips : Z;
  error_rate_4xx_5xx : float;
  time_range_first : option string;
  time_range_last : option string
}.
End Summary.

Module Report.
Record t : Type := mk {
  summary : Summary.t;
  top_endpoints : list (string * Z);
  status_code_breakdown : Counter.t;
  top_ips : list (string * Z);
  issues : list Issue
}.
End Report.

Section Analyze.

Context {clock : Clock}.

(** The local variables of [analyze] that the loop over the lines
    updates. *)
Record AggState : Type := mkAgg {
  total_lines : Z;
  parsed : Z;
  parse_failures : Z;
  endpoints : Counter.t;
  status_codes : Counter.t;
  ips : Counter.t;
  ip_errors : Counter.t;
  ip_suspicious_hits : Counter.t;
  time_first : option datetime;
  time_last : option datetime
}.

Definition initial : AggState :=
  mkAgg 0 0 0 [] [] [] [] [] None None.

(** [any(snippet in endpoint for snippet in SUSPICIOUS_PATH_SNIPPETS)] *)
Definition hits_suspicious_path (endpoint : string) : bool :=
  existsb (fun snippet => Str.contains snippet endpoint) SUSPICIOUS_PATH_SNIPPETS.

(** Lines 140-143: the bounds after a time stamp that was read. *)
Definition bound_first (ts : datetime) (b : option datetime) : option datetime :=
  match b with
  | None => Some ts
  | Some first => if dt_lt ts first then Some ts else b
  end.

Definition bound_last (ts : datetime) (b : option datetime) : option datetime :=
  match b with
  | None => Some ts
  | Some last => if dt_gt ts last then Some ts else b
  end.

(** The body of the loop for a line that did not parse (lines 120-124). *)
Definition count_failure (st : AggState) : AggState :=
  mkAgg (total_lines st + 1) (parsed st) (parse_failures st + 1)
        (endpoints st) (status_codes st) (ips st) (ip_errors st)
        (ip_suspicious_hits st) (time_first st) (time_last st).

(** The body of the loop for a parsed entry (lines 120-143). *)
Definition count_entry (st : AggState) (entry : LogEntry.t) : AggState :=
  let endpoint := _strip_query (LogEntry.path entry) in
  let ip_errors' :=
    if (400 <=? LogEntry.status entry) && (LogEntry.status entry <=? 599)
    then Counter.incr (LogEntry.ip entry) (ip_errors st)
    else ip_errors st in
  let hits' :=
    if hits_suspicious_path endpoint
    then Counter.incr (LogEntry.ip entry) (ip_suspicious_hits st)
    else ip_suspicious_hits st in
  let ts := _try_parse_apache_time (LogEntry.timestamp_raw entry) in
  mkAgg (total_lines st + 1) (parsed st + 1) (parse_failures st)
        (Counter.incr endpoint (endpoints st))
        (Counter.incr (PyInt.to_string (LogEntry.status entry)) (status_codes st))
        (Counter.incr (LogEntry.ip entry) (ips st))
        ip_errors' hits'
        (match ts with Some t => bound_first t (time_first st) | None => time_first st end)
        (match ts with Some t => bound_last t (time_last st) | None => time_last st end).

Definition step (st : AggState) (line : string) : outcome AggState :=
  entry <- parse_log_line line ;;
  match entry with
  | None => Ret (count_failure st)
  | Some e => Ret (count_entry st e)
  end.

(** [for line in lines: ...] *)
Fixpoint loop (st : AggState) (lines : list string) : outcome AggState :=
  match lines with
  | [] => Ret st
  | line :: rest => st' <- step st line ;; loop st' rest
  end.

(** Line 147: the counts of the status codes whose text starts with 4
    or 5, summed. *)
Definition error_requests (status_codes : Counter.t) : Z :=
  fold_right Z.add 0
    (map snd
       (filter (fun kv => Str.startswith "4" (fst kv) || Str.startswith "5" (fst kv))
               status_codes)).

(** Line 148 *)
Definition overall_error_rate (st : AggState) : outcome float :=
  if parsed st =? 0 then Ret PyFloat.zero
  else PyFloat.truediv (error_requests (status_codes st)) (parsed st).

(** Lines 150-161 *)
Definition overall_issues (total_requests : Z) (error_rate error_rate_threshold : float)
  : outcome (list Issue) :=
  if total_requests =? 0 then Ret [no_data]
  else if PyFloat.ge error_rate error_rate_threshold then
    r <- PyFloat.round error_rate 4 ;;
    Ret [high_error_rate r error_rate_threshold]
  else Ret [].

(** Line 165 *)
Definition suspicious_volume_threshold (total_requests : Z) : outcome Z :=
  x <- PyFloat.mul_int PyFloat.lit_0_2 total_requests ;;
  i <- PyFloat.to_int x ;;
  Ret (Z.max 100 i).

(** Line 168 *)
Definition ip_error_rate (err_count req_count : Z) : outcome float :=
  if req_count =? 0 then Ret PyFloat.zero else PyFloat.truediv err_count req_count.

(** Lines 171-175 *)
Definition is_suspicious (threshold req_count : Z) (ip_err_rate : float)
           (suspicious_hits : Z) : bool :=
  (threshold <=? req_count)
  || ((20 <=? req_count) && PyFloat.ge ip_err_rate PyFloat.lit_0_3)
  || (5 <=? suspicious_hits).

(** Lines 166-184: the loop over [ips.most_common()]. *)
Fixpoint collect_suspicious (st : AggState) (threshold : Z)
         (ranked : list (string * Z)) : outcome (list SuspiciousIp.t) :=
  match ranked with
  | [] => Ret []
  | (ip, req_count) :: rest =>
      let err_count := Counter.get ip (ip_errors st) in
      ip_err_rate <- ip_error_rate err_count req_count ;;
      let suspicious_hits := Counter.get ip (ip_suspicious_hits st) in
      if is_suspicious threshold req_count ip_err_rate suspicious_hits then
        r <- PyFloat.round ip_err_rate 4 ;;
        tail <- collect_suspicious st threshold rest ;;
        Ret (SuspiciousIp.mk ip req_count r suspicious_hits :: tail)
      else collect_suspicious st threshold rest
  end.

(** Lines 163-194: the issues the detection of suspicious IPs adds. *)
Definition suspicious_issues (st : AggState) : outcome (list Issue) :=
  if parsed st =? 0 then Ret []
  else
    threshold <- suspicious_volume_threshold (parsed st) ;;
    suspicious_ips <- collect_suspicious st threshold (Counter.most_common_all (ips st)) ;;
    match suspicious_ips with
    | [] => Ret []
    | _ :: _ => Ret [suspicious_ip_activity (firstn 20 suspicious_ips) threshold]
    end.

(** Lines 145-213 *)
Definition report_of (st : AggState) (top_n : Z) (error_rate_threshold : float)
  : outcome Report.t :=
  let total_requests := parsed st in
  let unique_ips := Counter.len (ips st) in
  error_rate <- overall_error_rate st ;;
  issues1 <- overall_issues total_requests error_rate error_rate_threshold ;;
  issues2 <- suspicious_issues st ;;
  rounded <- PyFloat.round error_rate 4 ;;
  Ret (Report.mk
         (Summary.mk (total_lines st) total_requests (parse_failures st) unique_ips
                     rounded
                     (option_map isoformat (time_first st))
                     (option_map isoformat (time_last st)))
         (Counter.most_common top_n (endpoints st))
         (status_codes st)
         (Counter.most_common 10 (ips st))
         (issues1 ++ issues2)).

Definition analyze (lines : list string) (top_n : Z) (error_rate_threshold : float)
  : outcome Report.t :=
  st <- loop initial lines ;;
  report_of st top_n error_rate_threshold.

End Analyze.

(** ** A clock for the examples

    Time stamps of the fixed shape [DD/Mon/YYYY:HH:MM:SS +HHMM] are read
    as a number of seconds (UTC); everything else is refused.  The
    theorems below hold for every [Clock]; this one runs the examples. *)

Module ExampleClock.

Definition number (s : string) : option Z :=
  if Str.all Str.is_digit s then PyInt.of_string s else None.

Fixpoint index_of (s : string) (l : list string) (i : Z) : option Z :=
  match l with
  | [] => None
  | x :: l' => if String.eqb x s then Some i else index_of s l' (i + 1)
  end.

Definition month (s : string) : option Z :=
  index_of s [ "Jan"; "Feb"; "Mar"; "Apr"; "May"; "Jun";
               "Jul"; "Aug"; "Sep"; "Oct"; "Nov"; "Dec" ] 1.

(** Days from 1970-01-01 to the given day of the civil calendar. *)
Definition days (y m d : Z) : Z :=
  let y' := if m <=? 2 then y - 1 else y in
  let era := y' / 400 in
  let yoe := y' - era * 400 in
  let doy := (153 * (if 2 <? m then m - 3 else m + 9) + 2) / 5 + d - 1 in
  era * 146097 + (yoe * 365 + yoe / 4 - yoe / 100 + doy) - 719468.

Definition sign (s : string) : option Z :=
  if String.eqb s "+" then Some 1 else if String.eqb s "-" then Some (-1) else None.

Definition parse (s : string) : option Z :=
  let part i n := String.substring i n s in
  if negb (Nat.eqb (String.length s) 26) then None
  else if negb (String.eqb (part 2%nat 1%nat) "/" && String.eqb (part 6%nat 1%nat) "/"
                && String.eqb (part 11%nat 1%nat) ":" && String.eqb (part 14%nat 1%nat) ":"
                && String.eqb (part 17%nat 1%nat) ":" && String.eqb (part 20%nat 1%nat) " ")
  then None
  else
    match number (part 0%nat 2%nat), month (part 3%nat 3%nat), number (part 7%nat 4%nat),
          number (part 12%nat 2%nat), number (part 15%nat 2%nat), number (part 18%nat 2%nat),
          sign (part 21%nat 1%nat), number (part 22%nat 2%nat), number (part 24%nat 2%nat) with
    | Some d, Some mo, Some y, Some h, Some mi, Some sec, Some sg, Some oh, Some om =>
        if (1 <=? d) && (d <=? 31) && (h <? 24) && (mi <? 60) && (sec <? 60) && (om <? 60)
        then Some (days y mo d * 86400 + h * 3600 + mi * 60 + sec - sg * (oh * 3600 + om * 60))
        else None
    | _, _, _, _, _, _, _, _, _ => None
    end.

#[export] Instance clock : Clock := {|
  datetime := Z;
  strptime := parse;
  dt_lt := Z.ltb;
  dt_gt := Z.gtb;
  isoformat := PyInt.to_string
|}.

End ExampleClock.

(** ** The console report *)

Module Console.

Fixpoint spaces (n : nat) : string :=
  match n with
  | O => EmptyString
  | S n' => String " " (spaces n')
  end.

(** The format [>w] of an f-string on a text: spaces on the left up to
    the width [w], and the text as it is when it is longer. *)
Definition rjust (w : nat) (s : string) : string :=
  spaces (w - String.length s) ++ s.

(** [a < b] on two pairs of a text and an integer: by the texts, in the
    order of the code points, then by the integers. *)
Definition item_lt (a b : string * Z) : bool :=
  match String.compare (fst a) (fst b) with
  | Lt => true
  | Gt => false
  | Eq => snd a <? snd b
  end.

(** [sorted(items)]: the sort is stable and compares with [<]; the
    result is computed here by insertion, an item moving past the items
    that are strictly smaller only. *)
Fixpoint insert (x : string * Z) (l : list (string * Z)) : list (string * Z) :=
  match l with
  | [] => [x]
  | y :: l' => if item_lt y x then y :: insert x l' else x :: l
  end.

Definition sorted (l : list (string * Z)) : list (string * Z) :=
  fold_right insert [] l.

(** The truth value of a text. *)
Definition truthy (s : string) : bool :=
  match s with
  | EmptyString => false
  | String _ _ => true
  end.

Definition rule_double : string := "====================".
Definition rule_single : string := "--------------------".

End Console.

Section PrintConsoleReport.

(** [repr] of a float, which an f-string prints. *)
Variable repr_float : float -> string.

(** Lines 217-228 *)
Definition summary_lines (report : Report.t) : list string :=
  let summary := Report.summary report in
  [ "Log Analysis Report";
    Console.rule_double;
    "Total lines:           " ++ PyInt.to_string (Summary.total_lines summary);
    "Parsed requests:       " ++ PyInt.to_string (Summary.parsed_requests summary);
    "Parse failures:        " ++ PyInt.to_string (Summary.parse_failures summary);
    "Unique IPs:            " ++ PyInt.to_string (Summary.unique_ips summary);
    "Error rate (4xx/5xx):  " ++ repr_float (Summary.error_rate_4xx_5xx summary) ]
  ++ match Summary.time_range_first summary, Summary.time_range_last summary with
     | Some first, Some last =>
         if Console.truthy first && Console.truthy last
         then [ "Time range:            " ++ first ++ " -> " ++ last ]
         else []
     | _, _ => []
     end.

(** Lines 230-234 *)
Definition endpoint_line (item : string * Z) : string :=
  Console.rjust 6 (PyInt.to_string (snd item)) ++ "  " ++ fst item.

Definition endpoint_lines (report : Report.t) : list string :=
  [ ""; "Top endpoints"; Console.rule_single ]
  ++ map endpoint_line (Report.top_endpoints report).

(** Lines 236-240 *)
Definition status_line (item : string * Z) : string :=
  Console.rjust 3 (fst item) ++ ": " ++ PyInt.to_string (snd item).

Definition status_lines (report : Report.t) : list string :=
  [ ""; "Status codes"; Console.rule_single ]
  ++ map status_line (Console.sorted (Report.status_code_breakdown report)).

(** Lines 242-249 *)
Definition issue_line (issue : Issue) : string :=
  let msg := if Console.truthy (issue_message issue)
             then issue_message issue else issue_type issue in
  "- " ++ msg.

Definition issue_lines (report : Report.t) : list string :=
  match Report.issues report with
  | [] => []
  | issues => [ ""; "Potential issues"; Console.rule_single ] ++ map issue_line issues
  end.

(** [print_console_report(report)]: the lines it prints, one per call
    of [print]. *)
Definition print_console_report (report : Report.t) : list string :=
  summary_lines report ++ endpoint_lines report ++ status_lines report
  ++ issue_lines report.

End PrintConsoleReport.

(** ** The command line

    [main] runs against the file system and the terminal.  What they
    answer is a parameter: the lines that reading gives or the exception
    it raises, the outcome of writing the report, the resolved path, and
    the texts that [repr] and [json.dumps] produce.  [read_lines] is a
    generator that [analyze] consumes; as [analyze] has no effect of its
    own, an exception while reading is an exception before the analysis.
    An interrupt is modelled where the program waits for the system,
    while reading and while writing; [print] is taken to succeed.  The
    model starts after [parse_args]. *)

Inductive sys_exn : Type :=
| FileNotFoundError
| PermissionError
| KeyboardInterrupt
| OtherSysError.

Inductive io (A : Type) : Type :=
| Done (a : A)
| Failed (e : sys_exn).

Arguments Done {A} a.
Arguments Failed {A} e.

Record System : Type := {
  (** iterating [sys.stdin] to its end *)
  stdin_lines : io (list string);
  (** opening [path] and iterating the file to its end *)
  file_lines : string -> io (list string);
  (** [Path(path).write_text(text, encoding="utf-8")] *)
  write_text : string -> string -> io unit;
  (** [Path(path).resolve()] as a text *)
  resolve : string -> string;
  (** [repr] of a float *)
  repr_float : float -> string;
  (** [json.dumps(report, indent=2)] *)
  json_dumps : Report.t -> string
}.

(** The parsed arguments of the command line. *)
Record Args : Type := {
  logfile : string;
  out : string;
  top : Z;
  error_threshold : float;
  demo : bool
}.

(** How a run ends: [main] returns a code, or an exception leaves it. *)
Inductive ending : Type :=
| Exit (code : Z)
| Uncaught (e : exn)
| UncaughtSys (e : sys_exn).

Record Run : Type := {
  run_ending : ending;
  run_stdout : list string;
  run_stderr : list string;
  (** the path and the text of the file written *)
  run_written : option (string * string)
}.

Section Main.

Context {clock : Clock}.
Variable sys : System.

(** [read_lines(input_path)], iterated to its end. *)
Definition read_lines (input_path : string) : io (list string) :=
  if String.eqb input_path "-" then stdin_lines sys else file_lines sys input_path.

(** The handlers of lines 287-297, after [stdout] was printed. *)
Definition handle (args : Args) (e : sys_exn) (stdout : list string) : Run :=
  match e with
  | FileNotFoundError =>
      Build_Run (Exit 2) stdout
        [ "Error: log file not found: " ++ logfile args;
          "Tip: replace placeholder paths like 'path\to\access.log' with a real file path.";
          "Tip: try a quick run with: python .\task2_log_analyzer\log_analyzer.py --demo" ]
        None
  | PermissionError =>
      Build_Run (Exit 2) stdout [ "Error: permission denied reading: " ++ logfile args ] None
  | KeyboardInterrupt => Build_Run (Exit 130) stdout [ "Cancelled." ] None
  | OtherSysError => Build_Run (UncaughtSys OtherSysError) stdout [] None
  end.

(** [main()], from the parsed arguments on. *)
Definition main (args : Args) : Run :=
  match (if demo args then Done DEMO_LINES else read_lines (logfile args)) with
  | Failed e => handle args e []
  | Done lines =>
      match analyze lines (top args) (error_threshold args) with
      | Raise e => Build_Run (Uncaught e) [] [] None
      | Ret report =>
          let console := print_console_report (repr_float sys) report in
          let text := json_dumps sys report in
          match write_text sys (out args) text with
          | Failed e => handle args e console
          | Done _ =>
              Build_Run (Exit 0)
                (console ++ [ ""; "JSON report written to: " ++ resolve sys (out args) ])
                [] (Some (out args, text))
          end
      end
  end.

End Main.

(** * Specification vocabulary *)

(** What a pattern denotes: [derives r w g g'] says that [r] matches
    exactly the text [w] and turns the groups [g] into [g']. *)
Inductive derives : regex -> string -> groups -> groups -> Prop :=
| d_lit c g : derives (Lit c) (String c EmptyString) g g
| d_class (p : ascii -> bool) c g :
    p c = true -> derives (Class p) (String c EmptyString) g g
| d_plus (p : ascii -> bool) c w g :
    p c = true -> Str.all p w = true -> derives (Plus p) (String c w) g g
| d_cat r1 r2 w1 w2 g g1 g2 :
    derives r1 w1 g g1 -> derives r2 w2 g1 g2 ->
    derives (Cat r1 r2) (w1 ++ w2) g g2
| d_opt_some r w g g' : derives r w g g' -> derives (Opt r) w g g'
| d_opt_none r g : derives (Opt r) EmptyString g g
| d_group name r w g g' :
    derives r w g g' -> derives (Group name r) w g ((name, w) :: g').

(** A line has the shape of a log line when a prefix of it (after
    [strip]) is matched by [LOG_PATTERN]. *)
Definition well_formed (line : string) : Prop :=
  exists w rest g, Str.strip line = (w ++ rest)%string /\ derives LOG_PATTERN w [] g.

(** The pure reading of [parse_log_line], for the lemmas on the loop. *)
Definition parsed_entry (line : string) : option LogEntry.t :=
  match parse_log_line line with
  | Ret r => r
  | Raise _ => None
  end.

(** ** Counters *)

Module CounterSpec.
Import Counter.

(** A well-formed counter: distinct keys, counts of at least one. *)
Definition wf (c : t) : Prop :=
  NoDup (keys c) /\ Forall (fun kv => 1 <= snd kv) c.

End CounterSpec.

(** ** The aggregation loop as a fold *)

Section LoopSpec.

Context {clock : Clock}.
Import CounterSpec.

(** One turn of the loop, read as a function on the state. *)
Definition absorb (st : AggState) (line : string) : AggState :=
  match parsed_entry line with
  | None => count_failure st
  | Some e => count_entry st e
  end.

(** The state after the loop. *)
Definition aggregate (lines : list string) : AggState :=
  fold_left absorb lines initial.

(** What holds of the state at every turn. *)
Record consistent (st : AggState) : Prop := {
  c_lines : total_lines st = parsed st + parse_failures st;
  c_parsed : 0 <= parsed st;
  c_failures : 0 <= parse_failures st;
  c_ips : Counter.total (ips st) = parsed st;
  c_status : Counter.total (status_codes st) = parsed st;
  c_endpoints : Counter.total (endpoints st) = parsed st;
  c_wf_ips : wf (ips st);
  c_wf_status : wf (status_codes st);
  c_wf_endpoints : wf (endpoints st);
  c_wf_errors : wf (ip_errors st);
  c_wf_hits : wf (ip_suspicious_hits st);
  c_errors : forall ip, Counter.get ip (ip_errors st) <= Counter.get ip (ips st);
  c_hits : forall ip, Counter.get ip (ip_suspicious_hits st) <= Counter.get ip (ips st)
}.

End LoopSpec.

(** ** Floats *)

Module FloatSpec.
Import PyFloat.

(** The value that [binary_round_aux] returns for mantissa [m] and
    exponent [e]. *)
Definition packed (m e : Z) : float :=
  match m with
  | Z0 => S754_zero false
  | Zpos p => if e <=? emax - prec then S754_finite false p e else S754_infinity false
  | Zneg _ => S754_nan
  end.

(** Floats between 0 and 1: zero, or a canonical positive value of at
    most 1. *)
Definition unit_range (f : float) : Prop :=
  f = S754_zero false
  \/ exists m e, f = S754_finite false m e /\ e <= -52
                 /\ Zpos m <= 2 ^ (- e) /\ Zpos m < 2 ^ 53.

(** [a / b] read as a function, for [0 <= a <= b], [0 < b]. *)
Definition ratio (a b : Z) : float :=
  match truediv a b with
  | Ret f => f
  | Raise _ => zero
  end.

(** [round(x, 4)] read as a function, for [x] between 0 and 1. *)
Definition round4 (x : float) : float :=
  match round x 4 with
  | Ret r => r
  | Raise _ => zero
  end.

(** A float that the conversions and products below return: zero or a
    positive value of the format. *)
Definition finite_pos (y : float) : Prop :=
  y = S754_zero false
  \/ exists my ey, y = S754_finite false my ey /\ Zpos my < 2 ^ 53 /\ ey <= 971.

End FloatSpec.

(** ** Rankings *)

Module RankSpec.
Import Counter.

(** [a] comes before [b] in [l]. *)
Definition precedes (a b : string * Z) (l : list (string * Z)) : Prop :=
  exists l1 l2, l = (l1 ++ a :: l2)%list /\ In b l2.

(** The order of [most_common]: the greater count first, and of two
    equal counts the item inserted first. *)
Definition ranked_before (c : t) (a b : string * Z) : Prop :=
  snd b < snd a \/ (snd a = snd b /\ precedes a b c).

(** The distinct elements of [ks], each at its first occurrence, after
    those of [seen]. *)
Definition first_seen_from (seen ks : list string) : list string :=
  fold_left (fun acc k => if existsb (String.eqb k) acc then acc else (acc ++ [k])%list)
            ks seen.

(** The distinct elements of [ks] in the order of first occurrence. *)
Definition first_seen (ks : list string) : list string := first_seen_from [] ks.

(** [c[k] += 1] for every [k] of [ks], in order. *)
Definition count_all (ks : list string) (c : t) : t :=
  fold_left (fun c k => incr k c) ks c.

(** How often [k] occurs in [ks]. *)
Fixpoint occurrences (k : string) (ks : list string) : Z :=
  match ks with
  | [] => 0
  | k' :: ks' => (if String.eqb k' k then 1 else 0) + occurrences k ks'
  end.

End RankSpec.

(** ** Issues

    The issue of the detection stage, and the issues of the overall
    verdict (lines 151-161). *)

Definition is_activity (i : Issue) : bool :=
  match i with
  | suspicious_ip_activity _ _ => true
  | _ => false
  end.

Definition is_overall (i : Issue) : bool := negb (is_activity i).

(** ** The report as a function of the aggregated state *)

Section ReportSpec.

Context {clock : Clock}.
Import CounterSpec FloatSpec RankSpec.

(** The overall error rate, read as a function. *)
Definition rate_of (st : AggState) : float :=
  if parsed st =? 0 then PyFloat.zero
  else ratio (error_requests (status_codes st)) (parsed st).

(** The error rate of one IP, read as a function. *)
Definition ip_rate_of (st : AggState) (ip : string) (req_count : Z) : float :=
  ratio (Counter.get ip (ip_errors st)) req_count.

(** Lines 171-175 for one item of [ips]. *)
Definition flagged (st : AggState) (threshold : Z) (item : string * Z) : bool :=
  is_suspicious threshold (snd item) (ip_rate_of st (fst item) (snd item))
                (Counter.get (fst item) (ip_suspicious_hits st)).

(** Lines 178-183 for one item of [ips]. *)
Definition suspect_of (st : AggState) (item : string * Z) : SuspiciousIp.t :=
  SuspiciousIp.mk (fst item) (snd item)
                  (round4 (ip_rate_of st (fst item) (snd item)))
                  (Counter.get (fst item) (ip_suspicious_hits st)).

(** The list [suspicious_ips] after the loop of lines 166-184. *)
Definition suspects (st : AggState) (threshold : Z) : list SuspiciousIp.t :=
  map (suspect_of st) (filter (flagged st threshold) (Counter.most_common_all (ips st))).

(** The issues after lines 150-161. *)
Definition overall_part (st : AggState) (error_rate_threshold : float) : list Issue :=
  if parsed st =? 0 then [no_data]
  else if PyFloat.ge (rate_of st) error_rate_threshold
       then [high_error_rate (round4 (rate_of st)) error_rate_threshold]
       else [].

(** The issue that lines 186-194 append, if any. *)
Definition suspicious_part (st : AggState) (threshold : Z) : list Issue :=
  if parsed st =? 0 then []
  else match suspects st threshold with
       | [] => []
       | _ :: _ => [suspicious_ip_activity (firstn 20 (suspects st threshold)) threshold]
       end.

(** The report, given the volume threshold. *)
Definition report_with (st : AggState) (top_n : Z) (error_rate_threshold : float)
           (threshold : Z) : Report.t :=
  Report.mk
    (Summary.mk (total_lines st) (parsed st) (parse_failures st) (Counter.len (ips st))
                (round4 (rate_of st))
                (option_map isoformat (time_first st))
                (option_map isoformat (time_last st)))
    (Counter.most_common top_n (endpoints st))
    (status_codes st)
    (Counter.most_common 10 (ips st))
    (overall_part st error_rate_threshold ++ suspicious_part st threshold).

(** The entries of the lines that parse, in order. *)
Definition entries (lines : list string) : list LogEntry.t :=
  flat_map (fun line => match parsed_entry line with
                        | Some e => [e]
                        | None => []
                        end) lines.

(** The IPs and the endpoints of the parsed entries, in order. *)
Definition ip_sequence (lines : list string) : list string :=
  map LogEntry.ip (entries lines).

Definition endpoint_sequence (lines : list string) : list string :=
  map (fun e => _strip_query (LogEntry.path e)) (entries lines).

(** The order of the IPs in a list of suspicious IPs. *)
Definition suspect_before (c : Counter.t) (a b : SuspiciousIp.t) : Prop :=
  ranked_before c (SuspiciousIp.ip a, SuspiciousIp.requests a)
                  (SuspiciousIp.ip b, SuspiciousIp.requests b).

End ReportSpec.

(** ** Example inputs *)

(** A line whose size is no integer. *)
Definition line_with_bad_size : string :=
  "10.0.0.5 - - [10/Oct/2024:13:55:40 +0000] " ++ quoted "GET /admin HTTP/1.1" ++ " 403 12abc".

(** A line whose time stamp is not in the format. *)
Definition line_with_bad_time : string :=
  "10.0.0.5 - - [yesterday] " ++ quoted "GET /admin HTTP/1.1" ++ " 403 512".

(** The threshold [0.1], the default of the command line. *)
Definition threshold_0_1 : float := S754_finite false 7205759403792794 (-56).

(** Five requests of one IP to sensitive paths, after the demo lines. *)
Definition probe_lines : list string :=
  List.app DEMO_LINES
    (map (fun p => "198.51.100.7 - - [10/Oct/2024:14:00:00 +0000] "
                   ++ quoted ("GET " ++ p ++ " HTTP/1.1") ++ " 200 10")
         [ "/admin"; "/wp-login"; "/phpmyadmin"; "/.env"; "/login" ]).

(** One request of an IP for a path. *)
Definition request_line (ip path : string) : string :=
  ip ++ " - - [10/Oct/2024:13:55:36 +0000] " ++ quoted ("GET " ++ path ++ " HTTP/1.1")
     ++ " 200 1024".

(** 1000 requests: 200 of one IP, 199 of each of four others, 4 of a
    last one. *)
Definition thousand_lines : list string :=
  List.app (repeat (request_line "10.0.0.1" "/") 200)
    (List.app (repeat (request_line "10.0.0.2" "/") 199)
       (List.app (repeat (request_line "10.0.0.3" "/") 199)
          (List.app (repeat (request_line "10.0.0.4" "/") 199)
             (List.app (repeat (request_line "10.0.0.5" "/") 199)
                (repeat (request_line "10.0.0.6" "/") 4))))).

(** Endpoints seen in the order [/a], [/b], [/c], with 3, 3 and 5 hits. *)
Definition ranking_lines : list string :=
  map (request_line "10.0.0.1")
      [ "/a"; "/b"; "/c"; "/a"; "/b"; "/c"; "/a?x=1"; "/b"; "/c"; "/c"; "/c" ].

(** A line whose status field has a leading zero. *)
Definition line_with_status_042 : string :=
  "10.0.0.5 - - [10/Oct/2024:13:55:40 +0000] " ++ quoted "GET / HTTP/1.1" ++ " 042 512".

(** ** Vocabulary of the further properties *)

(** The characters other than the question mark. *)
Definition no_question (c : ascii) : bool := negb (Ascii.eqb c "?").

(** The entry [e] with the path [p]. *)
Definition with_path (e : LogEntry.t) (p : string) : LogEntry.t :=
  LogEntry.mk (LogEntry.ip e) (LogEntry.timestamp_raw e) (LogEntry.method e) p
              (LogEntry.status e) (LogEntry.size e).

(** The test of line 147 on the key of a status code. *)
Definition starts_4_or_5 (k : string) : bool :=
  Str.startswith "4" k || Str.startswith "5" k.

(** The numerator of the overall error rate in the words of the
    specification: the counts of the status codes whose text starts with
    4 or 5, summed over the codes. *)
Definition spec_error_count (c : Counter.t) : Z :=
  fold_right Z.add 0
    (map (fun k => if starts_4_or_5 k then Counter.get k c else 0) (Counter.keys c)).

(** The test of line 132 on a status. *)
Definition is_error_status (s : Z) : bool := (400 <=? s) && (s <=? 599).

(** Whether a line parses. *)
Definition parses (line : string) : bool :=
  match parsed_entry line with
  | Some _ => true
  | None => false
  end.

(** The keys of [status_codes] of the parsed entries, in order. *)
Definition status_sequence (lines : list string) : list string :=
  map (fun e => PyInt.to_string (LogEntry.status e)) (entries lines).

(** The report on [n] lines of which none parsed. *)
Definition empty_report (n : Z) : Report.t :=
  Report.mk (Summary.mk n 0 n 0 PyFloat.zero None None) [] [] [] [no_data].

Section Timestamps.

Context {clock : Clock}.

(** The time stamps of the parsed entries that [strptime] reads, in
    order. *)
Definition timestamps (lines : list string) : list datetime :=
  flat_map (fun e => match _try_parse_apache_time (LogEntry.timestamp_raw e) with
                     | Some t => [t]
                     | None => []
                     end) (entries lines).

(** [b] is a bound of the time stamps [ts] for the comparison [before]:
    absent when there is none, else one of them that none of them is
    strictly before. *)
Definition bound_of (before : datetime -> datetime -> bool) (b : option datetime)
           (ts : list datetime) : Prop :=
  match b with
  | None => ts = []
  | Some t => In t ts /\ forall t', In t' ts -> before t' t = false
  end.

End Timestamps.

(** A field of a log line: a text that is not empty and has no white
    space. *)
Definition nonempty (s : string) : bool :=
  match s with
  | EmptyString => false
  | String _ _ => true
  end.

Definition token (s : string) : bool := nonempty s && Str.all Str.non_space s.

(** A run of the class [p] cannot go on into [s]. *)
Definition stops (p : ascii -> bool) (s : string) : bool :=
  match s with
  | EmptyString => true
  | String c _ => negb (p c)
  end.

(** A line of an access log in the common format, followed by [rest]. *)
Definition log_line (ip ident user time method path proto : string) (d1 d2 d3 : ascii)
           (size rest : string) : string :=
  ip ++ " " ++ ident ++ " " ++ user ++ " [" ++ time ++ "] "
     ++ String Str.dquote (method ++ " " ++ path ++ " " ++ proto
     ++ String Str.dquote (" " ++ String d1 (String d2 (String d3 (" " ++ size ++ rest))))).

Section MainVocabulary.

Context {clock : Clock}.

(** The lines that [main] gives to [analyze], or the exception that
    reading them raises. *)
Definition main_input (sys : System) (args : Args) : io (list string) :=
  if demo args then Done DEMO_LINES else read_lines sys (logfile args).

(** The run reads its input and analyzes it, and writing the report
    ends as [w]. *)
Definition writes (sys : System) (args : Args) (w : io unit) : Prop :=
  exists lines report,
    main_input sys args = Done lines
    /\ analyze lines (top args) (error_threshold args) = Ret report
    /\ write_text sys (out args) (json_dumps sys report) = w.

End MainVocabulary.

(** A system for the examples: reading gives [input], writing succeeds,
    floats and reports print as fixed texts. *)
Definition example_system (input : io (list string)) : System :=
  {| stdin_lines := input;
     file_lines := fun _ => input;
     write_text := fun _ _ => Done tt;
     resolve := fun path => path;
     repr_float := fun _ => "0.0";
     json_dumps := fun _ => "{}" |}.

(** The arguments [--demo] with the defaults of the other options. *)
Definition demo_args : Args :=
  {| logfile := "-"; out := "report.json"; top := 10;
     error_threshold := threshold_0_1; demo := true |}.

(** The IPs of the parsed entries that count as an error of their IP
    (line 132) and as a suspicious hit (line 135), in order. *)
Definition error_ip_sequence (lines : list string) : list string :=
  flat_map (fun e => if is_error_status (LogEntry.status e) then [LogEntry.ip e] else [])
           (entries lines).

Definition hit_ip_sequence (lines : list string) : list string :=
  flat_map (fun e => if hits_suspicious_path (_strip_query (LogEntry.path e))
                     then [LogEntry.ip e] else [])
           (entries lines).

Section CountsVocabulary.

Context {clock : Clock}.

(** Two states with the same counts: of lines, of parsed lines and of
    failures, and in each of the five counters for every key. *)
Definition same_counts (a b : AggState) : Prop :=
  total_lines a = total_lines b
  /\ parsed a = parsed b
  /\ parse_failures a = parse_failures b
  /\ (forall k, Counter.get k (ips a) = Counter.get k (ips b))
  /\ (forall k, Counter.get k (endpoints a) = Counter.get k (endpoints b))
  /\ (forall k, Counter.get k (status_codes a) = Counter.get k (status_codes b))
  /\ (forall k, Counter.get k (ip_errors a) = Counter.get k (ip_errors b))
  /\ (forall k, Counter.get k (ip_suspicious_hits a) = Counter.get k (ip_suspicious_hits b)).

End CountsVocabulary.

(** A threshold that is zero, negative or minus infinity. *)
Definition nonpositive (x : float) : bool :=
  match x with
  | S754_zero _ => true
  | S754_finite s _ _ => s
  | S754_infinity s => s
  | S754_nan => false
  end.

(** A threshold that no rate reaches: not a number, or plus infinity. *)
Definition unreachable (x : float) : bool :=
  match x with
  | S754_nan => true
  | S754_infinity s => negb s
  | _ => false
  end.

Definition is_high_error_rate (i : Issue) : bool :=
  match i with
  | high_error_rate _ _ => true
  | _ => false
  end.

(** * Strings *)

Lemma append_nil_r (s : string) : (s ++ "")%string = s.
Proof. induction s as [|c s IH]; simpl; [reflexivity | now rewrite IH]. Qed.

Lemma append_assoc (a b c : string) : ((a ++ b) ++ c)%string = (a ++ (b ++ c))%string.
Proof. induction a as [|x a IH]; simpl; [reflexivity | now rewrite IH]. Qed.

Lemma length_append (a b : string) :
  String.length (a ++ b) = (String.length a + String.length b)%nat.
Proof. induction a as [|x a IH]; simpl; [reflexivity | now rewrite IH]. Qed.

Lemma take_append (w s : string) : Str.take (String.length w) (w ++ s) = w.
Proof. induction w as [|c w IH]; simpl; [now destruct s | now rewrite IH]. Qed.

Lemma consumed_append (w s : string) : consumed (w ++ s) s = w.
Proof.
  unfold consumed. rewrite length_append.
  replace (String.length w + String.length s - String.length s)%nat
    with (String.length w) by lia.
  apply take_append.
Qed.

Lemma rstrip_append (s t : string) :
  exists u, Str.rstrip (s ++ t) = (Str.rstrip s ++ u)%string.
Proof.
  induction s as [|c s [u IH]]; simpl.
  - now exists (Str.rstrip t).
  - rewrite IH. destruct (Str.rstrip s) as [|d r] eqn:E; simpl.
    + destruct (Str.is_space c).
      * eexists; reflexivity.
      * destruct u; [exists EmptyString | eexists]; reflexivity.
    + eexists; reflexivity.
Qed.

Lemma lstrip_append (s t : string) :
  Str.lstrip s <> EmptyString -> Str.lstrip (s ++ t) = (Str.lstrip s ++ t)%string.
Proof.
  induction s as [|c s IH]; simpl; intros H.
  - now elim H.
  - destruct (Str.is_space c); [now apply IH | reflexivity].
Qed.

(** Text added after a line is added after the stripped line. *)
Lemma strip_append (line extra : string) :
  exists u, Str.strip (line ++ extra) = (Str.strip line ++ u)%string.
Proof.
  unfold Str.strip.
  destruct (Str.lstrip line) as [|c l] eqn:E.
  - simpl. eexists; reflexivity.
  - rewrite lstrip_append by (rewrite E; discriminate).
    rewrite E. apply rstrip_append.
Qed.

(** * The matcher finds a match exactly when the pattern denotes one *)

Section MatcherFacts.
Variable A : Type.

Lemma plus_run_sound (p : ascii -> bool) (k : string -> option A) :
  forall s a, plus_run p s k = Some a ->
  exists c w s', s = String c (w ++ s') /\ p c = true /\ Str.all p w = true
                 /\ k s' = Some a.
Proof.
  induction s as [|c s IH]; simpl; intros a H; [discriminate|].
  destruct (p c) eqn:Pc; [|discriminate].
  destruct (plus_run p s k) as [b|] eqn:E.
  - destruct (IH b eq_refl) as (c' & w & s' & -> & Pc' & Pw & Hk).
    exists c, (String c' w), s'. simpl. rewrite Pc', Pw.
    inversion H; subst. auto.
  - exists c, EmptyString, s. simpl. auto.
Qed.

Lemma plus_run_complete (p : ascii -> bool) (k : string -> option A) :
  forall w c s', p c = true -> Str.all p w = true -> k s' <> None ->
  plus_run p (String c (w ++ s')) k <> None.
Proof.
  induction w as [|d w IH]; simpl; intros c s' Pc Pw Hk.
  - rewrite Pc. destruct (plus_run p s' k); [discriminate | assumption].
  - rewrite Pc. apply andb_prop in Pw as [Pd Pw].
    specialize (IH d s' Pd Pw Hk). simpl in IH.
    destruct (p d); [|now elim IH].
    destruct (plus_run p (w ++ s') k) eqn:E; [discriminate|].
    now destruct (k (w ++ s')%string).
Qed.

Lemma exec_sound (r : regex) :
  forall s g (k : string -> groups -> option A) a,
  exec r s g k = Some a ->
  exists w s' g', s = (w ++ s')%string /\ derives r w g g' /\ k s' g' = Some a.
Proof.
  induction r as [c|p|p|r1 IH1 r2 IH2|r IH|name r IH]; simpl; intros s g k a H.
  - destruct s as [|c' s]; [discriminate|].
    destruct (Ascii.eqb c c') eqn:E; [|discriminate].
    apply Ascii.eqb_eq in E; subst c'.
    exists (String c EmptyString), s, g. repeat split; auto. constructor.
  - destruct s as [|c' s]; [discriminate|].
    destruct (p c') eqn:E; [|discriminate].
    exists (String c' EmptyString), s, g. repeat split; auto. now constructor.
  - apply plus_run_sound in H as (c & w & s' & -> & Pc & Pw & Hk).
    exists (String c w), s', g. repeat split; auto. now constructor.
  - apply IH1 in H as (w1 & s1 & g1 & -> & D1 & H).
    apply IH2 in H as (w2 & s2 & g2 & -> & D2 & H).
    exists (w1 ++ w2)%string, s2, g2. rewrite append_assoc.
    repeat split; auto. econstructor; eauto.
  - destruct (exec r s g k) as [b|] eqn:E.
    + inversion H; subst b.
      apply IH in E as (w & s' & g' & -> & D & Hk).
      exists w, s', g'. repeat split; auto. now constructor.
    + exists EmptyString, s, g. repeat split; auto. apply d_opt_none.
  - apply IH in H as (w & s' & g' & -> & D & Hk).
    rewrite consumed_append in Hk.
    exists w, s', ((name, w) :: g'). repeat split; auto. now constructor.
Qed.

Lemma exec_complete (r : regex) w g g' :
  derives r w g g' ->
  forall s' (k : string -> groups -> option A),
  k s' g' <> None -> exec r (w ++ s') g k <> None.
Proof.
  induction 1 as [c g|p c g Pc|p c w g Pc Pw|r1 r2 w1 w2 g g1 g2 _ IH1 _ IH2
                 |r w g g' _ IH|r g|name r w g g' _ IH]; simpl; intros s' k Hk.
  - now rewrite Ascii.eqb_refl.
  - now rewrite Pc.
  - now apply plus_run_complete.
  - rewrite append_assoc. apply IH1. now apply IH2.
  - specialize (IH s' k Hk). now destruct (exec r (w ++ s') g k).
  - now destruct (exec r s' g k).
  - apply IH. now rewrite consumed_append.
Qed.
End MatcherFacts.

Lemma match_sound (r : regex) (s : string) (g : groups) :
  match_ r s = Some g ->
  exists w rest, s = (w ++ rest)%string /\ derives r w [] g.
Proof.
  unfold match_. intros H.
  apply exec_sound in H as (w & s' & g' & -> & D & Hk).
  inversion Hk; subst. eauto.
Qed.

Lemma match_complete (r : regex) (w rest : string) (g : groups) :
  derives r w [] g -> match_ r (w ++ rest) <> None.
Proof.
  intros D. unfold match_. eapply exec_complete; eauto. discriminate.
Qed.

(** * [parse_log_line] *)

Ltac invert_derives :=
  repeat match goal with
         | H : derives (Cat _ _) _ _ _ |- _ => inversion H; subst; clear H
         | H : derives (Group _ _) _ _ _ |- _ => inversion H; subst; clear H
         | H : derives (Lit _) _ _ _ |- _ => inversion H; subst; clear H
         | H : derives (Class _) _ _ _ |- _ => inversion H; subst; clear H
         | H : derives (Plus _) _ _ _ |- _ => inversion H; subst; clear H
         | H : derives (Opt _) _ _ _ |- _ => inversion H; subst; clear H
         end.

(** The groups of a match of [LOG_PATTERN]: the five fields and the size
    are set, and the status is three digits. *)
Lemma log_pattern_groups (w : string) (g : groups) :
  derives LOG_PATTERN w [] g ->
  exists ip time method path d1 d2 d3 size,
    group "ip" g = Some ip /\ group "time" g = Some time
    /\ group "method" g = Some method /\ group "path" g = Some path
    /\ group "status" g = Some (String d1 (String d2 (String d3 EmptyString)))
    /\ Str.is_digit d1 = true /\ Str.is_digit d2 = true /\ Str.is_digit d3 = true
    /\ group "size" g = Some size.
Proof.
  intros D. cbv [LOG_PATTERN cat] in D. invert_derives;
    do 8 eexists; cbn; repeat split; eauto.
Qed.

Lemma digit_val_range (c : ascii) :
  Str.is_digit c = true -> 0 <= Str.digit_val c <= 9.
Proof.
  unfold Str.is_digit, Str.digit_val. intros H.
  apply andb_prop in H as [H1 H2]. apply Z.leb_le in H1, H2. lia.
Qed.

Lemma of_string_digit (c : ascii) (s : string) :
  Str.is_digit c = true ->
  PyInt.of_string (String c s) = PyInt.digits 0 false (String c s).
Proof.
  destruct c as [[] [] [] [] [] [] [] []]; intros H;
    try reflexivity; discriminate H.
Qed.

(** [int] accepts the text of a status group. *)
Lemma py_int_status (d1 d2 d3 : ascii) :
  Str.is_digit d1 = true -> Str.is_digit d2 = true -> Str.is_digit d3 = true ->
  py_int (String d1 (String d2 (String d3 EmptyString)))
  = Ret (100 * Str.digit_val d1 + 10 * Str.digit_val d2 + Str.digit_val d3).
Proof.
  intros H1 H2 H3. unfold py_int. rewrite of_string_digit by assumption.
  cbn [PyInt.digits]. rewrite H1, H2, H3. f_equal. lia.
Qed.

Lemma parse_log_line_of_match (line : string) (g : groups) :
  match_ LOG_PATTERN (Str.strip line) = Some g ->
  exists e size_text,
    parse_log_line line = Ret (Some e)
    /\ group "size" g = Some size_text
    /\ LogEntry.size e = _parse_size size_text
    /\ group "ip" g = Some (LogEntry.ip e)
    /\ group "path" g = Some (LogEntry.path e)
    /\ group "time" g = Some (LogEntry.timestamp_raw e)
    /\ 0 <= LogEntry.status e <= 999.
Proof.
  intros M. unfold parse_log_line. rewrite M.
  destruct (match_sound _ _ M) as (w & rest & _ & D).
  destruct (log_pattern_groups D)
    as (ip & time & method & path & d1 & d2 & d3 & size
        & Hip & Htime & Hmethod & Hpath & Hstatus & H1 & H2 & H3 & Hsize).
  unfold group_text. rewrite Hpath, Hstatus. cbn [bind].
  rewrite (py_int_status _ _ _ H1 H2 H3). cbn [bind].
  rewrite Hsize, Hip, Htime, Hmethod. cbn [bind].
  apply digit_val_range in H1, H2, H3.
  eexists; exists size.
  repeat split; try reflexivity; unfold LogEntry.status; lia.
Qed.

Lemma parse_log_line_no_match (line : string) :
  match_ LOG_PATTERN (Str.strip line) = None -> parse_log_line line = Ret None.
Proof. intros M. unfold parse_log_line. now rewrite M. Qed.

Lemma well_formed_iff_match (line : string) :
  well_formed line <-> match_ LOG_PATTERN (Str.strip line) <> None.
Proof.
  split.
  - intros (w & rest & g & E & D). rewrite E. eapply match_complete; eauto.
  - destruct (match_ LOG_PATTERN (Str.strip line)) as [g|] eqn:M; [|now intros []].
    intros _. destruct (match_sound _ _ M) as (w & rest & E & D).
    exists w, rest, g. auto.
Qed.

(** [parse_log_line] never raises: it returns an entry on the lines of
    the shape of a log line and [None] on the others. *)
Lemma parse_log_line_returns (line : string) :
  (well_formed line /\ exists e, parse_log_line line = Ret (Some e))
  \/ (~ well_formed line /\ parse_log_line line = Ret None).
Proof.
  destruct (match_ LOG_PATTERN (Str.strip line)) as [g|] eqn:M.
  - left. split.
    + apply well_formed_iff_match. rewrite M. discriminate.
    + destruct (parse_log_line_of_match _ M) as (e & sz & P & _). eauto.
  - right. split.
    + rewrite well_formed_iff_match, M. tauto.
    + now apply parse_log_line_no_match.
Qed.

Lemma parse_log_line_parsed_entry (line : string) :
  parse_log_line line = Ret (parsed_entry line).
Proof.
  unfold parsed_entry.
  destruct (parse_log_line_returns line) as [[_ [e ->]]|[_ ->]]; reflexivity.
Qed.

(** * Counters *)

Module CounterFacts.
Import Counter.
Export CounterSpec.

Lemma get_incr (k k' : string) (c : t) :
  get k' (incr k c) = if String.eqb k k' then get k' c + 1 else get k' c.
Proof.
  induction c as [|[k0 v] c IH]; simpl.
  - destruct (String.eqb k k'); reflexivity.
  - destruct (String.eqb k0 k) eqn:E0; simpl.
    + apply String.eqb_eq in E0; subst k0.
      destruct (String.eqb k k'); reflexivity.
    + destruct (String.eqb k0 k') eqn:E1.
      * apply String.eqb_eq in E1; subst k0. now rewrite String.eqb_sym, E0.
      * assumption.
Qed.

Lemma get_incr_same (k : string) (c : t) : get k (incr k c) = get k c + 1.
Proof. rewrite get_incr. now rewrite String.eqb_refl. Qed.

Lemma total_incr (k : string) (c : t) : total (incr k c) = total c + 1.
Proof.
  unfold total. induction c as [|[k0 v] c IH]; simpl; [lia|].
  destruct (String.eqb k0 k); simpl; lia.
Qed.

Lemma keys_incr (k : string) (c : t) :
  keys (incr k c) = if existsb (String.eqb k) (keys c) then keys c else (keys c ++ [k])%list.
Proof.
  unfold keys. induction c as [|[k0 v] c IH]; simpl; [reflexivity|].
  destruct (String.eqb k0 k) eqn:E; simpl.
  - now rewrite String.eqb_sym, E.
  - rewrite String.eqb_sym, E. simpl. rewrite IH.
    now destruct (existsb (String.eqb k) (map fst c)).
Qed.

Lemma existsb_eqb_In (k : string) (l : list string) :
  existsb (String.eqb k) l = true <-> In k l.
Proof.
  rewrite existsb_exists. split.
  - intros (x & Hx & E). apply String.eqb_eq in E. now subst.
  - intros H. exists k. split; [assumption | apply String.eqb_refl].
Qed.

Lemma in_keys_incr (k k' : string) (c : t) :
  In k' (keys (incr k c)) <-> k' = k \/ In k' (keys c).
Proof.
  rewrite keys_incr. destruct (existsb (String.eqb k) (keys c)) eqn:E.
  - apply existsb_eqb_In in E. split; [auto | intros [->|H]; auto].
  - rewrite in_app_iff. simpl. intuition.
Qed.

Lemma wf_nil : wf [].
Proof. split; constructor. Qed.

Lemma wf_incr (k : string) (c : t) : wf c -> wf (incr k c).
Proof.
  intros [ND PO]. split.
  - rewrite keys_incr. destruct (existsb (String.eqb k) (keys c)) eqn:E; [assumption|].
    assert (~ In k (keys c)) as NI.
    { intros H. apply existsb_eqb_In in H. congruence. }
    clear E. induction (keys c) as [|a l IH]; simpl.
    + constructor; [intros [] | constructor].
    + inversion ND; subst. constructor.
      * rewrite in_app_iff. simpl in *. intuition.
      * apply IH; [assumption | simpl in NI; intuition].
  - clear ND. induction c as [|[k0 v] c IH]; simpl.
    + constructor; [simpl; lia | constructor].
    + inversion PO; subst. simpl in *.
      destruct (String.eqb k0 k); constructor; simpl; auto; lia.
Qed.

Lemma get_in (k : string) (v : Z) (c : t) :
  NoDup (keys c) -> In (k, v) c -> get k c = v.
Proof.
  induction c as [|[k0 v0] c IH]; simpl; intros ND H; [contradiction|].
  inversion ND; subst. destruct H as [H|H].
  - inversion H; subst. now rewrite String.eqb_refl.
  - destruct (String.eqb k0 k) eqn:E.
    + apply String.eqb_eq in E; subst k0.
      elim H2. apply (in_map fst) in H. exact H.
    + now apply IH.
Qed.

Lemma get_not_in (k : string) (c : t) : ~ In k (keys c) -> get k c = 0.
Proof.
  induction c as [|[k0 v0] c IH]; simpl; intros H; [reflexivity|].
  destruct (String.eqb k0 k) eqn:E.
  - apply String.eqb_eq in E. intuition.
  - apply IH. intuition.
Qed.

Lemma in_get (k : string) (c : t) : In k (keys c) -> In (k, get k c) c.
Proof.
  induction c as [|[k0 v0] c IH]; simpl; intros H; [contradiction|].
  destruct (String.eqb k0 k) eqn:E.
  - apply String.eqb_eq in E; subst. now left.
  - right. apply IH. destruct H as [H|H]; [|assumption].
    subst. now rewrite String.eqb_refl in E.
Qed.

Lemma get_nonneg (k : string) (c : t) : wf c -> 0 <= get k c.
Proof.
  intros [_ PO]. induction c as [|[k0 v0] c IH]; simpl; [lia|].
  inversion PO; subst. simpl in *. destruct (String.eqb k0 k); [lia | auto].
Qed.

Lemma get_pos (k : string) (c : t) : wf c -> In k (keys c) -> 1 <= get k c.
Proof.
  intros [_ PO] H. apply in_get in H.
  rewrite Forall_forall in PO. apply (PO _ H).
Qed.

Lemma total_nonneg (c : t) : wf c -> 0 <= total c.
Proof.
  intros [_ PO]. unfold total. induction PO; simpl; lia.
Qed.

(** The counts of a part of the items sum to at most the total. *)
Lemma total_filter_le (f : string * Z -> bool) (c : t) :
  wf c -> 0 <= fold_right Z.add 0 (map snd (filter f c)) <= total c.
Proof.
  intros [_ PO]. unfold total. induction PO as [|x l Hx _ IH]; simpl; [lia|].
  destruct (f x); simpl; lia.
Qed.

End CounterFacts.

(** * The aggregation loop *)

Section LoopFacts.

Context {clock : Clock}.
Import CounterFacts.

Lemma step_absorb (st : AggState) (line : string) :
  step st line = Ret (absorb st line).
Proof.
  unfold step, absorb. rewrite parse_log_line_parsed_entry. cbn [bind].
  now destruct (parsed_entry line).
Qed.

(** The loop never raises. *)
Lemma loop_returns (lines : list string) :
  forall st, loop st lines = Ret (fold_left absorb lines st).
Proof.
  induction lines as [|line rest IH]; intros st; simpl; [reflexivity|].
  rewrite step_absorb. cbn [bind]. apply IH.
Qed.

Lemma aggregate_app (l1 l2 : list string) :
  fold_left absorb (l1 ++ l2) initial = fold_left absorb l2 (aggregate l1).
Proof. unfold aggregate. apply fold_left_app. Qed.

Lemma consistent_initial : consistent initial.
Proof.
  constructor; simpl; try lia; try apply wf_nil; try reflexivity; intros; lia.
Qed.

Lemma consistent_count_failure (st : AggState) :
  consistent st -> consistent (count_failure st).
Proof. intros []. constructor; simpl; auto; lia. Qed.

Lemma consistent_count_entry (st : AggState) (e : LogEntry.t) :
  consistent st -> consistent (count_entry st e).
Proof.
  intros []. constructor; cbn [count_entry total_lines parsed parse_failures
    endpoints status_codes ips ip_errors ip_suspicious_hits]; try lia;
    try (rewrite total_incr; lia); try (now apply wf_incr).
  - destruct (_ && _); [now apply wf_incr | assumption].
  - destruct (hits_suspicious_path _); [now apply wf_incr | assumption].
  - intros ip. specialize (c_errors0 ip).
    destruct (_ && _); rewrite ?get_incr;
      destruct (String.eqb (LogEntry.ip e) ip); lia.
  - intros ip. specialize (c_hits0 ip).
    destruct (hits_suspicious_path _); rewrite ?get_incr;
      destruct (String.eqb (LogEntry.ip e) ip); lia.
Qed.

Lemma consistent_absorb (st : AggState) (line : string) :
  consistent st -> consistent (absorb st line).
Proof.
  unfold absorb. destruct (parsed_entry line);
    [apply consistent_count_entry | apply consistent_count_failure].
Qed.

Lemma consistent_fold (lines : list string) :
  forall st, consistent st -> consistent (fold_left absorb lines st).
Proof.
  induction lines as [|l ls IH]; intros st H; simpl; [assumption|].
  apply IH. now apply consistent_absorb.
Qed.

Lemma consistent_aggregate (lines : list string) : consistent (aggregate lines).
Proof. apply consistent_fold, consistent_initial. Qed.

End LoopFacts.


(** * Binary64 arithmetic *)

Module FloatFacts.
Import PyFloat.
Export FloatSpec.

Lemma fexp_eq (e : Z) : fexp prec emax e = Z.max (e - 53) (-1074).
Proof. reflexivity. Qed.

Lemma digits2_bounds (p : positive) :
  2 ^ (Zpos (digits2_pos p) - 1) <= Zpos p < 2 ^ Zpos (digits2_pos p).
Proof.
  induction p as [p IH|p IH|]; cbn [digits2_pos].
  - rewrite Pos2Z.inj_succ.
    replace (Z.succ (Zpos (digits2_pos p)) - 1) with (Z.succ (Zpos (digits2_pos p) - 1)) by lia.
    rewrite !Z.pow_succ_r by lia. lia.
  - rewrite Pos2Z.inj_succ.
    replace (Z.succ (Zpos (digits2_pos p)) - 1) with (Z.succ (Zpos (digits2_pos p) - 1)) by lia.
    rewrite !Z.pow_succ_r by lia. lia.
  - simpl. lia.
Qed.

Lemma Zdigits2_nonneg (m : Z) : 0 <= Zdigits2 m.
Proof. destruct m; simpl; lia. Qed.

Lemma Zdigits2_bounds (m : Z) :
  0 < m -> 2 ^ (Zdigits2 m - 1) <= m < 2 ^ Zdigits2 m.
Proof. destruct m as [|p|p]; try lia. intros _. apply digits2_bounds. Qed.

Lemma Zdigits2_pos (m : Z) : 0 < m -> 1 <= Zdigits2 m.
Proof. destruct m; simpl; lia. Qed.

(** The number of binary digits is fixed by the two powers around. *)
Lemma Zdigits2_unique (m d : Z) :
  2 ^ (d - 1) <= m < 2 ^ d -> 1 <= d -> Zdigits2 m = d.
Proof.
  intros [L U] Hd.
  assert (0 < m) as Hm by (pose proof (Z.pow_pos_nonneg 2 (d - 1)); lia).
  destruct (Zdigits2_bounds Hm) as [L' U'].
  pose proof (Zdigits2_pos Hm) as P.
  destruct (Z.lt_trichotomy (Zdigits2 m) d) as [H|[H|H]]; [|assumption|].
  - assert (2 ^ Zdigits2 m <= 2 ^ (d - 1)) by (apply Z.pow_le_mono_r; lia). lia.
  - assert (2 ^ d <= 2 ^ (Zdigits2 m - 1)) by (apply Z.pow_le_mono_r; lia). lia.
Qed.

Lemma Zdigits2_le (m d : Z) : 0 <= m -> 0 <= d -> m < 2 ^ d -> Zdigits2 m <= d.
Proof.
  intros Hm Hd H. destruct (Z.eq_dec m 0) as [->|N]; [simpl; lia|].
  assert (0 < m) as P by lia. destruct (Zdigits2_bounds P) as [L _].
  destruct (Z.le_gt_cases (Zdigits2 m) d) as [|G]; [assumption|].
  assert (2 ^ d <= 2 ^ (Zdigits2 m - 1)) by (apply Z.pow_le_mono_r; lia). lia.
Qed.

(** ** Shifting to the right *)

Lemma shr_1_m (mrs : shr_record) :
  0 <= shr_m mrs -> shr_m (shr_1 mrs) = shr_m mrs / 2.
Proof.
  destruct mrs as [m r s]. simpl. intros H.
  destruct m as [|[p|p|]|p]; try lia; simpl shr_m.
  - reflexivity.
  - rewrite Pos2Z.inj_xI. apply Z.div_unique with 1; lia.
  - rewrite Pos2Z.inj_xO. apply Z.div_unique with 0; lia.
  - reflexivity.
Qed.

Lemma iter_shr_m (p : positive) :
  forall mrs, 0 <= shr_m mrs ->
  shr_m (iter_pos shr_1 p mrs) = shr_m mrs / 2 ^ Zpos p.
Proof.
  induction p as [p IH|p IH|]; intros mrs H; cbn [iter_pos].
  - assert (0 <= shr_m (shr_1 mrs)) as H1
        by (rewrite shr_1_m by assumption; apply Z.div_pos; lia).
    assert (0 <= shr_m (iter_pos shr_1 p (shr_1 mrs))) as H2
        by (rewrite IH by assumption; apply Z.div_pos; [|apply Z.pow_pos_nonneg]; lia).
    rewrite IH, IH, shr_1_m by assumption.
    rewrite !Z.div_div by (try apply Z.pow_pos_nonneg; lia).
    f_equal. rewrite (Pos2Z.inj_xI p).
    change (2 * Zpos p + 1) with (Z.succ (2 * Zpos p)).
    rewrite Z.pow_succ_r, Z.pow_twice_r by lia. reflexivity.
  - assert (0 <= shr_m (iter_pos shr_1 p mrs)) as H2
        by (rewrite IH by assumption; apply Z.div_pos; [|apply Z.pow_pos_nonneg]; lia).
    rewrite IH, IH by assumption.
    rewrite !Z.div_div by (try apply Z.pow_pos_nonneg; lia).
    f_equal. rewrite (Pos2Z.inj_xO p).
    rewrite Z.pow_twice_r. reflexivity.
  - now apply shr_1_m.
Qed.

Lemma shr_record_of_loc_m (m : Z) (l : location) : shr_m (shr_record_of_loc m l) = m.
Proof. destruct l as [|[]]; reflexivity. Qed.

(** [shr_fexp] drops the digits below the exponent of the format. *)
Lemma shr_fexp_spec (m e : Z) (l : location) :
  0 <= m ->
  let n := Z.max (fexp prec emax (Zdigits2 m + e) - e) 0 in
  shr_m (fst (shr_fexp prec emax m e l)) = m / 2 ^ n
  /\ snd (shr_fexp prec emax m e l) = e + n.
Proof.
  intros Hm n. unfold shr_fexp, shr. subst n.
  destruct (fexp prec emax (Zdigits2 m + e) - e) as [|p|p] eqn:E; cbn [fst snd].
  - rewrite shr_record_of_loc_m. change (Z.max 0 0) with 0.
    rewrite Z.pow_0_r, Z.div_1_r. split; [reflexivity | lia].
  - rewrite iter_shr_m by (rewrite shr_record_of_loc_m; assumption).
    rewrite shr_record_of_loc_m.
    replace (Z.max (Zpos p) 0) with (Zpos p) by lia. split; reflexivity.
  - rewrite shr_record_of_loc_m.
    replace (Z.max (Zneg p) 0) with 0 by lia.
    rewrite Z.pow_0_r, Z.div_1_r. split; [reflexivity | lia].
Qed.

Lemma round_nearest_even_bounds (m : Z) (l : location) :
  m <= round_nearest_even m l <= m + 1.
Proof.
  destruct l as [|[]]; simpl; try lia. destruct (Z.even m); lia.
Qed.

Lemma pow2_pos (n : Z) : 0 <= n -> 0 < 2 ^ n.
Proof. intros. apply Z.pow_pos_nonneg; lia. Qed.

Lemma pow2_split (a b : Z) : 0 <= a -> 0 <= b -> 2 ^ (a + b) = 2 ^ a * 2 ^ b.
Proof. intros. apply Z.pow_add_r; assumption. Qed.

(** Rounding: the result is canonical and at most one unit of the
    first shift above the exact value. *)
Lemma binary_round_aux_spec (mx ex : Z) (lx : location) :
  0 <= mx -> ex <= fexp prec emax (Zdigits2 mx + ex) ->
  exists m3 e1 e2,
    e1 = fexp prec emax (Zdigits2 mx + ex) /\ e1 <= e2 <= e1 + 1 /\ 0 <= m3
    /\ m3 * 2 ^ (e2 - ex) <= mx + 2 ^ (e1 - ex)
    /\ (0 < m3 -> fexp prec emax (Zdigits2 m3 + e2) = e2)
    /\ binary_round_aux prec emax false mx ex lx = packed m3 e2.
Proof.
  intros Hmx Hex.
  unfold binary_round_aux.
  destruct (shr_fexp_spec ex lx Hmx) as [M1 E1].
  destruct (shr_fexp prec emax mx ex lx) as [mrs1 e1] eqn:S1. cbn [fst snd] in M1, E1.
  rewrite fexp_eq in *.
  remember (Z.max (Zdigits2 mx + ex - 53) (-1074) - ex) as n1 eqn:N1.
  replace (Z.max n1 0) with n1 in * by lia.
  assert (0 <= n1) as Hn1 by lia.
  set (m2 := round_nearest_even (shr_m mrs1) (loc_of_shr_record mrs1)).
  assert (mx / 2 ^ n1 <= m2 <= mx / 2 ^ n1 + 1) as Hm2.
  { subst m2. rewrite <- M1. apply round_nearest_even_bounds. }
  pose proof (pow2_pos Hn1) as P1.
  assert (0 <= mx / 2 ^ n1) as Hm1 by (apply Z.div_pos; lia).
  assert (0 <= m2) as Hm2' by lia.
  destruct (shr_fexp_spec e1 loc_Exact Hm2') as [M2 E2].
  destruct (shr_fexp prec emax m2 e1 loc_Exact) as [mrs2 e2] eqn:S2. cbn [fst snd] in M2, E2.
  rewrite fexp_eq in *.
  remember (Z.max (Z.max (Zdigits2 m2 + e1 - 53) (-1074) - e1) 0) as n2 eqn:N2.
  assert (0 <= n2) as Hn2 by lia.
  pose proof (pow2_pos Hn2) as P2.
  exists (shr_m mrs2), e1, e2.
  assert (0 <= shr_m mrs2) as Hm3 by (rewrite M2; apply Z.div_pos; lia).
  assert (Zdigits2 m2 <= 54) as D54.
  { apply Zdigits2_le; [lia | lia |].
    assert (mx / 2 ^ n1 < 2 ^ 53); [|change (2 ^ 54) with (2 * 2 ^ 53); lia].
    apply Z.div_lt_upper_bound; [lia|].
    destruct (Z.eq_dec mx 0) as [->|NZ]; [pose proof (pow2_pos (n := 53)); nia|].
    destruct (@Zdigits2_bounds mx ltac:(lia)) as [_ U].
    rewrite <- pow2_split by lia.
    assert (2 ^ Zdigits2 mx <= 2 ^ (n1 + 53)); [|lia].
    apply Z.pow_le_mono_r; lia. }
  repeat split; try lia.
  - replace (e2 - ex) with (n2 + n1) by lia. replace (e1 - ex) with n1 by lia.
    rewrite pow2_split by lia. rewrite M2.
    pose proof (Z.mul_div_le m2 (2 ^ n2) P2).
    pose proof (Z.mul_div_le mx (2 ^ n1) P1). nia.
  - intros Pos3. rewrite fexp_eq.
    destruct (Z.eq_dec n2 0) as [Z2|NZ2].
    + (* no second shift *)
      rewrite Z2, Z.pow_0_r, Z.div_1_r in M2.
      rewrite M2. replace e2 with e1 by lia.
      assert (Z.max (Zdigits2 m2 + e1 - 53) (-1074) <= e1) by lia.
      destruct (Z.eq_dec e1 (-1074)) as [E74|NE]; [lia|].
      assert (53 <= Zdigits2 m2); [|lia].
      assert (0 < mx) as Pmx.
      { destruct (Z.eq_dec mx 0) as [Z|]; [|lia]. rewrite Z in N1. simpl in N1. lia. }
      destruct (Zdigits2_bounds Pmx) as [L _].
      assert (n1 = Zdigits2 mx - 53) as N1' by lia.
      assert (2 ^ 52 <= mx / 2 ^ n1).
      { apply Z.div_le_lower_bound; [lia|].
        rewrite <- pow2_split by lia.
        replace (n1 + 52) with (Zdigits2 mx - 1) by lia. assumption. }
      assert (0 < m2) as Pm2 by lia.
      destruct (Zdigits2_bounds Pm2) as [_ U].
      destruct (Z.le_gt_cases 53 (Zdigits2 m2)) as [|G]; [assumption|].
      assert (2 ^ Zdigits2 m2 <= 2 ^ 52) by (apply Z.pow_le_mono_r; lia). lia.
    + (* a second shift *)
      assert (0 < n2) as Pn2 by lia.
      assert (e2 = Z.max (Zdigits2 m2 + e1 - 53) (-1074)) as He2 by lia.
      rewrite M2 in Pos3.
      assert (0 < m2) as Pm2.
      { destruct (Z.eq_dec m2 0) as [Z|]; [|lia]. rewrite Z, Z.div_0_l in Pos3 by lia. lia. }
      destruct (Zdigits2_bounds Pm2) as [L U].
      assert (2 ^ n2 <= m2) as Big.
      { destruct (Z.le_gt_cases (2 ^ n2) m2) as [|G]; [assumption|].
        rewrite Z.div_small in Pos3 by lia. lia. }
      assert (n2 < Zdigits2 m2) as Hd.
      { destruct (Z.lt_ge_cases n2 (Zdigits2 m2)) as [|G]; [assumption|].
        assert (2 ^ Zdigits2 m2 <= 2 ^ n2)
          by (apply Z.pow_le_mono_r; [lia | assumption]). lia. }
      assert (Zdigits2 (shr_m mrs2) = Zdigits2 m2 - n2) as D3.
      { rewrite M2. apply Zdigits2_unique; [|lia]. split.
        - apply Z.div_le_lower_bound; [lia|].
          rewrite <- pow2_split by lia.
          replace (n2 + (Zdigits2 m2 - n2 - 1)) with (Zdigits2 m2 - 1) by lia.
          assumption.
        - apply Z.div_lt_upper_bound; [lia|].
          rewrite <- pow2_split by lia.
          replace (n2 + (Zdigits2 m2 - n2)) with (Zdigits2 m2) by lia.
          assumption. }
      rewrite D3. lia.
Qed.

(** ** Division of two integers *)

Lemma new_location_zero (b : Z) : new_location b 0 = loc_Exact.
Proof. unfold new_location. destruct (Z.even b); reflexivity. Qed.

Lemma SFdiv_pos (a b : positive) :
  let e' := Z.min (fexp prec emax (Zpos (digits2_pos a) - Zpos (digits2_pos b))) 0 in
  SFdiv prec emax (S754_finite false a 0) (S754_finite false b 0)
  = binary_round_aux prec emax false (Zpos a * 2 ^ (- e') / Zpos b) e'
      (new_location (Zpos b) ((Zpos a * 2 ^ (- e')) mod Zpos b)).
Proof.
  intros e'.
  change (SFdiv prec emax (S754_finite false a 0) (S754_finite false b 0))
    with (let '(mz, ez, lz) :=
            let '(q, r) :=
              Z.div_eucl match - e' with
                         | 0 => Zpos a
                         | Zpos _ => Z.shiftl (Zpos a) (- e')
                         | Zneg _ => 0
                         end (Zpos b) in
            (q, e', new_location (Zpos b) r) in
          binary_round_aux prec emax false mz ez lz).
  assert (e' <= 0) as He by (subst e'; lia).
  assert (match - e' with
          | 0 => Zpos a
          | Zpos _ => Z.shiftl (Zpos a) (- e')
          | Zneg _ => 0
          end = Zpos a * 2 ^ (- e')) as ->.
  { destruct (- e') as [|p|p] eqn:E.
    - rewrite Z.pow_0_r. lia.
    - rewrite Z.shiftl_mul_pow2 by lia. reflexivity.
    - lia. }
  unfold Z.div, Z.modulo.
  destruct (Z.div_eucl (Zpos a * 2 ^ (- e')) (Zpos b)) as [q r]. reflexivity.
Qed.

Lemma SFdiv_same (a : positive) :
  SFdiv prec emax (S754_finite false a 0) (S754_finite false a 0) = one.
Proof.
  rewrite SFdiv_pos. rewrite Z.sub_diag.
  change (Z.min (fexp prec emax 0) 0) with (-53).
  change (- -53) with 53.
  rewrite (Z.mul_comm (Zpos a)), Z.mod_mul, Z.div_mul by lia.
  rewrite new_location_zero. reflexivity.
Qed.

Lemma SFdiv_lt (a b : positive) :
  Zpos a < Zpos b ->
  unit_range (SFdiv prec emax (S754_finite false a 0) (S754_finite false b 0)).
Proof.
  intros Hab. rewrite SFdiv_pos. cbv zeta.
  rewrite fexp_eq.
  pose proof (digits2_bounds a) as [La Ua].
  pose proof (digits2_bounds b) as [Lb Ub].
  set (da := Zpos (digits2_pos a)) in *. set (db := Zpos (digits2_pos b)) in *.
  assert (1 <= da) as Hda by (subst da; lia).
  assert (1 <= db) as Hdb by (subst db; lia).
  assert (da <= db) as Hd.
  { destruct (Z.le_gt_cases da db) as [|G]; [assumption|].
    assert (2 ^ db <= 2 ^ (da - 1)) by (apply Z.pow_le_mono_r; lia). lia. }
  remember (Z.min (Z.max (da - db - 53) (-1074)) 0) as e' eqn:E'.
  assert (e' = Z.max (da - db - 53) (-1074)) as E'' by lia.
  set (s := - e'). assert (53 <= s) as Hs by lia.
  pose proof (pow2_pos (n := s) ltac:(lia)) as Ps.
  set (q := Zpos a * 2 ^ s / Zpos b).
  assert (0 <= q) as Hq by (apply Z.div_pos; lia).
  assert (q < 2 ^ s) as Uq by (apply Z.div_lt_upper_bound; nia).
  assert (e' <= fexp prec emax (Zdigits2 q + e')) as Hcanon.
  { rewrite fexp_eq. destruct (Z.eq_dec e' (-1074)) as [->|NE]; [lia|].
    assert (e' = da - db - 53) as Ee by lia.
    assert (2 ^ 52 <= q) as Lq.
    { apply Z.div_le_lower_bound; [lia|].
      assert (2 ^ (52 + db) <= 2 ^ (da - 1) * 2 ^ s).
      { rewrite <- pow2_split by lia. apply Z.pow_le_mono_r; lia. }
      rewrite pow2_split in H by lia. nia. }
    assert (0 < q) as Pq by lia.
    destruct (Zdigits2_bounds Pq) as [_ U].
    assert (53 <= Zdigits2 q); [|lia].
    destruct (Z.le_gt_cases 53 (Zdigits2 q)) as [|G]; [assumption|].
    assert (2 ^ Zdigits2 q <= 2 ^ 52)
      by (apply Z.pow_le_mono_r; [lia | pose proof (Zdigits2_nonneg q); lia]).
    lia. }
  destruct (binary_round_aux_spec
              (new_location (Zpos b) ((Zpos a * 2 ^ s) mod Zpos b)) Hq Hcanon)
    as (m3 & e1 & e2 & H1 & [H2 _] & Hm3 & Hup & Hcan & ->).
  rewrite fexp_eq in H1, Hcanon.
  unfold packed.
  destruct m3 as [|m|m]; [now left | | lia].
  specialize (Hcan ltac:(lia)). rewrite fexp_eq in Hcan.
  pose proof (digits2_bounds m) as [Lm Um]. cbn [Zdigits2] in Hcan.
  set (d3 := Zpos (digits2_pos m)) in *.
  assert (1 <= d3) as Hd3 by (subst d3; lia).
  (* the bound in integers *)
  set (t := e2 - e') in *. set (u := e1 - e') in *.
  assert (0 <= u <= t) as Hut by lia.
  assert (2 ^ u <= 2 ^ t) as Put by (apply Z.pow_le_mono_r; lia).
  pose proof (pow2_pos (n := t) ltac:(lia)) as Pt.
  assert ((Zpos m - 1) * 2 ^ t < 2 ^ s) as Key by nia.
  assert (e2 < 0) as Neg.
  { destruct (Z.lt_ge_cases e2 0) as [|G]; [assumption|].
    assert (2 ^ s <= 2 ^ t) by (apply Z.pow_le_mono_r; lia).
    assert (Zpos m = 1) as M1 by nia.
    assert (d3 = 1) as D1.
    { subst d3. apply (f_equal Z.to_pos) in M1. simpl in M1. now subst m. }
    lia. }
  assert (Zpos m <= 2 ^ (- e2)) as Le.
  { assert (s = t + - e2) as -> by lia.
    rewrite pow2_split in Key by lia.
    pose proof (pow2_pos (n := - e2) ltac:(lia)). nia. }
  assert (d3 <= 53) as D53 by lia.
  assert (Zpos m < 2 ^ 53) as U53.
  { assert (2 ^ d3 <= 2 ^ 53) by (apply Z.pow_le_mono_r; lia). lia. }
  assert (e2 <= -52) as E52.
  { destruct (Z.eq_dec e2 (-1074)) as [->|NE]; [lia|].
    assert (d3 = 53) as D by lia. rewrite D in Lm.
    destruct (Z.le_gt_cases e2 (-52)) as [|G]; [assumption|].
    assert (2 ^ (- e2) <= 2 ^ 51) by (apply Z.pow_le_mono_r; lia).
    change (2 ^ (53 - 1)) with (2 * 2 ^ 51) in Lm. lia. }
  replace (e2 <=? emax - prec) with true
    by (symmetry; apply Z.leb_le; unfold emax, prec; lia).
  right. exists m, e2. auto.
Qed.

Lemma unit_range_one : unit_range one.
Proof. right. exists 4503599627370496%positive, (-52). repeat split; try lia; reflexivity. Qed.

(** The quotient of two integers [0 <= a <= b], [0 < b], is a float
    between 0 and 1, and computing it raises nothing. *)
Lemma truediv_unit (a b : Z) :
  0 <= a <= b -> 0 < b ->
  exists f, truediv a b = Ret f /\ unit_range f.
Proof.
  intros [Ha Hab] Hb. unfold truediv.
  replace (b =? 0) with false by (symmetry; apply Z.eqb_neq; lia).
  replace (b <? 0) with false by (symmetry; apply Z.ltb_ge; lia).
  destruct (Z.eqb_spec a 0) as [->|Na].
  - eexists; split; [reflexivity | now left].
  - replace (a <? 0) with false by (symmetry; apply Z.ltb_ge; lia).
    destruct a as [|a|a]; try lia. destruct b as [|b|b]; try lia.
    cbn [Z.abs Z.to_pos].
    destruct (Z.eq_dec (Zpos a) (Zpos b)) as [E|NE].
    + inversion E; subst. rewrite SFdiv_same.
      eexists; split; [reflexivity | apply unit_range_one].
    + assert (Zpos a < Zpos b) as L by lia.
      pose proof (SFdiv_lt L) as U.
      destruct U as [->|(m & e & -> & U)].
      * eexists; split; [reflexivity | now left].
      * eexists; split; [reflexivity | right; eauto].
Qed.

(** ** Rounding to decimals *)

Lemma div_half_even_le (n d k : Z) :
  0 <= n -> 0 < d -> 0 <= k -> n <= k * d -> 0 <= div_half_even n d <= k.
Proof.
  intros Hn Hd Hk H. unfold div_half_even.
  pose proof (Z.div_mod n d ltac:(lia)) as E.
  pose proof (Z.mod_pos_bound n d Hd) as B.
  assert (0 <= n / d) by (apply Z.div_pos; lia).
  assert (n / d <= k) by (apply Z.div_le_upper_bound; lia).
  destruct (Z.eq_dec (n / d) k) as [Q|NQ].
  - assert (n mod d = 0) as -> by nia.
    replace (2 * 0 ?= d) with Lt by (symmetry; apply Z.compare_lt_iff; lia). lia.
  - destruct (2 * (n mod d) ?= d); [destruct (Z.even (n / d))| |]; lia.
Qed.

Lemma round_unit (x : float) :
  unit_range x -> exists r, round x 4 = Ret r /\ unit_range r.
Proof.
  intros [->|(m & e & -> & He & Hm & _)].
  - exists (S754_zero false). split; [reflexivity | now left].
  - unfold round.
    replace (Z.max e 0) with 0 by lia. replace (Z.max (- e) 0) with (- e) by lia.
    rewrite Z.pow_0_r, Z.mul_1_r.
    pose proof (pow2_pos (n := - e) ltac:(lia)) as P.
    assert (0 <= div_half_even (Zpos m * 10 ^ 4) (2 ^ (- e)) <= 10 ^ 4) as B.
    { apply div_half_even_le; lia. }
    destruct (div_half_even (Zpos m * 10 ^ 4) (2 ^ (- e)) =? 0) eqn:Q.
    + exists (S754_zero false). split; [reflexivity | now left].
    + apply truediv_unit; lia.
Qed.

(** ** Comparisons *)

Lemma unit_range_le (f : float) :
  unit_range f -> le zero f = true /\ le f one = true.
Proof.
  intros [->|(m & e & -> & He & Hm & _)]; [split; reflexivity|].
  split; [reflexivity|].
  unfold le, SFleb, one, SFcompare.
  destruct (Z.compare_spec e (-52)) as [E|L|G]; try reflexivity; [|lia].
  subst e. change (- -52) with 52 in Hm.
  rewrite Pos.compare_cont_spec. simpl.
  destruct (Pos.compare_spec m 4503599627370496) as [|L|G]; try reflexivity.
  change (2 ^ 52) with (Zpos 4503599627370496) in Hm. lia.
Qed.

(** ** The error rates of the program *)

Lemma truediv_ratio (a b : Z) :
  0 <= a <= b -> 0 < b -> truediv a b = Ret (ratio a b) /\ unit_range (ratio a b).
Proof.
  intros H1 H2. unfold ratio.
  destruct (truediv_unit H1 H2) as (f & -> & U). auto.
Qed.

Lemma round_round4 (x : float) :
  unit_range x -> round x 4 = Ret (round4 x) /\ unit_range (round4 x).
Proof.
  intros H. unfold round4. destruct (round_unit H) as (r & -> & U). auto.
Qed.

End FloatFacts.

(** * Ranking *)

Module RankFacts.
Import Counter.
Export RankSpec.

Lemma precedes_cons (x a b : string * Z) (l : list (string * Z)) :
  precedes a b l -> precedes a b (x :: l).
Proof.
  intros (l1 & l2 & -> & H). exists (x :: l1), l2. split; [reflexivity | assumption].
Qed.

Lemma precedes_head (x b : string * Z) (l : list (string * Z)) :
  In b l -> precedes x b (x :: l).
Proof. intros H. exists [], l. split; [reflexivity | assumption]. Qed.

Lemma ranked_before_cons (x a b : string * Z) (c : t) :
  ranked_before c a b -> ranked_before (x :: c) a b.
Proof.
  intros [H|[H1 H2]]; [now left | right]. split; [assumption | now apply precedes_cons].
Qed.

Lemma ranked_before_le (c : t) (a b : string * Z) :
  ranked_before c a b -> snd b <= snd a.
Proof. intros [H|[H _]]; lia. Qed.

Lemma insert_desc_perm (x : string * Z) (l : list (string * Z)) :
  Permutation (insert_desc x l) (x :: l).
Proof.
  induction l as [|y l IH]; simpl; [reflexivity|].
  destruct (snd x <? snd y); [|reflexivity].
  rewrite IH. apply perm_swap.
Qed.

Lemma sorted_desc_perm (c : t) : Permutation (sorted_desc c) c.
Proof.
  induction c as [|x c IH]; simpl; [reflexivity|].
  rewrite insert_desc_perm. now constructor.
Qed.

Lemma insert_desc_sorted (x : string * Z) (c : t) (l : list (string * Z)) :
  StronglySorted (ranked_before (x :: c)) l ->
  (forall y, In y l -> In y c) ->
  StronglySorted (ranked_before (x :: c)) (insert_desc x l).
Proof.
  induction l as [|y l IH]; simpl; intros S Hin.
  - repeat constructor.
  - inversion S as [|? ? S' F]; subst.
    destruct (snd x <? snd y) eqn:E.
    + apply Z.ltb_lt in E. constructor.
      * apply IH; auto.
      * rewrite Forall_forall. intros z Hz.
        apply (Permutation_in _ (insert_desc_perm x l)) in Hz.
        destruct Hz as [<-|Hz]; [now left|].
        rewrite Forall_forall in F. now apply F.
    + apply Z.ltb_ge in E. constructor; [assumption|].
      rewrite Forall_forall. intros z Hz.
      assert (snd z <= snd y) as Hzy.
      { destruct Hz as [<-|Hz]; [lia|].
        rewrite Forall_forall in F. apply ranked_before_le with (c := x :: c). now apply F. }
      destruct (Z.eq_dec (snd z) (snd x)) as [Q|NQ].
      * right. split; [now symmetry|]. apply precedes_head. now apply Hin.
      * left. lia.
Qed.

(** The result of the sort is ordered by [ranked_before]. *)
Lemma sorted_desc_ranked (c : t) : StronglySorted (ranked_before c) (sorted_desc c).
Proof.
  induction c as [|x c IH]; simpl; [constructor|].
  apply insert_desc_sorted.
  - clear -IH. induction IH as [|a l S IHS F]; constructor; auto.
    rewrite Forall_forall in *. intros z Hz. apply ranked_before_cons. now apply F.
  - intros y Hy. now apply (Permutation_in _ (sorted_desc_perm c)).
Qed.

Lemma StronglySorted_filter (A : Type) (R : A -> A -> Prop) (f : A -> bool) (l : list A) :
  StronglySorted R l -> StronglySorted R (filter f l).
Proof.
  induction 1 as [|a l S IH F]; simpl; [constructor|].
  destruct (f a); [|assumption]. constructor; [assumption|].
  rewrite Forall_forall in *. intros z Hz. apply filter_In in Hz as [Hz _]. now apply F.
Qed.

Lemma In_firstn (A : Type) (n : nat) (l : list A) (x : A) :
  In x (firstn n l) -> In x l.
Proof.
  revert l. induction n as [|n IH]; intros [|a l]; simpl; try tauto.
  intros [H|H]; [now left | right; now apply IH].
Qed.

Lemma StronglySorted_firstn (A : Type) (R : A -> A -> Prop) (n : nat) (l : list A) :
  StronglySorted R l -> StronglySorted R (firstn n l).
Proof.
  intros S. revert n. induction S as [|a l S IH F]; intros [|n]; simpl; try constructor.
  - apply IH.
  - rewrite Forall_forall in *. intros z Hz. apply F. eapply In_firstn; eauto.
Qed.

(** ** The keys of a counter in the order of first occurrence *)

Lemma keys_count_all (ks : list string) :
  forall c, keys (count_all ks c) = first_seen_from (keys c) ks.
Proof.
  induction ks as [|k ks IH]; intros c; simpl; [reflexivity|].
  unfold count_all in *. simpl. rewrite IH. now rewrite CounterFacts.keys_incr.
Qed.

Lemma get_count_all (k : string) (ks : list string) :
  forall c, get k (count_all ks c) = get k c + occurrences k ks.
Proof.
  induction ks as [|k' ks IH]; intros c; simpl; [lia|].
  unfold count_all in *. simpl. rewrite IH, CounterFacts.get_incr.
  destruct (String.eqb k' k); lia.
Qed.

End RankFacts.

(** * The detection stage and the report *)

Section ReportFacts.

Context {clock : Clock}.
Import CounterFacts FloatFacts RankFacts.

Lemma error_requests_bounds (st : AggState) :
  consistent st -> 0 <= error_requests (status_codes st) <= parsed st.
Proof.
  intros C. unfold error_requests.
  rewrite <- (c_status C). apply total_filter_le, (c_wf_status C).
Qed.

Lemma rate_of_unit (st : AggState) : consistent st -> unit_range (rate_of st).
Proof.
  intros C. unfold rate_of. destruct (Z.eqb_spec (parsed st) 0) as [E|N]; [now left|].
  pose proof (c_parsed C).
  apply truediv_ratio; [now apply error_requests_bounds | lia].
Qed.

Lemma overall_error_rate_spec (st : AggState) :
  consistent st -> overall_error_rate st = Ret (rate_of st).
Proof.
  intros C. unfold overall_error_rate, rate_of.
  destruct (Z.eqb_spec (parsed st) 0) as [E|N]; [reflexivity|].
  pose proof (c_parsed C).
  apply truediv_ratio; [now apply error_requests_bounds | lia].
Qed.

Lemma overall_issues_spec (st : AggState) (thr : float) :
  consistent st ->
  overall_issues (parsed st) (rate_of st) thr = Ret (overall_part st thr).
Proof.
  intros C. unfold overall_issues, overall_part.
  destruct (parsed st =? 0); [reflexivity|].
  destruct (PyFloat.ge (rate_of st) thr); [|reflexivity].
  destruct (round_round4 (rate_of_unit C)) as [-> _]. reflexivity.
Qed.

(** An item of [ips]: a count of at least one, and no more errors than
    requests. *)
Lemma item_bounds (st : AggState) (ip : string) (req_count : Z) :
  consistent st -> In (ip, req_count) (ips st) ->
  1 <= req_count
  /\ 0 <= Counter.get ip (ip_errors st) <= req_count
  /\ 0 <= Counter.get ip (ip_suspicious_hits st) <= req_count.
Proof.
  intros C H.
  pose proof (c_wf_ips C) as [ND PO].
  pose proof (@get_in _ _ _ ND H) as G.
  rewrite Forall_forall in PO. specialize (PO _ H). simpl in PO.
  pose proof (c_errors C ip). pose proof (c_hits C ip).
  pose proof (get_nonneg ip (c_wf_errors C)).
  pose proof (get_nonneg ip (c_wf_hits C)). lia.
Qed.

Lemma ip_rate_unit (st : AggState) (ip : string) (req_count : Z) :
  consistent st -> In (ip, req_count) (ips st) ->
  PyFloat.truediv (Counter.get ip (ip_errors st)) req_count = Ret (ip_rate_of st ip req_count)
  /\ unit_range (ip_rate_of st ip req_count).
Proof.
  intros C H. destruct (@item_bounds _ _ _ C H) as (H1 & H2 & _).
  apply truediv_ratio; lia.
Qed.

Lemma collect_suspicious_spec (st : AggState) (threshold : Z) (ranked : list (string * Z)) :
  consistent st -> (forall x, In x ranked -> In x (ips st)) ->
  collect_suspicious st threshold ranked
  = Ret (map (suspect_of st) (filter (flagged st threshold) ranked)).
Proof.
  intros C. induction ranked as [|[ip req] rest IH]; intros Hin; [reflexivity|].
  cbn [collect_suspicious].
  assert (In (ip, req) (ips st)) as Hi by (apply Hin; now left).
  destruct (@item_bounds _ _ _ C Hi) as (H1 & _ & _).
  destruct (@ip_rate_unit _ _ _ C Hi) as [E U].
  unfold ip_error_rate.
  replace (req =? 0) with false by (symmetry; apply Z.eqb_neq; lia).
  rewrite E. cbn [bind filter]. unfold flagged at 1. cbn [fst snd].
  rewrite IH by (intros x Hx; apply Hin; now right).
  destruct (is_suspicious _ _ _ _); [|reflexivity].
  destruct (round_round4 U) as [-> _]. reflexivity.
Qed.

Lemma suspicious_issues_spec (st : AggState) :
  consistent st ->
  suspicious_issues st =
  if parsed st =? 0 then Ret []
  else (t <- suspicious_volume_threshold (parsed st) ;; Ret (suspicious_part st t)).
Proof.
  intros C. unfold suspicious_issues, suspicious_part.
  destruct (parsed st =? 0); [reflexivity|].
  destruct (suspicious_volume_threshold (parsed st)) as [t|e]; [|reflexivity].
  cbn [bind]. rewrite collect_suspicious_spec; [|assumption|].
  - cbn [bind]. fold (suspects st t). now destruct (suspects st t).
  - intros x Hx. unfold Counter.most_common_all in Hx.
    now apply (Permutation_in _ (sorted_desc_perm (ips st))).
Qed.

(** The report: the computation of the volume threshold is the only
    step that may raise. *)
Lemma report_of_spec (st : AggState) (top_n : Z) (thr : float) :
  consistent st ->
  report_of st top_n thr =
  if parsed st =? 0 then Ret (report_with st top_n thr 0)
  else (t <- suspicious_volume_threshold (parsed st) ;; Ret (report_with st top_n thr t)).
Proof.
  intros C. unfold report_of.
  rewrite (overall_error_rate_spec C). cbn [bind].
  rewrite (overall_issues_spec thr C). cbn [bind].
  rewrite (suspicious_issues_spec C).
  destruct (round_round4 (rate_of_unit C)) as [R _].
  unfold report_with, suspicious_part.
  destruct (parsed st =? 0).
  - cbn [bind]. rewrite R. reflexivity.
  - destruct (suspicious_volume_threshold (parsed st)) as [t|e]; [|reflexivity].
    cbn [bind]. rewrite R. reflexivity.
Qed.

Lemma analyze_spec (lines : list string) (top_n : Z) (thr : float) :
  analyze lines top_n thr =
  let st := aggregate lines in
  if parsed st =? 0 then Ret (report_with st top_n thr 0)
  else (t <- suspicious_volume_threshold (parsed st) ;; Ret (report_with st top_n thr t)).
Proof.
  unfold analyze. rewrite loop_returns. cbn [bind].
  apply report_of_spec, consistent_aggregate.
Qed.

(** A report that [analyze] returns is [report_with] at the threshold
    that was computed. *)
Lemma analyze_inv (lines : list string) (top_n : Z) (thr : float) (r : Report.t) :
  analyze lines top_n thr = Ret r ->
  let st := aggregate lines in
  (parsed st = 0 /\ r = report_with st top_n thr 0)
  \/ (0 < parsed st /\ exists t,
        suspicious_volume_threshold (parsed st) = Ret t /\ r = report_with st top_n thr t).
Proof.
  rewrite analyze_spec. cbv zeta.
  pose proof (c_parsed (consistent_aggregate lines)) as P.
  destruct (Z.eqb_spec (parsed (aggregate lines)) 0) as [E|N]; intros H.
  - left. split; [assumption | congruence].
  - right. split; [lia|].
    destruct (suspicious_volume_threshold (parsed (aggregate lines))) as [t|e];
      [|discriminate].
    exists t. split; [reflexivity | cbn in H; congruence].
Qed.

End ReportFacts.

(** * The volume threshold *)

Module VolumeFacts.
Import PyFloat FloatFacts.

Lemma iter_xO (p d : positive) : Zpos (Pos.iter xO p d) = Zpos p * 2 ^ Zpos d.
Proof.
  induction d as [|d IH] using Pos.peano_ind.
  - simpl. lia.
  - rewrite Pos.iter_succ, Pos2Z.inj_xO, IH, Pos2Z.inj_succ, Z.pow_succ_r by lia. lia.
Qed.

(** The mantissa and exponent that [binary_round] hands to the rounding
    of an integer [p]: at least 53 digits. *)
Lemma shl_align_int (p : positive) :
  let d := Zpos (digits2_pos p) in
  exists mz ez,
    shl_align p 0 (fexp prec emax (d + 0)) = (mz, ez)
    /\ ez = Z.min (d - 53) 0
    /\ Zpos mz = Zpos p * 2 ^ (- ez)
    /\ Zdigits2 (Zpos mz) = Z.max d 53.
Proof.
  intros d. rewrite fexp_eq. unfold shl_align.
  assert (1 <= d) as Hd by (subst d; lia).
  pose proof (digits2_bounds p) as [L U]. fold d in L, U.
  replace (Z.max (d + 0 - 53) (-1074) - 0) with (d - 53) by lia.
  replace (Z.max (d + 0 - 53) (-1074)) with (d - 53) by lia.
  destruct (d - 53) as [|k|k] eqn:E.
  - exists p, 0. repeat split; try lia. simpl Zdigits2. fold d. lia.
  - exists p, 0. repeat split; try lia. simpl Zdigits2. fold d. lia.
  - exists (Pos.iter xO p k), (Zneg k). rewrite iter_xO.
    replace (Z.min (Z.neg k) 0) with (Zneg k) by lia.
    change (- Zneg k) with (Zpos k).
    repeat split; try lia.
    replace (Z.max d 53) with 53 by lia.
    rewrite <- iter_xO.
    apply Zdigits2_unique; [|lia]. rewrite iter_xO.
    assert (Zpos k = 53 - d) as K by lia. rewrite K.
    pose proof (pow2_pos (n := 53 - d) ltac:(lia)) as P.
    split.
    + replace (53 - 1) with ((d - 1) + (53 - d)) by lia.
      rewrite Z.pow_add_r by lia. nia.
    + replace (2 ^ 53) with (2 ^ (d + (53 - d))) by (f_equal; lia).
      rewrite Z.pow_add_r by lia. nia.
Qed.

Lemma packed_finite (m e : Z) :
  0 <= m -> e <= 971 -> (0 < m -> fexp prec emax (Zdigits2 m + e) = e) ->
  finite_pos (packed m e).
Proof.
  intros Hm He Hc. unfold packed. destruct m as [|p|p]; [now left| |lia].
  replace (e <=? emax - prec) with true
    by (symmetry; apply Z.leb_le; unfold emax, prec; lia).
  right. exists p, e. repeat split; try assumption.
  specialize (Hc ltac:(lia)). rewrite fexp_eq in Hc.
  destruct (@Zdigits2_bounds (Zpos p) ltac:(lia)) as [_ U].
  assert (2 ^ Zdigits2 (Zpos p) <= 2 ^ 53)
    by (apply Z.pow_le_mono_r; [lia | lia]). lia.
Qed.

(** The float of a count below [2^1023]. *)
Lemma of_int_finite (n : Z) :
  0 < n < 2 ^ 1023 -> exists y, of_int n = Ret y /\ finite_pos y.
Proof.
  intros [Hn Un]. destruct n as [|p|p]; try lia.
  unfold of_int, binary_normalize, binary_round.
  destruct (shl_align_int p) as (mz & ez & -> & Ez & Mz & Dz).
  pose proof (digits2_bounds p) as [L U].
  set (d := Zpos (digits2_pos p)) in *.
  assert (d <= 1023) as D1023.
  { destruct (Z.le_gt_cases d 1023) as [|G]; [assumption|].
    assert (2 ^ 1023 <= 2 ^ (d - 1)) by (apply Z.pow_le_mono_r; lia). lia. }
  assert (ez <= fexp prec emax (Zdigits2 (Zpos mz) + ez)) as Hc
    by (rewrite fexp_eq, Dz; lia).
  destruct (@binary_round_aux_spec (Zpos mz) ez loc_Exact ltac:(lia) Hc)
    as (m3 & e1 & e2 & H1 & H2 & Hm3 & _ & Hcan & ->).
  rewrite fexp_eq, Dz in H1.
  assert (finite_pos (packed m3 e2)) as F by (apply packed_finite; [lia | lia | assumption]).
  destruct F as [->|(my & ey & -> & F)].
  - eexists; split; [reflexivity | now left].
  - eexists; split; [reflexivity | right; eauto].
Qed.

(** The product of [0.2] and such a float does not overflow. *)
Lemma mul_0_2_finite (y : float) :
  finite_pos y -> finite_pos (SFmul prec emax lit_0_2 y).
Proof.
  intros [->|(my & ey & -> & Hm & He)]; [now left|].
  unfold lit_0_2, SFmul. cbn [xorb].
  set (P := Zpos (7205759403792794 * my)).
  assert (P = 7205759403792794 * Zpos my) as EP by (subst P; lia).
  assert (2 ^ 52 <= P < 2 ^ 106) as [LP UP].
  { rewrite EP. change (2 ^ 106) with (2 ^ 53 * 2 ^ 53).
    change (2 ^ 52) with 4503599627370496 in *.
    change (2 ^ 53) with 9007199254740992 in *. lia. }
  assert (53 <= Zdigits2 P <= 106) as [LD UD].
  { destruct (@Zdigits2_bounds P ltac:(lia)) as [L U]. split.
    - destruct (Z.le_gt_cases 53 (Zdigits2 P)) as [|G]; [assumption|].
      assert (2 ^ Zdigits2 P <= 2 ^ 52)
        by (apply Z.pow_le_mono_r; [lia | pose proof (Zdigits2_nonneg P); lia]). lia.
    - destruct (Z.le_gt_cases (Zdigits2 P) 106) as [|G]; [assumption|].
      assert (2 ^ 106 <= 2 ^ (Zdigits2 P - 1)) by (apply Z.pow_le_mono_r; lia). lia. }
  assert (-55 + ey <= fexp prec emax (Zdigits2 P + (-55 + ey))) as Hc
    by (rewrite fexp_eq; lia).
  destruct (@binary_round_aux_spec P (-55 + ey) loc_Exact ltac:(lia) Hc)
    as (m3 & e1 & e2 & H1 & H2 & Hm3 & _ & Hcan & ->).
  rewrite fexp_eq in H1.
  apply packed_finite; [lia | lia | assumption].
Qed.

Lemma to_int_finite (y : float) :
  finite_pos y -> exists v, to_int y = Ret v /\ 0 <= v.
Proof.
  intros [->|(my & ey & -> & _)]; [exists 0; split; [reflexivity | lia]|].
  unfold to_int. eexists; split; [reflexivity|].
  destruct (Z.leb_spec 0 ey).
  - rewrite Z.shiftl_mul_pow2 by lia. pose proof (Z.pow_nonneg 2 ey). nia.
  - apply Z.shiftr_nonneg. lia.
Qed.

(** Line 165 returns a threshold of at least 100 for every count below
    [2^1023]. *)
Lemma suspicious_volume_threshold_returns (n : Z) :
  0 < n < 2 ^ 1023 ->
  exists t, suspicious_volume_threshold n = Ret t /\ 100 <= t.
Proof.
  intros H. unfold suspicious_volume_threshold, mul_int.
  destruct (of_int_finite H) as (y & -> & F). cbn [bind].
  destruct (to_int_finite (mul_0_2_finite F)) as (v & -> & Hv). cbn [bind].
  eexists; split; [reflexivity | lia].
Qed.

(** ** The round bit *)

Lemma shr_1_r (mrs : shr_record) :
  0 <= shr_m mrs -> shr_r (shr_1 mrs) = Z.odd (shr_m mrs).
Proof.
  destruct mrs as [m r s]. simpl. intros H.
  destruct m as [|[p|p|]|p]; try lia; reflexivity.
Qed.

Lemma shr_1_nonneg (mrs : shr_record) : 0 <= shr_m mrs -> 0 <= shr_m (shr_1 mrs).
Proof. intros H. rewrite shr_1_m by assumption. apply Z.div_pos; lia. Qed.

Lemma iter_shr_nonneg (p : positive) (mrs : shr_record) :
  0 <= shr_m mrs -> 0 <= shr_m (iter_pos shr_1 p mrs).
Proof.
  intros H. rewrite iter_shr_m by assumption.
  apply Z.div_pos; [assumption | apply pow2_pos; lia].
Qed.

(** After a shift by [p], the round bit is the bit [p - 1]. *)
Lemma iter_shr_r (p : positive) :
  forall mrs, 0 <= shr_m mrs ->
  shr_r (iter_pos shr_1 p mrs) = Z.odd (shr_m mrs / 2 ^ (Zpos p - 1)).
Proof.
  induction p as [p IH|p IH|]; intros mrs H; cbn [iter_pos].
  - rewrite IH by (apply iter_shr_nonneg; now apply shr_1_nonneg).
    rewrite iter_shr_m by (now apply shr_1_nonneg).
    rewrite shr_1_m by assumption.
    rewrite !Z.div_div by (try apply pow2_pos; lia).
    f_equal. f_equal.
    rewrite (Pos2Z.inj_xI p).
    replace (2 * Zpos p + 1 - 1) with (1 + (Zpos p + (Zpos p - 1))) by lia.
    rewrite !Z.pow_add_r by lia. reflexivity.
  - rewrite IH by (now apply iter_shr_nonneg).
    rewrite iter_shr_m by assumption.
    rewrite !Z.div_div by (try apply pow2_pos; lia).
    f_equal. f_equal.
    rewrite (Pos2Z.inj_xO p).
    replace (2 * Zpos p - 1) with (Zpos p + (Zpos p - 1)) by lia.
    rewrite !Z.pow_add_r by lia. reflexivity.
  - rewrite shr_1_r by assumption. now rewrite Z.div_1_r.
Qed.

Lemma odd_div_mod (m n : Z) :
  0 <= m -> 0 < n -> Z.odd (m / 2 ^ (n - 1)) = true -> 2 ^ n <= 2 * (m mod 2 ^ n).
Proof.
  intros Hm Hn O.
  pose proof (pow2_pos (n := n - 1) ltac:(lia)) as P.
  assert (2 ^ n = 2 * 2 ^ (n - 1)) as E.
  { replace n with (Z.succ (n - 1)) at 1 by lia. apply Z.pow_succ_r. lia. }
  set (a := m / 2 ^ (n - 1)) in *.
  pose proof (Z.div_mod m (2 ^ (n - 1)) ltac:(lia)) as Dm. fold a in Dm.
  pose proof (Z.mod_pos_bound m (2 ^ (n - 1)) P) as B.
  rewrite Z.odd_spec in O. destruct O as [b Hb].
  assert (m mod 2 ^ n = 2 ^ (n - 1) + m mod 2 ^ (n - 1)) as ->; [|lia].
  symmetry. apply Z.mod_unique with b; [left; lia|]. rewrite E. nia.
Qed.

Lemma round_up_bit (mrs : shr_record) :
  round_nearest_even (shr_m mrs) (loc_of_shr_record mrs) = shr_m mrs + 1 ->
  shr_r mrs = true.
Proof.
  destruct mrs as [m [] []]; simpl; try reflexivity; lia.
Qed.

(** Rounding an exact value: the mantissa after the first shift is
    the truncation or the next integer, and the next integer only when
    at least half a unit was cut. *)
Lemma binary_round_aux_exact (mx ex : Z) :
  0 <= mx ->
  let n1 := fexp prec emax (Zdigits2 mx + ex) - ex in
  0 <= n1 ->
  exists m2,
    let e1 := ex + n1 in
    let n2 := Z.max (fexp prec emax (Zdigits2 m2 + e1) - e1) 0 in
    mx / 2 ^ n1 <= m2 <= mx / 2 ^ n1 + 1
    /\ (m2 = mx / 2 ^ n1 + 1 -> 0 < n1 /\ 2 ^ n1 <= 2 * (mx mod 2 ^ n1))
    /\ binary_round_aux prec emax false mx ex loc_Exact = packed (m2 / 2 ^ n2) (e1 + n2).
Proof.
  intros Hmx n1 Hn1.
  unfold binary_round_aux.
  destruct (shr_fexp prec emax mx ex loc_Exact) as [mrs1 e1] eqn:S1.
  assert (e1 = ex + n1 /\ shr_m mrs1 = mx / 2 ^ n1
          /\ (shr_r mrs1 = true -> 0 < n1 /\ 2 ^ n1 <= 2 * (mx mod 2 ^ n1))) as (E1 & M1 & R1).
  { unfold shr_fexp, shr in S1. fold n1 in S1.
    destruct n1 as [|p|p] eqn:N; try lia.
    - inversion S1; subst. cbn. rewrite Z.div_1_r. repeat split; try lia; discriminate.
    - inversion S1; subst. cbn [shr_record_of_loc].
      rewrite iter_shr_m, iter_shr_r by (cbn; lia). cbn [shr_m].
      repeat split; try lia. now apply odd_div_mod. }
  set (m2 := round_nearest_even (shr_m mrs1) (loc_of_shr_record mrs1)).
  pose proof (round_nearest_even_bounds (shr_m mrs1) (loc_of_shr_record mrs1)) as B.
  fold m2 in B.
  pose proof (pow2_pos Hn1) as P1.
  assert (0 <= mx / 2 ^ n1) as Hm1 by (apply Z.div_pos; lia).
  assert (0 <= m2) as Hm2 by lia.
  destruct (shr_fexp_spec e1 loc_Exact Hm2) as [M2 E2].
  destruct (shr_fexp prec emax m2 e1 loc_Exact) as [mrs2 e2] eqn:S2.
  cbn [fst snd] in M2, E2.
  exists m2. cbv zeta. rewrite <- E1.
  split; [lia|]. split.
  - intros Hup. apply R1. apply round_up_bit. fold m2. lia.
  - rewrite <- M2, <- E2. unfold packed. reflexivity.
Qed.

(** ** The threshold in exact arithmetic *)

(** The float of a count below [2^53] is exact. *)
Lemma of_int_exact (n : Z) :
  0 < n < 2 ^ 53 ->
  exists mz, of_int n = Ret (S754_finite false mz (Zdigits2 n - 53))
             /\ Zpos mz = n * 2 ^ (53 - Zdigits2 n)
             /\ Zdigits2 (Zpos mz) = 53.
Proof.
  intros [Hn Un]. destruct n as [|p|p]; try lia.
  unfold of_int, binary_normalize, binary_round.
  destruct (shl_align_int p) as (mz & ez & -> & Ez & Mz & Dz).
  cbn [Zdigits2]. set (d := Zpos (digits2_pos p)) in *.
  assert (1 <= d <= 53) as [Hd Hd'].
  { split; [subst d; lia|]. pose proof (digits2_bounds p) as [L _]. fold d in L.
    destruct (Z.le_gt_cases d 53) as [|G]; [assumption|].
    assert (2 ^ 53 <= 2 ^ (d - 1)) by (apply Z.pow_le_mono_r; lia). lia. }
  assert (ez = d - 53) as Ez' by lia.
  replace (Z.max d 53) with 53 in Dz by lia.
  assert (fexp prec emax (Zdigits2 (Zpos mz) + ez) - ez = 0) as N1
    by (rewrite fexp_eq, Dz; lia).
  destruct (@binary_round_aux_exact (Zpos mz) ez ltac:(lia)) as (m2 & B & Up & ->);
    [rewrite N1; lia|].
  rewrite N1 in *. rewrite Z.pow_0_r, Z.div_1_r, Z.add_0_r in *.
  assert (m2 = Zpos mz) as -> by lia.
  rewrite N1. change (Z.max 0 0) with 0. rewrite Z.pow_0_r, Z.div_1_r, Z.add_0_r.
  unfold packed.
  replace (ez <=? emax - prec) with true
    by (symmetry; apply Z.leb_le; unfold emax, prec; lia).
  exists mz. rewrite Ez' at 1. repeat split; [|assumption].
  rewrite Mz, Ez'. f_equal. f_equal. lia.
Qed.

Lemma to_int_packed (m e : Z) :
  0 <= m -> e < 0 -> to_int (packed m e) = Ret (m / 2 ^ (- e)).
Proof.
  intros Hm He. unfold packed. destruct m as [|p|p]; try lia.
  - rewrite Z.div_0_l; [reflexivity|]. pose proof (pow2_pos (n := - e)). lia.
  - replace (e <=? emax - prec) with true
      by (symmetry; apply Z.leb_le; unfold emax, prec; lia).
    unfold to_int.
    replace (0 <=? e) with false by (symmetry; apply Z.leb_gt; lia).
    now rewrite Z.shiftr_div_pow2 by lia.
Qed.

(** [int(0.2 * n)] is the quotient of [n] by 5 for all the counts
    below [3 * 2^51]. *)
Lemma suspicious_volume_threshold_exact (n : Z) :
  0 < n < 3 * 2 ^ 51 ->
  suspicious_volume_threshold n = Ret (Z.max 100 (n / 5)).
Proof.
  intros [Hn Un].
  assert (2 ^ 51 = 2251799813685248) as C51 by reflexivity.
  assert (2 ^ 52 = 4503599627370496) as C52 by reflexivity.
  assert (2 ^ 53 = 9007199254740992) as C53 by reflexivity.
  assert (2 ^ 55 = 36028797018963968) as C55 by reflexivity.
  unfold suspicious_volume_threshold, mul_int.
  destruct (@of_int_exact n ltac:(lia)) as (mz & -> & Mz & Dz). cbn [bind].
  set (d := Zdigits2 n) in *.
  assert (1 <= d <= 53) as [Hd Hd'].
  { split; [apply Zdigits2_pos; lia|].
    apply Zdigits2_le; lia. }
  set (D := 2 ^ (53 - d)) in *.
  assert (0 < D) as PD by (apply pow2_pos; lia).
  unfold lit_0_2, SFmul. cbn [xorb].
  set (P := Zpos (7205759403792794 * mz)).
  assert (P = 7205759403792794 * n * D) as EP by (subst P; lia).
  destruct (@Zdigits2_bounds (Zpos mz) ltac:(lia)) as [Lz Uz]. rewrite Dz in Lz, Uz.
  change (2 ^ (53 - 1)) with (2 ^ 52) in Lz.
  assert (0 < P) as PP by (subst P; lia).
  destruct (Zdigits2_bounds PP) as [LP UP]. set (dP := Zdigits2 P) in *.
  assert (105 <= dP) as HdP.
  { destruct (Z.le_gt_cases 105 dP) as [|G]; [assumption|].
    assert (2 ^ dP <= 2 ^ 104) by (apply Z.pow_le_mono_r; lia).
    assert (2 ^ 104 = 2 ^ 52 * 2 ^ 52) as E by reflexivity.
    assert (P = 7205759403792794 * Zpos mz) by (subst P; lia). nia. }
  assert (dP + d <= 159) as Hsum.
  { destruct (Z.le_gt_cases (dP + d) 159) as [|G]; [assumption|].
    assert (2 ^ 106 * D <= 2 ^ (dP - 1)).
    { unfold D. rewrite <- Z.pow_add_r by lia. apply Z.pow_le_mono_r; lia. }
    assert (7205759403792794 * n < 2 ^ 106)
      by (change (2 ^ 106) with 81129638414606681695789005144064; lia).
    nia. }
  set (ex := -55 + (d - 53)).
  assert (fexp prec emax (dP + ex) - ex = dP - 53) as N1
    by (rewrite fexp_eq; subst ex; lia).
  destruct (@binary_round_aux_exact P ex ltac:(lia)) as (m2 & B & Up & ->);
    [fold dP; rewrite N1; lia|].
  fold dP in B, Up |- *. rewrite N1 in *.
  set (n1 := dP - 53) in *. set (e1 := ex + n1) in *.
  assert (e1 <= -2) as He1 by (subst e1 ex n1; lia).
  set (N1p := 2 ^ n1) in *.
  assert (0 < N1p) as PN by (apply pow2_pos; subst n1; lia).
  set (T := 2 ^ (- e1)).
  assert (0 < T) as PT by (apply pow2_pos; lia).
  assert (T * N1p = 2 ^ 55 * D) as FT.
  { unfold T, N1p, D. rewrite <- !Z.pow_add_r by (subst e1 ex n1; lia).
    f_equal. subst e1 ex n1. lia. }
  assert (N1p <= 2 ^ 53 * D) as FN.
  { unfold N1p, D. rewrite <- Z.pow_add_r by lia.
    apply Z.pow_le_mono_r; subst n1; lia. }
  set (m1 := P / N1p) in *.
  pose proof (Z.div_mod P N1p ltac:(lia)) as DM. fold m1 in DM.
  pose proof (Z.mod_pos_bound P N1p PN) as MB.
  assert (0 <= m1) as Hm1 by (apply Z.div_pos; lia).
  assert (m1 < 2 ^ 53) as Um1.
  { apply Z.div_lt_upper_bound; [lia|].
    assert (2 ^ dP = N1p * 2 ^ 53); [|lia].
    unfold N1p. rewrite <- Z.pow_add_r by (subst n1; lia). f_equal. subst n1. lia. }
  (* the second shift is by one digit at most *)
  set (n2 := Z.max (fexp prec emax (Zdigits2 m2 + e1) - e1) 0).
  assert (0 <= n2 <= 1) as [Hn2 Hn2'].
  { subst n2. rewrite fexp_eq.
    assert (Zdigits2 m2 <= 54); [|lia].
    apply Zdigits2_le; [lia | lia |]. change (2 ^ 54) with (2 * 2 ^ 53). lia. }
  rewrite to_int_packed; [|apply Z.div_pos; [lia | apply pow2_pos; lia] | lia].
  cbn [bind]. f_equal. f_equal.
  rewrite Z.div_div by (try apply pow2_pos; lia).
  rewrite <- Z.pow_add_r by lia.
  replace (n2 + - (e1 + n2)) with (- e1) by lia. fold T.
  (* the quotient by 5 *)
  set (k := n / 5).
  pose proof (Z.div_mod n 5 ltac:(lia)) as Dn. fold k in Dn.
  pose proof (Z.mod_pos_bound n 5 ltac:(lia)) as Bn.
  assert (0 <= k) as Hk by (apply Z.div_pos; lia).
  assert (k * T <= m1) as Low.
  { apply Z.div_le_lower_bound; [lia|].
    replace (N1p * (k * T)) with (k * (T * N1p)) by ring.
    rewrite FT, EP.
    replace (k * (2 ^ 55 * D)) with ((k * 2 ^ 55) * D) by ring.
    apply Z.mul_le_mono_nonneg_r; lia. }
  assert (m2 < (k + 1) * T) as High.
  { destruct (Z.eq_dec m2 m1) as [->|NE].
    - destruct (Z.lt_ge_cases m1 ((k + 1) * T)) as [|G]; [assumption|].
      assert ((k + 1) * T * N1p <= m1 * N1p) by (apply Z.mul_le_mono_nonneg_r; lia).
      assert ((k + 1) * T * N1p = ((k + 1) * 2 ^ 55) * D) as Q
        by (replace ((k + 1) * T * N1p) with ((k + 1) * (T * N1p)) by ring;
            rewrite FT; ring).
      assert (7205759403792794 * n * D < ((k + 1) * 2 ^ 55) * D)
        by (apply Z.mul_lt_mono_pos_r; lia).
      lia.
    - assert (m2 = m1 + 1) as E2 by lia.
      destruct (Up E2) as [_ Bit].
      destruct (Z.lt_ge_cases m2 ((k + 1) * T)) as [|G]; [assumption|].
      assert ((k + 1) * T * N1p <= m2 * N1p) by (apply Z.mul_le_mono_nonneg_r; lia).
      assert ((k + 1) * T * N1p = ((k + 1) * 2 ^ 55) * D) as Q
        by (replace ((k + 1) * T * N1p) with ((k + 1) * (T * N1p)) by ring;
            rewrite FT; ring).
      assert ((2 * 7205759403792794 * n + 2 ^ 53) * D < (2 * (k + 1) * 2 ^ 55) * D)
        by (apply Z.mul_lt_mono_pos_r; lia).
      nia. }
  symmetry. apply Z.div_unique with (m2 - k * T); [left; lia | ring].
Qed.

End VolumeFacts.

(** * The counters as functions of the input *)

Section SequenceFacts.

Context {clock : Clock}.
Import RankFacts.

Lemma fold_absorb_counters (lines : list string) :
  forall st,
    ips (fold_left absorb lines st) = count_all (ip_sequence lines) (ips st)
    /\ endpoints (fold_left absorb lines st)
       = count_all (endpoint_sequence lines) (endpoints st)
    /\ total_lines (fold_left absorb lines st)
       = total_lines st + Z.of_nat (List.length lines).
Proof.
  unfold ip_sequence, endpoint_sequence, count_all.
  induction lines as [|line rest IH]; intros st.
  - cbn. repeat split; lia.
  - cbn [fold_left entries flat_map]. destruct (IH (absorb st line)) as (I1 & I2 & I3).
    rewrite I1, I2, I3. unfold absorb. rewrite map_app, map_app, !fold_left_app.
    destruct (parsed_entry line) as [e|]; cbn; repeat split; lia.
Qed.

Lemma aggregate_counters (lines : list string) :
  Counter.keys (ips (aggregate lines)) = first_seen (ip_sequence lines)
  /\ (forall k, Counter.get k (ips (aggregate lines)) = occurrences k (ip_sequence lines))
  /\ Counter.keys (endpoints (aggregate lines)) = first_seen (endpoint_sequence lines)
  /\ (forall k, Counter.get k (endpoints (aggregate lines))
                = occurrences k (endpoint_sequence lines))
  /\ total_lines (aggregate lines) = Z.of_nat (List.length lines).
Proof.
  unfold aggregate. destruct (fold_absorb_counters lines initial) as (I1 & I2 & I3).
  rewrite I1, I2, I3. rewrite !keys_count_all. repeat split.
  - intros k. now rewrite get_count_all.
  - intros k. now rewrite get_count_all.
Qed.

End SequenceFacts.

(** * The issues of a report *)

Section IssueFacts.

Context {clock : Clock}.
Import CounterFacts FloatFacts RankFacts VolumeFacts.

Lemma filter_activity_overall (st : AggState) (thr : float) :
  filter is_activity (overall_part st thr) = []
  /\ filter is_overall (overall_part st thr) = overall_part st thr.
Proof.
  unfold overall_part. destruct (parsed st =? 0); [split; reflexivity|].
  destruct (PyFloat.ge (rate_of st) thr); split; reflexivity.
Qed.

Lemma filter_activity_suspicious (st : AggState) (t : Z) :
  filter is_activity (suspicious_part st t) = suspicious_part st t
  /\ filter is_overall (suspicious_part st t) = [].
Proof.
  unfold suspicious_part. destruct (parsed st =? 0); [split; reflexivity|].
  destruct (suspects st t); split; reflexivity.
Qed.

Lemma issues_report_with (st : AggState) (top_n : Z) (thr : float) (t : Z) :
  filter is_activity (Report.issues (report_with st top_n thr t)) = suspicious_part st t
  /\ filter is_overall (Report.issues (report_with st top_n thr t)) = overall_part st thr.
Proof.
  cbn [report_with Report.issues]. rewrite !filter_app.
  destruct (filter_activity_overall st thr) as [-> ->].
  destruct (filter_activity_suspicious st t) as [-> ->].
  split; [reflexivity | apply app_nil_r].
Qed.

(** [analyze] returns a report whenever fewer than [2^1023] lines
    parse. *)
Lemma analyze_returns (lines : list string) (top_n : Z) (thr : float) :
  parsed (aggregate lines) < 2 ^ 1023 ->
  exists r, analyze lines top_n thr = Ret r.
Proof.
  intros H. rewrite analyze_spec. cbv zeta.
  pose proof (c_parsed (consistent_aggregate lines)) as P.
  destruct (Z.eqb_spec (parsed (aggregate lines)) 0) as [E|N]; [eauto|].
  assert (0 < parsed (aggregate lines) < 2 ^ 1023) as B by (split; [lia | assumption]).
  destruct (suspicious_volume_threshold_returns B) as (t & -> & _).
  cbn [bind]. eauto.
Qed.

Lemma StronglySorted_map (A B : Type) (R : B -> B -> Prop) (g : A -> B) (l : list A) :
  StronglySorted (fun a b => R (g a) (g b)) l -> StronglySorted R (map g l).
Proof.
  induction 1 as [|a l S IH F]; simpl; constructor; [assumption|].
  rewrite Forall_forall in *. intros y Hy.
  apply in_map_iff in Hy as (x & <- & Hx). now apply F.
Qed.

Lemma suspects_sorted (st : AggState) (t : Z) :
  StronglySorted (suspect_before (ips st)) (suspects st t).
Proof.
  unfold suspects. apply StronglySorted_map. apply StronglySorted_filter.
  pose proof (sorted_desc_ranked (ips st)) as S.
  unfold Counter.most_common_all.
  induction S as [|a l S IH F]; constructor; [assumption|].
  rewrite Forall_forall in *. intros [k v] Hy. specialize (F _ Hy).
  destruct a as [k0 v0]. exact F.
Qed.

Lemma is_suspicious_iff (t req : Z) (rate : float) (hits : Z) :
  is_suspicious t req rate hits = true
  <-> (t <= req \/ (20 <= req /\ PyFloat.ge rate PyFloat.lit_0_3 = true) \/ 5 <= hits).
Proof.
  unfold is_suspicious.
  rewrite !orb_true_iff, andb_true_iff, !Z.leb_le. tauto.
Qed.

Lemma suspects_member (st : AggState) (t : Z) (ip : string) :
  consistent st ->
  In ip (map SuspiciousIp.ip (suspects st t))
  <-> In ip (Counter.keys (ips st))
      /\ flagged st t (ip, Counter.get ip (ips st)) = true.
Proof.
  intros C. pose proof (c_wf_ips C) as [ND _].
  unfold suspects, Counter.most_common_all. rewrite map_map. cbn [suspect_of SuspiciousIp.ip].
  rewrite in_map_iff. split.
  - intros ([k v] & <- & H). apply filter_In in H as [H F].
    apply (Permutation_in _ (sorted_desc_perm (ips st))) in H.
    cbn [fst]. rewrite (@get_in _ _ _ ND H). split; [|assumption].
    apply (in_map fst) in H. exact H.
  - intros [K F]. exists (ip, Counter.get ip (ips st)). split; [reflexivity|].
    apply filter_In. split; [|assumption].
    apply (Permutation_in _ (Permutation_sym (sorted_desc_perm (ips st)))).
    now apply in_get.
Qed.

Lemma suspects_records (st : AggState) (t : Z) (s : SuspiciousIp.t) :
  consistent st -> In s (suspects st t) ->
  In (SuspiciousIp.ip s) (Counter.keys (ips st))
  /\ SuspiciousIp.requests s = Counter.get (SuspiciousIp.ip s) (ips st)
  /\ SuspiciousIp.suspicious_path_hits s
     = Counter.get (SuspiciousIp.ip s) (ip_suspicious_hits st)
  /\ SuspiciousIp.error_rate s
     = round4 (ip_rate_of st (SuspiciousIp.ip s) (SuspiciousIp.requests s))
  /\ In (SuspiciousIp.ip s, SuspiciousIp.requests s) (ips st).
Proof.
  intros C H. pose proof (c_wf_ips C) as [ND _].
  unfold suspects, Counter.most_common_all in H.
  apply in_map_iff in H as ([k v] & <- & H). apply filter_In in H as [H _].
  apply (Permutation_in _ (sorted_desc_perm (ips st))) in H.
  cbn. rewrite (@get_in _ _ _ ND H). repeat split; try reflexivity; [|assumption].
  apply (in_map fst) in H. exact H.
Qed.

End IssueFacts.

(** * The numerator and the denominator of the error rate *)

Lemma error_requests_incr (k : string) (c : Counter.t) :
  error_requests (Counter.incr k c)
  = error_requests c + (if starts_4_or_5 k then 1 else 0).
Proof.
  unfold error_requests.
  change (fun kv : string * Z => Str.startswith "4" (fst kv) || Str.startswith "5" (fst kv))
    with (fun kv : string * Z => starts_4_or_5 (fst kv)).
  induction c as [|[k' v] c IH]; cbn [Counter.incr filter fst].
  - destruct (starts_4_or_5 k); cbn [map fold_right snd]; lia.
  - destruct (String.eqb_spec k' k) as [->|N]; cbn [filter fst].
    + destruct (starts_4_or_5 k); cbn [map fold_right snd]; lia.
    + destruct (starts_4_or_5 k'); cbn [map fold_right snd]; rewrite IH; lia.
Qed.

(** On a counter with distinct keys, line 147 computes the sum that the
    specification words. *)
Lemma error_requests_spec (c : Counter.t) :
  CounterSpec.wf c -> error_requests c = spec_error_count c.
Proof.
  intros [N _]. unfold error_requests, spec_error_count.
  change (fun kv : string * Z => Str.startswith "4" (fst kv) || Str.startswith "5" (fst kv))
    with (fun kv : string * Z => starts_4_or_5 (fst kv)).
  induction c as [|[k v] c IH]; [reflexivity|].
  unfold Counter.keys in *. cbn [map fst] in N |- *.
  inversion N as [|? ? Nk Nc]; subst.
  cbn [filter fst fold_right].
  assert (Counter.get k ((k, v) :: c) = v) as G
    by (cbn [Counter.get]; now rewrite String.eqb_refl).
  assert (map (fun k0 => if starts_4_or_5 k0 then Counter.get k0 ((k, v) :: c) else 0)
              (map fst c)
          = map (fun k0 => if starts_4_or_5 k0 then Counter.get k0 c else 0) (map fst c)) as E.
  { apply map_ext_in. intros k' Hk'. cbn [Counter.get].
    destruct (String.eqb_spec k k') as [->|D]; [contradiction | reflexivity]. }
  rewrite G, E, <- (IH Nc).
  destruct (starts_4_or_5 k); cbn [map fold_right snd]; lia.
Qed.

Section RateFacts.

Context {clock : Clock}.

Lemma parsed_fold (lines : list string) :
  forall st, parsed (fold_left absorb lines st)
             = parsed st + Z.of_nat (List.length (entries lines)).
Proof.
  induction lines as [|line rest IH]; intros st; cbn [fold_left].
  - simpl. lia.
  - rewrite IH. unfold entries. cbn [flat_map]. fold (entries rest). rewrite length_app.
    unfold absorb. destruct (parsed_entry line); cbn [List.length].
    + unfold count_entry. cbn [parsed]. lia.
    + unfold count_failure. cbn [parsed]. lia.
Qed.

Lemma error_requests_fold (lines : list string) :
  forall st,
    error_requests (status_codes (fold_left absorb lines st))
    = error_requests (status_codes st)
      + Z.of_nat (List.length
                    (filter (fun e => starts_4_or_5 (PyInt.to_string (LogEntry.status e)))
                            (entries lines))).
Proof.
  induction lines as [|line rest IH]; intros st; cbn [fold_left].
  - simpl. lia.
  - rewrite IH. unfold entries. cbn [flat_map]. fold (entries rest).
    rewrite filter_app, length_app.
    unfold absorb. destruct (parsed_entry line) as [e|]; cbn [filter].
    + unfold count_entry. cbn [status_codes]. rewrite error_requests_incr.
      destruct (starts_4_or_5 (PyInt.to_string (LogEntry.status e))); cbn [List.length]; lia.
    + unfold count_failure. cbn [status_codes List.length]. lia.
Qed.

Lemma fold_absorb_counts (lines : list string) :
  forall st,
    let st' := fold_left absorb lines st in
    parsed st' = parsed st + Z.of_nat (List.length (filter parses lines))
    /\ parse_failures st'
       = parse_failures st + Z.of_nat (List.length (filter (fun l => negb (parses l)) lines))
    /\ status_codes st' = RankSpec.count_all (status_sequence lines) (status_codes st).
Proof.
  unfold status_sequence.
  induction lines as [|line rest IH]; intros st; cbn [fold_left].
  - cbv zeta. simpl. repeat split; lia.
  - cbv zeta in *. destruct (IH (absorb st line)) as (P & F & S). rewrite P, F, S.
    unfold entries. cbn [flat_map filter]. fold (entries rest).
    unfold absorb, parses. destruct (parsed_entry line) as [e|]; cbn [negb].
    + unfold count_entry. cbn [parsed parse_failures status_codes List.app map List.length].
      repeat split; try lia; reflexivity.
    + unfold count_failure. cbn [parsed parse_failures status_codes List.app List.length].
      repeat split; lia.
Qed.

End RateFacts.

(** * The example of 1000 requests *)

(** On the 1000 requests of [thousand_lines] the threshold is 200 and the
    IP with 200 requests is the only one flagged. *)
Lemma thousand_lines_report (clock : Clock) (top_n : Z) (thr : float) :
  exists r,
    analyze thousand_lines top_n thr = Ret r
    /\ Summary.parsed_requests (Report.summary r) = 1000
    /\ filter is_activity (Report.issues r)
       = [suspicious_ip_activity [SuspiciousIp.mk "10.0.0.1" 200 PyFloat.zero 0] 200].
Proof.
  assert (parsed (aggregate thousand_lines) = 1000) as P by (vm_compute; reflexivity).
  assert (suspects (aggregate thousand_lines) 200
          = [SuspiciousIp.mk "10.0.0.1" 200 PyFloat.zero 0]) as S
      by (vm_compute; reflexivity).
  assert (suspicious_volume_threshold 1000 = Ret 200) as T by (vm_compute; reflexivity).
  rewrite analyze_spec. cbv zeta.
  generalize dependent (aggregate thousand_lines). intros st P S.
  rewrite P. cbn [Z.eqb]. rewrite T. cbn [bind].
  eexists; split; [reflexivity|].
  split; [exact P|].
  destruct (issues_report_with st top_n thr 200) as [-> _].
  unfold suspicious_part. rewrite P, S. reflexivity.
Qed.

(** * The properties of the specification *)

(** C2. After the loop over any sequence of lines (the loop always
    returns), the count of lines is the number of lines read and is the
    sum of the parsed count and of the count of parse failures, and the
    parsed count is the sum of the request counts per IP, the sum of the
    counts per status code and the sum of the counts per endpoint. *)
Theorem aggregation_totals (clock : Clock) (lines : list string) :
  exists st,
    loop initial lines = Ret st
    /\ total_lines st = Z.of_nat (List.length lines)
    /\ total_lines st = parsed st + parse_failures st
    /\ parsed st = Counter.total (ips st)
    /\ parsed st = Counter.total (status_codes st)
    /\ parsed st = Counter.total (endpoints st).
Proof.
  exists (aggregate lines). split; [apply loop_returns|].
  destruct (aggregate_counters lines) as (_ & _ & _ & _ & T).
  pose proof (consistent_aggregate lines) as C.
  rewrite (c_ips C), (c_status C), (c_endpoints C).
  repeat split; [exact T | exact (c_lines C)].
Qed.

(** C6. [parse_log_line] never raises: on every line it returns one
    entry or [None], an entry exactly on the lines a prefix of which
    (after [strip]) matches [LOG_PATTERN].  When the size group of the
    match is neither [-] nor an integer for [int], the line still yields its
    entry, with no size. *)
Theorem parse_log_line_total_and_size_lenient (line : string) :
  ((well_formed line /\ exists e, parse_log_line line = Ret (Some e))
   \/ (~ well_formed line /\ parse_log_line line = Ret None))
  /\ (forall g size_text,
        match_ LOG_PATTERN (Str.strip line) = Some g ->
        group "size" g = Some size_text ->
        size_text <> "-" ->
        PyInt.of_string size_text = None ->
        exists e, parse_log_line line = Ret (Some e) /\ LogEntry.size e = None).
Proof.
  split; [apply parse_log_line_returns|].
  intros g size_text M G N I.
  destruct (parse_log_line_of_match _ M) as (e & sz & P & G' & S & _).
  exists e. split; [assumption|].
  rewrite G in G'. inversion G'; subst sz.
  rewrite S. unfold _parse_size, py_int. rewrite I.
  now destruct (String.eqb size_text "-").
Qed.

Lemma parse_log_line_total_and_size_lenient_witness :
  exists e, parse_log_line line_with_bad_size = Ret (Some e) /\ LogEntry.size e = None.
Proof.
  eapply (proj2 (parse_log_line_total_and_size_lenient line_with_bad_size))
    with (size_text := "12abc").
  - vm_compute. reflexivity.
  - vm_compute. reflexivity.
  - discriminate.
  - vm_compute. reflexivity.
Defined.

(** C7. A parsed entry always updates the counters: the line count, the
    parsed count and the counters of endpoints, status codes, IPs, IP
    errors and suspicious hits do not depend on the time stamp.  When the
    time stamp does not normalize, the two bounds are unchanged.  When it
    does, a bound is replaced only if it is absent or if the strict
    comparison with it holds, so a tie keeps the bound seen first. *)
Theorem timestamp_failure_only_affects_bounds
        (clock : Clock) (st : AggState) (line : string) (e : LogEntry.t) :
  parse_log_line line = Ret (Some e) ->
  let st' := count_entry st e in
  let endpoint := _strip_query (LogEntry.path e) in
  step st line = Ret st'
  /\ total_lines st' = total_lines st + 1
  /\ parsed st' = parsed st + 1
  /\ parse_failures st' = parse_failures st
  /\ endpoints st' = Counter.incr endpoint (endpoints st)
  /\ status_codes st' = Counter.incr (PyInt.to_string (LogEntry.status e)) (status_codes st)
  /\ ips st' = Counter.incr (LogEntry.ip e) (ips st)
  /\ ip_errors st' = (if (400 <=? LogEntry.status e) && (LogEntry.status e <=? 599)
                      then Counter.incr (LogEntry.ip e) (ip_errors st)
                      else ip_errors st)
  /\ ip_suspicious_hits st' = (if hits_suspicious_path endpoint
                               then Counter.incr (LogEntry.ip e) (ip_suspicious_hits st)
                               else ip_suspicious_hits st)
  /\ (_try_parse_apache_time (LogEntry.timestamp_raw e) = None ->
      time_first st' = time_first st /\ time_last st' = time_last st)
  /\ (forall ts, _try_parse_apache_time (LogEntry.timestamp_raw e) = Some ts ->
      (time_first st = None -> time_first st' = Some ts)
      /\ (time_last st = None -> time_last st' = Some ts)
      /\ (forall b, time_first st = Some b ->
                    time_first st' = if dt_lt ts b then Some ts else Some b)
      /\ (forall b, time_last st = Some b ->
                    time_last st' = if dt_gt ts b then Some ts else Some b)
      /\ (forall b, time_first st = Some b -> dt_lt ts b = false ->
                    time_first st' = Some b)
      /\ (forall b, time_last st = Some b -> dt_gt ts b = false ->
                    time_last st' = Some b)).
Proof.
  intros P st' endpoint.
  split. { unfold step. rewrite P. reflexivity. }
  do 8 (split; [reflexivity|]).
  subst st'. unfold count_entry. cbn [time_first time_last].
  split.
  - intros ->. split; reflexivity.
  - intros ts ->. unfold bound_first, bound_last.
    repeat split.
    + now intros ->.
    + now intros ->.
    + intros b ->. now destruct (dt_lt ts b).
    + intros b ->. now destruct (dt_gt ts b).
    + intros b -> ->. reflexivity.
    + intros b -> ->. reflexivity.
Qed.

Lemma timestamp_failure_only_affects_bounds_witness :
  exists e st',
    parse_log_line line_with_bad_time = Ret (Some e)
    /\ step (clock := ExampleClock.clock) initial line_with_bad_time = Ret st'
    /\ parsed st' = 1
    /\ ip_suspicious_hits st' = [("10.0.0.5", 1)]
    /\ time_first st' = None /\ time_last st' = None.
Proof.
  assert (parse_log_line line_with_bad_time
          = Ret (Some (LogEntry.mk "10.0.0.5" "yesterday" "GET" "/admin" 403 (Some 512)))) as P
      by (vm_compute; reflexivity).
  destruct (@timestamp_failure_only_affects_bounds ExampleClock.clock initial _ _ P)
    as (S & _ & Hp & _ & _ & _ & _ & _ & Hh & T & _).
  eexists. eexists. split; [exact P|]. split; [exact S|].
  split; [exact Hp|]. split; [exact Hh|].
  apply T. vm_compute. reflexivity.
Defined.

(** C10. The pattern is anchored at the start only: when a prefix of a
    line matches [LOG_PATTERN], the line followed by any text still parses
    into an entry. *)
Theorem parse_log_line_ignores_trailing_text (line extra : string) :
  well_formed line ->
  exists e, parse_log_line (line ++ extra) = Ret (Some e).
Proof.
  intros (w & rest & g & E & D).
  destruct (strip_append line extra) as (u & U).
  assert (well_formed (line ++ extra)) as W.
  { exists w, (rest ++ u)%string, g. split; [|assumption].
    rewrite U, E. apply append_assoc. }
  destruct (parse_log_line_returns (line ++ extra)) as [[_ H]|[H _]];
    [assumption | contradiction].
Qed.

Lemma parse_log_line_ignores_trailing_text_witness :
  exists e,
    parse_log_line (nth 0 DEMO_LINES EmptyString ++ " - trailing text") = Ret (Some e).
Proof.
  apply parse_log_line_ignores_trailing_text.
  apply well_formed_iff_match. vm_compute. discriminate.
Defined.

(** C1. When some line parsed: [analyze] returns (for fewer than
    [2^1023] parsed lines) and, in every report it returns, the list
    [suspicious_ips] holds exactly the observed IPs with a request count
    of at least the volume threshold, or with at least 20 requests and an
    error rate of at least [0.3], or with at least 5 suspicious hits; it is
    ordered by request count, greater first, ties in the order of first
    occurrence in the input; and the report has one
    [suspicious_ip_activity] issue, with the first 20 of the list and the
    threshold, exactly when the list is not empty. *)
Theorem suspicious_ip_detection
        (clock : Clock) (lines : list string) (top_n : Z) (thr : float) :
  let st := aggregate lines in
  0 < parsed st ->
  (parsed st < 2 ^ 1023 -> exists r, analyze lines top_n thr = Ret r)
  /\ forall r, analyze lines top_n thr = Ret r ->
     exists t L,
       suspicious_volume_threshold (parsed st) = Ret t
       /\ collect_suspicious st t (Counter.most_common_all (ips st)) = Ret L
       /\ (forall ip,
             In ip (map SuspiciousIp.ip L)
             <-> In ip (Counter.keys (ips st))
                 /\ exists rate,
                      ip_error_rate (Counter.get ip (ip_errors st))
                                    (Counter.get ip (ips st)) = Ret rate
                      /\ (t <= Counter.get ip (ips st)
                          \/ (20 <= Counter.get ip (ips st)
                              /\ PyFloat.ge rate PyFloat.lit_0_3 = true)
                          \/ 5 <= Counter.get ip (ip_suspicious_hits st)))
       /\ (forall s, In s L ->
             SuspiciousIp.requests s = Counter.get (SuspiciousIp.ip s) (ips st)
             /\ SuspiciousIp.suspicious_path_hits s
                = Counter.get (SuspiciousIp.ip s) (ip_suspicious_hits st)
             /\ exists rate,
                  ip_error_rate (Counter.get (SuspiciousIp.ip s) (ip_errors st))
                                (SuspiciousIp.requests s) = Ret rate
                  /\ PyFloat.round rate 4 = Ret (SuspiciousIp.error_rate s))
       /\ StronglySorted (suspect_before (ips st)) L
       /\ Counter.keys (ips st) = RankSpec.first_seen (ip_sequence lines)
       /\ filter is_activity (Report.issues r)
          = match L with
            | [] => []
            | _ :: _ => [suspicious_ip_activity (firstn 20 L) t]
            end.
Proof.
  intros st Hp. split; [apply analyze_returns|].
  intros r H. pose proof (consistent_aggregate lines) as C. fold st in C.
  destruct (analyze_inv _ _ _ H) as [[Z _]|(_ & t & T & ->)]; [fold st in Z; lia|].
  fold st in T |- *.
  exists t, (suspects st t). split; [assumption|].
  split.
  { unfold suspects. apply collect_suspicious_spec; [assumption|].
    intros x Hx. now apply (Permutation_in _ (RankFacts.sorted_desc_perm (ips st))). }
  split.
  { intros ip. rewrite (suspects_member t ip C). split.
    - intros [K F]. split; [assumption|].
      apply CounterFacts.in_get in K.
      destruct (@ip_rate_unit _ _ _ _ C K) as [E _].
      destruct (@item_bounds _ _ _ _ C K) as (B & _).
      exists (ip_rate_of st ip (Counter.get ip (ips st))). split.
      + unfold ip_error_rate.
        replace (Counter.get ip (ips st) =? 0) with false
          by (symmetry; apply Z.eqb_neq; lia). exact E.
      + apply is_suspicious_iff. exact F.
    - intros [K (rate & E & F)]. split; [assumption|].
      pose proof (CounterFacts.in_get _ _ K) as K'.
      destruct (@ip_rate_unit _ _ _ _ C K') as [E' _].
      destruct (@item_bounds _ _ _ _ C K') as (B & _).
      unfold ip_error_rate in E.
      replace (Counter.get ip (ips st) =? 0) with false in E
        by (symmetry; apply Z.eqb_neq; lia).
      rewrite E' in E. inversion E; subst rate.
      unfold flagged. cbn [fst snd]. apply is_suspicious_iff. exact F. }
  split.
  { intros s Hs. destruct (suspects_records _ _ C Hs) as (K & R & Hh & Er & I).
    split; [assumption|]. split; [assumption|].
    destruct (@ip_rate_unit _ _ _ _ C I) as [E U].
    destruct (@item_bounds _ _ _ _ C I) as (B & _).
    exists (ip_rate_of st (SuspiciousIp.ip s) (SuspiciousIp.requests s)). split.
    - unfold ip_error_rate.
      replace (SuspiciousIp.requests s =? 0) with false
        by (symmetry; apply Z.eqb_neq; lia). exact E.
    - rewrite Er. apply FloatFacts.round_round4. exact U. }
  split; [apply suspects_sorted|].
  split; [apply aggregate_counters|].
  destruct (issues_report_with st top_n thr t) as [-> _].
  unfold suspicious_part.
  replace (parsed st =? 0) with false by (symmetry; apply Z.eqb_neq; lia).
  reflexivity.
Qed.

(** The examples run with the clock of the examples. *)
#[local] Existing Instance ExampleClock.clock.

Lemma suspicious_ip_detection_witness :
  exists r t L,
    analyze (clock := ExampleClock.clock) probe_lines 10 threshold_0_1 = Ret r
    /\ suspicious_volume_threshold (parsed (aggregate probe_lines)) = Ret t
    /\ collect_suspicious (aggregate probe_lines) t
         (Counter.most_common_all (ips (aggregate probe_lines))) = Ret L
    /\ filter is_activity (Report.issues r)
       = match L with
         | [] => []
         | _ :: _ => [suspicious_ip_activity (firstn 20 L) t]
         end.
Proof.
  pose proof (@suspicious_ip_detection ExampleClock.clock probe_lines 10 threshold_0_1) as H.
  cbv zeta in H.
  destruct (H ltac:(vm_compute; reflexivity)) as [Returns All].
  destruct (Returns ltac:(vm_compute; reflexivity)) as [r Hr].
  destruct (All r Hr) as (t & L & T & Cs & _ & _ & _ & _ & I).
  exists r, t, L. auto.
Defined.

(** C3. With no parsed line the report has the single issue [no_data].
    With a parsed line, the overall error rate is the quotient of the
    summed counts of the status codes whose text starts with 4 or 5 by the
    parsed count: the numerator is the sum over the codes that the
    specification words, which is what line 147 computes and is the
    number of parsed entries whose status text starts with 4 or 5; the
    denominator is the number of parsed entries.  The rate lies between 0
    and 1; the summary carries it rounded to 4 places, and in every report
    returned the issues other than [suspicious_ip_activity] are one
    [high_error_rate] with the rounded rate and the threshold when the
    rate is at least the threshold, and none otherwise. *)
Theorem overall_error_rate_verdict
        (clock : Clock) (lines : list string) (top_n : Z) (thr : float) :
  let st := aggregate lines in
  let errors :=
    Z.of_nat (List.length
                (filter (fun e => starts_4_or_5 (PyInt.to_string (LogEntry.status e)))
                        (entries lines))) in
  (parsed st = 0 ->
   exists r, analyze lines top_n thr = Ret r /\ Report.issues r = [no_data])
  /\ parsed st = Z.of_nat (List.length (entries lines))
  /\ (forall k, Counter.get k (status_codes st)
                = RankSpec.occurrences k (status_sequence lines))
  /\ spec_error_count (status_codes st) = errors
  /\ error_requests (status_codes st) = spec_error_count (status_codes st)
  /\ 0 <= errors <= parsed st
  /\ (0 < parsed st ->
      exists rate rounded,
        overall_error_rate st = Ret rate
        /\ PyFloat.truediv (error_requests (status_codes st)) (parsed st) = Ret rate
        /\ PyFloat.truediv (spec_error_count (status_codes st)) (parsed st) = Ret rate
        /\ PyFloat.truediv errors (Z.of_nat (List.length (entries lines))) = Ret rate
        /\ PyFloat.le PyFloat.zero rate = true
        /\ PyFloat.le rate PyFloat.one = true
        /\ PyFloat.round rate 4 = Ret rounded
        /\ (parsed st < 2 ^ 1023 -> exists r, analyze lines top_n thr = Ret r)
        /\ forall r, analyze lines top_n thr = Ret r ->
           Summary.error_rate_4xx_5xx (Report.summary r) = rounded
           /\ filter is_overall (Report.issues r)
              = if PyFloat.ge rate thr then [high_error_rate rounded thr] else []).
Proof.
  intros st errors. pose proof (consistent_aggregate lines) as C. fold st in C.
  pose proof (parsed_fold lines initial) as PL. fold (aggregate lines) in PL. fold st in PL.
  change (parsed initial) with 0 in PL.
  pose proof (error_requests_fold lines initial) as EF.
  fold (aggregate lines) in EF. fold st in EF. fold errors in EF.
  change (error_requests (status_codes initial)) with 0 in EF.
  pose proof (error_requests_spec (c_wf_status C)) as ES.
  pose proof (error_requests_bounds C) as EB.
  destruct (fold_absorb_counts lines initial) as (_ & _ & S).
  fold (aggregate lines) in S. fold st in S.
  split.
  { intros Z. rewrite analyze_spec. cbv zeta. fold st. rewrite Z. cbn [Z.eqb].
    eexists; split; [reflexivity|].
    cbn [report_with Report.issues]. unfold overall_part, suspicious_part.
    rewrite Z. reflexivity. }
  split; [lia|].
  split. { intros k. rewrite S. apply (RankFacts.get_count_all k (status_sequence lines) []). }
  split; [lia|]. split; [exact ES|]. split; [lia|].
  intros P.
  exists (rate_of st), (FloatSpec.round4 (rate_of st)).
  pose proof (rate_of_unit C) as U.
  assert (PyFloat.truediv (error_requests (status_codes st)) (parsed st)
          = Ret (rate_of st)) as T.
  { pose proof (overall_error_rate_spec C) as E. unfold overall_error_rate in E.
    replace (parsed st =? 0) with false in E by (symmetry; apply Z.eqb_neq; lia).
    exact E. }
  split; [now apply overall_error_rate_spec|].
  split; [exact T|].
  split; [rewrite <- ES; exact T|].
  split. { replace errors with (error_requests (status_codes st)) by lia.
           replace (Z.of_nat (List.length (entries lines))) with (parsed st) by lia.
           exact T. }
  split; [apply (FloatFacts.unit_range_le U)|].
  split; [apply (FloatFacts.unit_range_le U)|].
  split; [apply (FloatFacts.round_round4 U)|].
  split; [apply analyze_returns|].
  intros r H.
  destruct (analyze_inv _ _ _ H) as [[Z _]|(_ & t & T' & ->)]; [fold st in Z; lia|].
  fold st. split; [reflexivity|].
  destruct (issues_report_with st top_n thr t) as [_ ->].
  unfold overall_part.
  replace (parsed st =? 0) with false by (symmetry; apply Z.eqb_neq; lia).
  reflexivity.
Qed.

Lemma overall_error_rate_verdict_witness :
  exists r rate rounded,
    analyze (clock := ExampleClock.clock) DEMO_LINES 10 threshold_0_1 = Ret r
    /\ PyFloat.truediv 4 7 = Ret rate
    /\ overall_error_rate (aggregate DEMO_LINES) = Ret rate
    /\ PyFloat.round rate 4 = Ret rounded
    /\ Summary.error_rate_4xx_5xx (Report.summary r) = rounded
    /\ filter is_overall (Report.issues r) = [high_error_rate rounded threshold_0_1].
Proof.
  pose proof (@overall_error_rate_verdict ExampleClock.clock DEMO_LINES 10 threshold_0_1) as H.
  cbv zeta in H. destruct H as (_ & _ & _ & _ & _ & _ & H).
  destruct (H ltac:(vm_compute; reflexivity))
    as (rate & rounded & E & _ & _ & D & _ & _ & R & Returns & All).
  destruct (Returns ltac:(vm_compute; reflexivity)) as [r Hr].
  destruct (All r Hr) as [Sm I].
  exists r, rate, rounded.
  split; [exact Hr|]. split; [exact D|]. split; [exact E|]. split; [exact R|].
  split; [exact Sm|].
  rewrite I. vm_compute in D. inversion D; subst rate. reflexivity.
Defined.

(** C9. After the loop, every observed IP has a request count of at
    least one and no more errors and no more suspicious hits than
    requests; hence every suspicious IP that the loop of detection
    collects, and every one that a report carries, has at least one
    request and an error rate between 0 and 1. *)
Theorem per_ip_counts_bounded (clock : Clock) (lines : list string) :
  let st := aggregate lines in
  (forall ip, In ip (Counter.keys (ips st)) ->
     1 <= Counter.get ip (ips st)
     /\ 0 <= Counter.get ip (ip_errors st) <= Counter.get ip (ips st)
     /\ 0 <= Counter.get ip (ip_suspicious_hits st) <= Counter.get ip (ips st))
  /\ (forall t L s,
        collect_suspicious st t (Counter.most_common_all (ips st)) = Ret L ->
        In s L ->
        1 <= SuspiciousIp.requests s
        /\ PyFloat.le PyFloat.zero (SuspiciousIp.error_rate s) = true
        /\ PyFloat.le (SuspiciousIp.error_rate s) PyFloat.one = true)
  /\ (forall top_n thr r l v s,
        analyze lines top_n thr = Ret r ->
        In (suspicious_ip_activity l v) (Report.issues r) -> In s l ->
        1 <= SuspiciousIp.requests s
        /\ PyFloat.le PyFloat.zero (SuspiciousIp.error_rate s) = true
        /\ PyFloat.le (SuspiciousIp.error_rate s) PyFloat.one = true).
Proof.
  intros st. pose proof (consistent_aggregate lines) as C. fold st in C.
  assert (forall t s, In s (suspects st t) ->
            1 <= SuspiciousIp.requests s
            /\ PyFloat.le PyFloat.zero (SuspiciousIp.error_rate s) = true
            /\ PyFloat.le (SuspiciousIp.error_rate s) PyFloat.one = true) as Key.
  { intros t s Hs. destruct (suspects_records _ _ C Hs) as (_ & _ & _ & Er & I).
    destruct (@item_bounds _ _ _ _ C I) as (B & _).
    destruct (@ip_rate_unit _ _ _ _ C I) as [_ U].
    split; [assumption|]. rewrite Er.
    apply FloatFacts.unit_range_le, FloatFacts.round_round4, U. }
  split; [|split].
  - intros ip K. apply CounterFacts.in_get in K. now apply item_bounds.
  - intros t L s HL Hs. apply (Key t).
    rewrite collect_suspicious_spec in HL; [|assumption|].
    + inversion HL; subst L. exact Hs.
    + intros x Hx. now apply (Permutation_in _ (RankFacts.sorted_desc_perm (ips st))).
  - intros top_n thr r l v s H Hi Hs.
    destruct (analyze_inv _ _ _ H) as [[Z ->]|(_ & t & T & ->)]; fold st in Hi; try fold st in Z.
    + cbn [report_with Report.issues] in Hi. unfold overall_part, suspicious_part in Hi.
      rewrite Z in Hi. cbn in Hi. destruct Hi as [Hi|[]]. discriminate.
    + assert (In (suspicious_ip_activity l v)
                 (filter is_activity (Report.issues (report_with st top_n thr t)))) as F
        by (apply filter_In; split; [assumption | reflexivity]).
      destruct (issues_report_with st top_n thr t) as [E _]. rewrite E in F.
      unfold suspicious_part in F. destruct (parsed st =? 0); [contradiction|].
      destruct (suspects st t) as [|a L'] eqn:Q; [contradiction|].
      destruct F as [F|[]].
      assert (l = firstn 20 (a :: L')) as El by congruence.
      rewrite El in Hs. apply (Key t). rewrite Q.
      exact (@RankFacts.In_firstn _ 20%nat _ _ Hs).
Qed.

Lemma per_ip_counts_bounded_witness :
  1 <= Counter.get "10.0.0.5" (ips (aggregate (clock := ExampleClock.clock) DEMO_LINES))
  /\ 0 <= Counter.get "10.0.0.5" (ip_errors (aggregate (clock := ExampleClock.clock) DEMO_LINES))
     <= Counter.get "10.0.0.5" (ips (aggregate (clock := ExampleClock.clock) DEMO_LINES))
  /\ 0 <= Counter.get "10.0.0.5"
            (ip_suspicious_hits (aggregate (clock := ExampleClock.clock) DEMO_LINES))
     <= Counter.get "10.0.0.5" (ips (aggregate (clock := ExampleClock.clock) DEMO_LINES)).
Proof.
  apply (proj1 (@per_ip_counts_bounded ExampleClock.clock DEMO_LINES)).
  vm_compute. tauto.
Defined.

(** C4, as the code has it.  The threshold is computed in floats:
    [max(100, int(0.2 * n))] is [max(100, n // 5)] for every parsed count
    [n] below [3 * 2^51]; with 1000 parsed requests it is 200, a count of
    200 is flagged whatever the other two signals, and a count of 199 is
    flagged by the other two signals only; on an input of 1000 requests
    with one IP at 200 and four at 199, the report flags the first
    alone, with the threshold 200. *)
Theorem volume_threshold_below_bound :
  (forall n, 0 < n < 3 * 2 ^ 51 ->
     suspicious_volume_threshold n = Ret (Z.max 100 (n / 5)))
  /\ suspicious_volume_threshold 1000 = Ret 200
  /\ (forall rate hits, is_suspicious 200 200 rate hits = true)
  /\ (forall rate hits,
        is_suspicious 200 199 rate hits = true
        <-> PyFloat.ge rate PyFloat.lit_0_3 = true \/ 5 <= hits)
  /\ (forall (clock : Clock) (top_n : Z) (thr : float),
        exists r,
          analyze (clock := clock) thousand_lines top_n thr = Ret r
          /\ Summary.parsed_requests (Report.summary r) = 1000
          /\ filter is_activity (Report.issues r)
             = [suspicious_ip_activity [SuspiciousIp.mk "10.0.0.1" 200 PyFloat.zero 0] 200]).
Proof.
  split; [apply VolumeFacts.suspicious_volume_threshold_exact|].
  split; [vm_compute; reflexivity|].
  split; [reflexivity|].
  split; [|intros clock top_n thr; apply thousand_lines_report].
  intros rate hits. rewrite is_suspicious_iff. split.
  - intros [H|[[_ H]|H]]; [lia | now left | now right].
  - intros [H|H]; [right; left; split; [lia | assumption] | now right; right].
Qed.

Lemma volume_threshold_below_bound_witness :
  suspicious_volume_threshold 1000 = Ret (Z.max 100 (1000 / 5)).
Proof.
  apply (proj1 volume_threshold_below_bound). vm_compute. split; reflexivity.
Defined.

(** C4, as the spec states it, fails: at [3 * 2^51] parsed requests the
    product [0.2 * n] rounds up to the next integer, and the threshold is
    one more than the floor of a fifth of the count. *)
Lemma volume_threshold_counterexample :
  suspicious_volume_threshold (3 * 2 ^ 51) = Ret 1351079888211149
  /\ Z.max 100 ((3 * 2 ^ 51) / 5) = 1351079888211148
  /\ ~ (forall n, 0 < n ->
          suspicious_volume_threshold n = Ret (Z.max 100 (n / 5))).
Proof.
  split; [vm_compute; reflexivity|]. split; [vm_compute; reflexivity|].
  intros H. specialize (H (3 * 2 ^ 51) ltac:(vm_compute; reflexivity)).
  vm_compute in H. discriminate H.
Qed.

(** C5. [analyze] returns (for fewer than [2^1023] parsed lines) and,
    in every report, [top_endpoints] is the first [top_n] items of the
    endpoint counts ranked by count, greater first, ties in the order of
    insertion, which is the order of first occurrence in the input; for
    the endpoints [/a] (3 hits, seen first), [/b] (3 hits) and [/c] (5 hits)
    and [top_n = 2] it is [/c: 5, /a: 3]. *)
Theorem top_endpoints_ranking
        (clock : Clock) (lines : list string) (top_n : Z) (thr : float) :
  let counts := endpoints (aggregate lines) in
  (parsed (aggregate lines) < 2 ^ 1023 -> exists r, analyze lines top_n thr = Ret r)
  /\ (forall r, analyze lines top_n thr = Ret r ->
      exists ranked,
        Permutation ranked counts
        /\ StronglySorted (RankSpec.ranked_before counts) ranked
        /\ Report.top_endpoints r = firstn (Z.to_nat top_n) ranked
        /\ (List.length (Report.top_endpoints r) <= Z.to_nat top_n)%nat)
  /\ Counter.keys counts = RankSpec.first_seen (endpoint_sequence lines)
  /\ (forall k, Counter.get k counts = RankSpec.occurrences k (endpoint_sequence lines))
  /\ endpoints (aggregate ranking_lines) = [("/a", 3); ("/b", 3); ("/c", 5)]
  /\ (exists r', analyze ranking_lines 2 thr = Ret r'
                 /\ Report.top_endpoints r' = [("/c", 5); ("/a", 3)]).
Proof.
  intros counts.
  assert (forall l n t r0, analyze l n t = Ret r0 ->
            Report.top_endpoints r0 = Counter.most_common n (endpoints (aggregate l))) as Top.
  { intros l n t r0 H0.
    destruct (analyze_inv _ _ _ H0) as [[_ ->]|(_ & t0 & _ & ->)]; reflexivity. }
  split; [apply analyze_returns|].
  split; [|split; [apply aggregate_counters | split; [apply aggregate_counters|]]].
  - intros r H. exists (Counter.sorted_desc counts).
    split; [apply RankFacts.sorted_desc_perm|].
    split; [apply RankFacts.sorted_desc_ranked|].
    rewrite (Top _ _ _ _ H). fold counts. unfold Counter.most_common.
    destruct (Z.leb_spec top_n 0) as [L|G].
    + replace (Z.to_nat top_n) with 0%nat by lia. split; [reflexivity | simpl; lia].
    + split; [reflexivity | apply firstn_le_length].
  - split; [vm_compute; reflexivity|].
    destruct (analyze_returns ranking_lines 2 thr) as [r' H']; [vm_compute; reflexivity|].
    exists r'. split; [assumption|].
    rewrite (Top _ _ _ _ H'). vm_compute. reflexivity.
Qed.

Lemma top_endpoints_ranking_witness :
  exists r,
    analyze (clock := ExampleClock.clock) ranking_lines 2 threshold_0_1 = Ret r
    /\ Report.top_endpoints r = [("/c", 5); ("/a", 3)].
Proof.
  exact (proj2 (proj2 (proj2 (proj2 (proj2
    (@top_endpoints_ranking ExampleClock.clock ranking_lines 2 threshold_0_1)))))).
Defined.

(** C8. On the seven demo lines every report has 7 parsed requests, no
    parse failure and 3 IPs; the IP 10.0.0.5 has 3 suspicious hits, for
    [/admin], [/wp-login.php] and [/.env], 3 requests and 3 errors; it
    meets none of the three conditions, and no [suspicious_ip_activity]
    issue is emitted. *)
Theorem demo_lines_report (clock : Clock) (top_n : Z) (thr : float) :
  let st := aggregate DEMO_LINES in
  exists r,
    analyze DEMO_LINES top_n thr = Ret r
    /\ Summary.total_lines (Report.summary r) = 7
    /\ Summary.parsed_requests (Report.summary r) = 7
    /\ Summary.parse_failures (Report.summary r) = 0
    /\ Summary.unique_ips (Report.summary r) = 3
    /\ Counter.get "10.0.0.5" (ip_suspicious_hits st) = 3
    /\ map hits_suspicious_path [ "/admin"; "/wp-login.php"; "/.env"; "/"; "/api/orders" ]
       = [ true; true; true; false; false ]
    /\ Counter.get "10.0.0.5" (ips st) = 3
    /\ suspicious_volume_threshold (parsed st) = Ret 100
    /\ (forall rate, is_suspicious 100 3 rate 3 = false)
    /\ collect_suspicious st 100 (Counter.most_common_all (ips st)) = Ret []
    /\ filter is_activity (Report.issues r) = [].
Proof.
  intros st.
  assert (total_lines st = 7 /\ parsed st = 7 /\ parse_failures st = 0
          /\ Counter.len (ips st) = 3) as (TL & P & PF & U)
      by (vm_compute; repeat split; reflexivity).
  assert (Counter.get "10.0.0.5" (ip_suspicious_hits st) = 3
          /\ Counter.get "10.0.0.5" (ips st) = 3) as (H5 & R5)
      by (vm_compute; split; reflexivity).
  assert (suspects st 100 = []) as S by (vm_compute; reflexivity).
  assert (collect_suspicious st 100 (Counter.most_common_all (ips st)) = Ret []) as CS
      by (vm_compute; reflexivity).
  assert (suspicious_volume_threshold 7 = Ret 100) as T by (vm_compute; reflexivity).
  rewrite analyze_spec. cbv zeta. fold st. clearbody st.
  rewrite P. cbn [Z.eqb]. rewrite T. cbn [bind].
  eexists; split; [reflexivity|].
  destruct (issues_report_with st top_n thr 100) as [E _]. rewrite E.
  cbn [report_with Report.summary Summary.total_lines Summary.parsed_requests
       Summary.parse_failures Summary.unique_ips].
  repeat split; try assumption; try reflexivity.
  unfold suspicious_part. rewrite P, S. reflexivity.
Qed.

(** * Further properties of the program *)

(** ** Query strings *)

Lemma before_first_spec (sep : ascii) (s : string) :
  Str.all (fun c => negb (Ascii.eqb c sep)) (Str.before_first sep s) = true
  /\ exists rest, s = (Str.before_first sep s ++ rest)%string
                  /\ (rest = EmptyString \/ exists q, rest = String sep q).
Proof.
  induction s as [|c s [IH (rest & E & R)]]; simpl.
  - split; [reflexivity|]. exists EmptyString. auto.
  - destruct (Ascii.eqb_spec c sep) as [->|N]; simpl.
    + split; [reflexivity|]. exists (String sep s). split; [reflexivity|]. right. eauto.
    + split.
      * rewrite IH. destruct (Ascii.eqb_spec c sep); [contradiction | reflexivity].
      * exists rest. split; [now rewrite <- E | assumption].
Qed.

Lemma before_first_prefix (sep : ascii) (p q : string) :
  Str.all (fun c => negb (Ascii.eqb c sep)) p = true ->
  Str.before_first sep (p ++ String sep q) = p.
Proof.
  induction p as [|c p IH]; simpl.
  - now rewrite Ascii.eqb_refl.
  - intros H. apply andb_prop in H as [H1 H2].
    destruct (Ascii.eqb c sep); [discriminate|]. now rewrite IH.
Qed.

Lemma before_first_fixed (sep : ascii) (p : string) :
  Str.all (fun c => negb (Ascii.eqb c sep)) p = true -> Str.before_first sep p = p.
Proof.
  induction p as [|c p IH]; simpl; [reflexivity|].
  intros H. apply andb_prop in H as [H1 H2].
  destruct (Ascii.eqb c sep); [discriminate|]. now rewrite IH.
Qed.

(** [_strip_query] keeps the part of a path before its first question
    mark: the result has no question mark, the path is the result
    followed by nothing or by a question mark and more, and stripping
    twice is stripping once.  Two entries that differ in the query string
    only change the state of the loop in the same way: same endpoint,
    same suspicious hit. *)
Theorem query_string_is_ignored (clock : Clock) :
  (forall path,
     Str.all no_question (_strip_query path) = true
     /\ (exists rest, path = (_strip_query path ++ rest)%string
                      /\ (rest = EmptyString \/ exists q, rest = String "?" q))
     /\ _strip_query (_strip_query path) = _strip_query path)
  /\ (forall p q, Str.all no_question p = true ->
        _strip_query p = p /\ _strip_query (p ++ String "?" q) = p)
  /\ (forall st e p q,
        Str.all no_question p = true ->
        LogEntry.path e = (p ++ String "?" q)%string ->
        count_entry st e = count_entry st (with_path e p)).
Proof.
  split; [|split].
  - intros path. destruct (before_first_spec "?" path) as [H1 H2].
    split; [exact H1|]. split; [exact H2|].
    apply before_first_fixed. exact H1.
  - intros p q H. split; [now apply before_first_fixed | now apply before_first_prefix].
  - intros st e p q H E. unfold count_entry, with_path. cbn [LogEntry.path LogEntry.ip
      LogEntry.status LogEntry.timestamp_raw]. rewrite E.
    unfold _strip_query. rewrite (before_first_prefix "?" p q H), (before_first_fixed "?" p H).
    reflexivity.
Qed.

(** ** What a reported IP always has *)

Section FlagFacts.

Context {clock : Clock}.
Import CounterFacts FloatFacts RankFacts VolumeFacts.

(** The threshold of line 165 is at least 100. *)
Lemma suspicious_volume_threshold_floor (n t : Z) :
  suspicious_volume_threshold n = Ret t -> 100 <= t.
Proof.
  unfold suspicious_volume_threshold.
  destruct (PyFloat.mul_int PyFloat.lit_0_2 n) as [x|]; cbn [bind]; [|discriminate].
  destruct (PyFloat.to_int x) as [i|]; cbn [bind]; [|discriminate].
  intros H. inversion H. lia.
Qed.

Lemma suspects_flagged (st : AggState) (t : Z) (s : SuspiciousIp.t) :
  In s (suspects st t) ->
  exists rate,
    is_suspicious t (SuspiciousIp.requests s) rate (SuspiciousIp.suspicious_path_hits s) = true.
Proof.
  unfold suspects. intros H. apply in_map_iff in H as (item & <- & H).
  apply filter_In in H as [_ F]. unfold flagged in F.
  exists (ip_rate_of st (fst item) (snd item)). exact F.
Qed.

(** The issue of a report that [analyze] returned. *)
Lemma activity_issue_inv (lines : list string) (top_n : Z) (thr : float) (r : Report.t)
      (l : list SuspiciousIp.t) (v : Z) :
  analyze lines top_n thr = Ret r ->
  In (suspicious_ip_activity l v) (Report.issues r) ->
  let st := aggregate lines in
  0 < parsed st
  /\ suspicious_volume_threshold (parsed st) = Ret v
  /\ suspects st v <> []
  /\ l = firstn 20 (suspects st v).
Proof.
  intros H Hi st.
  destruct (analyze_inv _ _ _ H) as [[Z ->]|(P & t & T & ->)]; fold st in Hi; try fold st in Z.
  - cbn [report_with Report.issues] in Hi. unfold overall_part, suspicious_part in Hi.
    rewrite Z in Hi. cbn in Hi. destruct Hi as [Hi|[]]. discriminate.
  - fold st in P, T.
    assert (In (suspicious_ip_activity l v)
               (filter is_activity (Report.issues (report_with st top_n thr t)))) as F
      by (apply filter_In; split; [assumption | reflexivity]).
    destruct (issues_report_with st top_n thr t) as [E _]. rewrite E in F.
    unfold suspicious_part in F. destruct (parsed st =? 0); [contradiction|].
    destruct (suspects st t) as [|a L'] eqn:Q; [contradiction|].
    destruct F as [F|[]].
    assert (l = firstn 20 (a :: L') /\ v = t) as [El Ev] by (split; congruence).
    subst v. rewrite Q. repeat split; try assumption. discriminate.
Qed.

End FlagFacts.

(** In every report, a [suspicious_ip_activity] issue carries a threshold
    of at least 100 and between 1 and 20 IPs, and each of them has at
    least 20 requests or at least 5 suspicious hits: an IP below both is
    never reported.  The issue occurs at most once. *)
Theorem reported_ips_have_a_reason
        (clock : Clock) (lines : list string) (top_n : Z) (thr : float) (r : Report.t)
        (l : list SuspiciousIp.t) (v : Z) :
  analyze lines top_n thr = Ret r ->
  In (suspicious_ip_activity l v) (Report.issues r) ->
  100 <= v
  /\ (1 <= List.length l <= 20)%nat
  /\ (forall s, In s l ->
        20 <= SuspiciousIp.requests s \/ 5 <= SuspiciousIp.suspicious_path_hits s)
  /\ filter is_activity (Report.issues r) = [suspicious_ip_activity l v].
Proof.
  intros H Hi. destruct (@activity_issue_inv _ _ _ _ _ _ _ H Hi) as (P & T & N & ->).
  pose proof (@suspicious_volume_threshold_floor _ _ T) as F.
  split; [assumption|]. split; [|split].
  - destruct (suspects (aggregate lines) v) as [|a L]; [contradiction|].
    split; [simpl; lia | apply firstn_le_length].
  - intros s Hs. apply RankFacts.In_firstn in Hs.
    destruct (@suspects_flagged _ _ _ _ Hs) as (rate & Fl).
    apply is_suspicious_iff in Fl. destruct Fl as [Fl|[[Fl _]|Fl]]; [left; lia | now left | now right].
  - destruct (analyze_inv _ _ _ H) as [[Z _]|(_ & t & T' & ->)]; [lia|].
    rewrite T in T'. inversion T'; subst t.
    destruct (issues_report_with (aggregate lines) top_n thr v) as [-> _].
    unfold suspicious_part.
    replace (parsed (aggregate lines) =? 0) with false by (symmetry; apply Z.eqb_neq; lia).
    destruct (suspects (aggregate lines) v); [contradiction | reflexivity].
Qed.

Lemma reported_ips_have_a_reason_witness :
  exists r l v,
    analyze (clock := ExampleClock.clock) probe_lines 10 threshold_0_1 = Ret r
    /\ In (suspicious_ip_activity l v) (Report.issues r)
    /\ 100 <= v
    /\ (forall s, In s l ->
          20 <= SuspiciousIp.requests s \/ 5 <= SuspiciousIp.suspicious_path_hits s).
Proof.
  assert (exists r, analyze (clock := ExampleClock.clock) probe_lines 10 threshold_0_1 = Ret r
                    /\ exists l v, In (suspicious_ip_activity l v) (Report.issues r))
    as (r & E & l & v & I).
  { eexists. split; [vm_compute; reflexivity|]. eexists. eexists.
    cbn [Report.issues In]. right. left. reflexivity. }
  exists r, l, v. split; [exact E|]. split; [exact I|].
  destruct (@reported_ips_have_a_reason ExampleClock.clock _ _ _ _ _ _ E I) as (V & _ & S & _).
  split; assumption.
Defined.

(** ** The two counts of errors *)

Lemma filter_none (A : Type) (f : A -> bool) (l : list A) :
  (forall x, In x l -> f x = false) -> filter f l = [].
Proof.
  induction l as [|a l IH]; intros H; simpl; [reflexivity|].
  rewrite (H a (or_introl eq_refl)). apply IH. intros x Hx. apply H. now right.
Qed.

(** The text of a status between 0 and 999 starts with 4 or 5 when the
    status is between 400 and 599, and for a status of at least 100 in
    that case only. *)
Lemma status_text_4_or_5 (s : Z) :
  0 <= s <= 999 ->
  (is_error_status s = true -> starts_4_or_5 (PyInt.to_string s) = true)
  /\ (100 <= s -> starts_4_or_5 (PyInt.to_string s) = is_error_status s).
Proof.
  intros R.
  assert (forallb (fun n => let s := Z.of_nat n in
                      (implb (is_error_status s) (starts_4_or_5 (PyInt.to_string s)))
                      && (implb (100 <=? s)
                                (Bool.eqb (starts_4_or_5 (PyInt.to_string s)) (is_error_status s))))
                  (seq 0 1000) = true) as F by (vm_compute; reflexivity).
  rewrite forallb_forall in F.
  specialize (F (Z.to_nat s)). rewrite Z2Nat.id in F by lia.
  assert (In (Z.to_nat s) (seq 0 1000)) as I by (apply in_seq; lia).
  specialize (F I). cbv zeta in F. apply andb_prop in F as [F1 F2]. split.
  - intros E. rewrite E in F1. exact F1.
  - intros L. replace (100 <=? s) with true in F2 by (symmetry; apply Z.leb_le; lia).
    simpl in F2. now apply Bool.eqb_prop.
Qed.

Lemma parsed_entry_status (line : string) (e : LogEntry.t) :
  parsed_entry line = Some e -> 0 <= LogEntry.status e <= 999.
Proof.
  unfold parsed_entry. intros H.
  destruct (match_ LOG_PATTERN (Str.strip line)) as [g|] eqn:M.
  - destruct (parse_log_line_of_match _ M) as (e' & sz & P & _ & _ & _ & _ & _ & R).
    rewrite P in H. inversion H; subst e'. exact R.
  - rewrite (parse_log_line_no_match _ M) in H. discriminate.
Qed.

Section ErrorCountFacts.

Context {clock : Clock}.

Lemma error_counts_fold (lines : list string) :
  forall st,
    let st' := fold_left absorb lines st in
    error_requests (status_codes st') - Counter.total (ip_errors st')
    = error_requests (status_codes st) - Counter.total (ip_errors st)
      + Z.of_nat (List.length
                    (filter (fun e => starts_4_or_5 (PyInt.to_string (LogEntry.status e))
                                      && negb (is_error_status (LogEntry.status e)))
                            (entries lines))).
Proof.
  induction lines as [|line rest IH]; intros st; cbn [fold_left].
  - cbv zeta. simpl. lia.
  - cbv zeta in *. rewrite IH. unfold entries. cbn [flat_map]. fold (entries rest).
    unfold absorb. destruct (parsed_entry line) as [e|] eqn:P.
    + pose proof (parsed_entry_status _ P) as R.
      destruct (status_text_4_or_5 R) as [S1 _].
      unfold count_entry. cbn [status_codes ip_errors].
      rewrite error_requests_incr. fold (is_error_status (LogEntry.status e)).
      cbn [List.app filter].
      destruct (is_error_status (LogEntry.status e)) eqn:E.
      * rewrite (S1 eq_refl). rewrite CounterFacts.total_incr. cbn [andb negb]. lia.
      * destruct (starts_4_or_5 (PyInt.to_string (LogEntry.status e))); cbn [andb negb];
          cbn [List.length]; lia.
    + unfold count_failure. cbn [status_codes ip_errors List.app]. lia.
Qed.

End ErrorCountFacts.

(** On every line whose status field is [042] the entry has the status
    42, whose text [42] starts with 4: the line counts in the overall
    error rate (line 147 goes by the text) and not among the errors of
    its IP (line 132 goes by the range 400..599); alone in the input it
    gives an error rate of [1.0] and no error of any IP. *)
Theorem leading_zero_status_in_error_rate
        (clock : Clock) (st : AggState) (line : string) (g : groups) :
  match_ LOG_PATTERN (Str.strip line) = Some g ->
  group "status" g = Some "042" ->
  exists e,
    parse_log_line line = Ret (Some e)
    /\ LogEntry.status e = 42
    /\ step st line = Ret (count_entry st e)
    /\ status_codes (count_entry st e) = Counter.incr "42" (status_codes st)
    /\ error_requests (status_codes (count_entry st e))
       = error_requests (status_codes st) + 1
    /\ ip_errors (count_entry st e) = ip_errors st
    /\ overall_error_rate (aggregate [line]) = Ret PyFloat.one
    /\ ip_errors (aggregate [line]) = [].
Proof.
  intros M G.
  destruct (match_sound _ _ M) as (w & rest & _ & D).
  destruct (log_pattern_groups D)
    as (ip & time & method & path & d1 & d2 & d3 & size
        & Hip & Htime & Hmethod & Hpath & Hstatus & H1 & H2 & H3 & Hsize).
  rewrite G in Hstatus. inversion Hstatus; subst d1 d2 d3.
  assert (parse_log_line line
          = Ret (Some (LogEntry.mk ip time method path 42 (_parse_size size)))) as P.
  { unfold parse_log_line. rewrite M. unfold group_text.
    rewrite Hpath, G. cbn [bind]. rewrite (py_int_status _ _ _ H1 H2 H3). cbn [bind].
    rewrite Hsize, Hip, Htime, Hmethod. reflexivity. }
  exists (LogEntry.mk ip time method path 42 (_parse_size size)).
  split; [exact P|]. split; [reflexivity|].
  split; [unfold step; rewrite P; reflexivity|].
  split; [reflexivity|].
  split. { unfold count_entry. cbn [status_codes LogEntry.status].
           change (PyInt.to_string 42) with "42". rewrite error_requests_incr. reflexivity. }
  split; [reflexivity|].
  assert (aggregate [line]
          = count_entry initial (LogEntry.mk ip time method path 42 (_parse_size size))) as A.
  { unfold aggregate. cbn [fold_left]. unfold absorb, parsed_entry. now rewrite P. }
  rewrite A. split; reflexivity.
Qed.

Lemma leading_zero_status_in_error_rate_witness :
  overall_error_rate (clock := ExampleClock.clock) (aggregate [line_with_status_042])
  = Ret PyFloat.one
  /\ ip_errors (clock := ExampleClock.clock) (aggregate [line_with_status_042]) = [].
Proof.
  assert (exists g, match_ LOG_PATTERN (Str.strip line_with_status_042) = Some g
                    /\ group "status" g = Some "042") as (g & M & G)
    by (eexists; split; vm_compute; reflexivity).
  destruct (@leading_zero_status_in_error_rate ExampleClock.clock initial _ _ M G)
    as (e & _ & _ & _ & _ & _ & _ & R & I).
  split; assumption.
Defined.

(** The count of errors of the overall rate (line 147, by the text of
    the status) is never below the sum of the errors per IP (line 132, by
    the range 400..599); the difference is the number of parsed entries
    with a status below 100 whose text starts with 4 or 5, so the two
    agree when every status is at least 100. *)
Theorem error_requests_and_ip_errors (clock : Clock) (lines : list string) :
  let st := aggregate lines in
  error_requests (status_codes st)
  = Counter.total (ip_errors st)
    + Z.of_nat (List.length
                  (filter (fun e => starts_4_or_5 (PyInt.to_string (LogEntry.status e))
                                    && negb (is_error_status (LogEntry.status e)))
                          (entries lines)))
  /\ Counter.total (ip_errors st) <= error_requests (status_codes st)
  /\ ((forall e, In e (entries lines) -> 100 <= LogEntry.status e) ->
      error_requests (status_codes st) = Counter.total (ip_errors st)).
Proof.
  intros st. pose proof (error_counts_fold lines initial) as F. cbv zeta in F.
  fold (aggregate lines) in F. fold st in F.
  change (error_requests (status_codes initial)) with 0 in F.
  change (Counter.total (ip_errors initial)) with 0 in F.
  split; [lia|]. split; [lia|].
  intros A.
  assert (filter (fun e => starts_4_or_5 (PyInt.to_string (LogEntry.status e))
                           && negb (is_error_status (LogEntry.status e)))
                 (entries lines) = []) as Z.
  { apply filter_none. intros e He.
    assert (exists line, parsed_entry line = Some e) as (line & P).
    { unfold entries in He. apply in_flat_map in He as (line & _ & He).
      exists line. destruct (parsed_entry line); [|contradiction].
      destruct He as [->|[]]. reflexivity. }
    pose proof (parsed_entry_status _ P) as R.
    destruct (status_text_4_or_5 R) as [_ S2]. rewrite (S2 (A e He)).
    now destruct (is_error_status (LogEntry.status e)). }
  rewrite Z in F. simpl in F. lia.
Qed.

(** ** What the counts of the summary count *)

Lemma parses_well_formed (line : string) : parses line = true <-> well_formed line.
Proof.
  unfold parses, parsed_entry.
  destruct (parse_log_line_returns line) as [[W [e ->]]|[W ->]].
  - tauto.
  - split; [discriminate | contradiction].
Qed.

Lemma occurrences_nonneg (k : string) (ks : list string) : 0 <= RankSpec.occurrences k ks.
Proof.
  induction ks as [|k' ks IH]; simpl; [lia|]. destruct (String.eqb k' k); lia.
Qed.

Lemma occurrences_pos (k : string) (ks : list string) :
  0 < RankSpec.occurrences k ks <-> In k ks.
Proof.
  induction ks as [|k' ks IH]; simpl; [split; [lia | contradiction]|].
  pose proof (occurrences_nonneg k ks) as N.
  destruct (String.eqb_spec k' k) as [->|D].
  - split; [now left | lia].
  - rewrite <- IH. split; [intros H; right; lia | intros [E|H]; [contradiction | lia]].
Qed.

Section CountFacts.

Context {clock : Clock}.

Lemma counter_keys_seen (c : Counter.t) (ks : list string) :
  CounterSpec.wf c ->
  Counter.keys c = RankSpec.first_seen ks ->
  (forall k, Counter.get k c = RankSpec.occurrences k ks) ->
  NoDup (RankSpec.first_seen ks)
  /\ forall k, In k (RankSpec.first_seen ks) <-> In k ks.
Proof.
  intros W K G. split; [rewrite <- K; apply W|].
  intros k. rewrite <- K, <- (occurrences_pos k ks), <- G. split.
  - intros H. pose proof (@CounterFacts.get_pos _ _ W H). lia.
  - intros H. destruct (in_dec string_dec k (Counter.keys c)) as [I|N]; [assumption|].
    rewrite (@CounterFacts.get_not_in _ _ N) in H. lia.
Qed.

End CountFacts.

(** The counts of a report: [total_lines] is the number of lines read,
    [parsed_requests] the number of lines of which a prefix matches
    [LOG_PATTERN], [parse_failures] the number of the other lines,
    [unique_ips] the number of distinct IPs of the parsed entries, and
    [status_code_breakdown] gives to every status text the number of
    parsed entries with that status, the keys in the order of first
    occurrence. *)
Theorem summary_counts_meaning
        (clock : Clock) (lines : list string) (top_n : Z) (thr : float) :
  (forall line, parses line = true <-> well_formed line)
  /\ (parsed (aggregate lines) < 2 ^ 1023 -> exists r, analyze lines top_n thr = Ret r)
  /\ forall r, analyze lines top_n thr = Ret r ->
       let s := Report.summary r in
       Summary.total_lines s = Z.of_nat (List.length lines)
       /\ Summary.parsed_requests s = Z.of_nat (List.length (filter parses lines))
       /\ Summary.parse_failures s
          = Z.of_nat (List.length (filter (fun l => negb (parses l)) lines))
       /\ Summary.unique_ips s
          = Z.of_nat (List.length (RankSpec.first_seen (ip_sequence lines)))
       /\ NoDup (RankSpec.first_seen (ip_sequence lines))
       /\ (forall ip, In ip (RankSpec.first_seen (ip_sequence lines))
                      <-> In ip (ip_sequence lines))
       /\ Counter.keys (Report.status_code_breakdown r)
          = RankSpec.first_seen (status_sequence lines)
       /\ (forall k, Counter.get k (Report.status_code_breakdown r)
                     = RankSpec.occurrences k (status_sequence lines)).
Proof.
  split; [apply parses_well_formed|]. split; [apply analyze_returns|].
  intros r H s.
  assert (Report.summary r
          = Report.summary (report_with (aggregate lines) top_n thr 0)
          /\ Report.status_code_breakdown r = status_codes (aggregate lines)) as [Es Eb].
  { destruct (analyze_inv _ _ _ H) as [[_ ->]|(_ & t & _ & ->)]; split; reflexivity. }
  subst s. rewrite Es, Eb.
  cbn [report_with Report.summary Summary.total_lines Summary.parsed_requests
       Summary.parse_failures Summary.unique_ips].
  destruct (aggregate_counters lines) as (K & G & _ & _ & T).
  destruct (fold_absorb_counts lines initial) as (P & F & S). fold (aggregate lines) in P, F, S.
  pose proof (consistent_aggregate lines) as C.
  destruct (@counter_keys_seen _ _ (c_wf_ips C) K G) as [N I].
  split; [exact T|]. split; [rewrite P; reflexivity|]. split; [rewrite F; reflexivity|].
  split. { unfold Counter.len. rewrite <- K. unfold Counter.keys. now rewrite length_map. }
  split; [exact N|]. split; [exact I|].
  rewrite S. split.
  - apply (RankFacts.keys_count_all (status_sequence lines) []).
  - intros k. apply (RankFacts.get_count_all k (status_sequence lines) []).
Qed.

(** ** Input without a parsed line *)

Section NoDataFacts.

Context {clock : Clock}.

Lemma fold_absorb_failures (lines : list string) :
  (forall line, In line lines -> parses line = false) ->
  forall st,
    fold_left absorb lines st
    = mkAgg (total_lines st + Z.of_nat (List.length lines)) (parsed st)
            (parse_failures st + Z.of_nat (List.length lines))
            (endpoints st) (status_codes st) (ips st) (ip_errors st)
            (ip_suspicious_hits st) (time_first st) (time_last st).
Proof.
  induction lines as [|line rest IH]; intros A st; cbn [fold_left].
  - destruct st; cbn. f_equal; lia.
  - rewrite IH by (intros l Hl; apply A; now right).
    pose proof (A line (or_introl eq_refl)) as N. unfold parses in N.
    unfold absorb. destruct (parsed_entry line); [discriminate|].
    unfold count_failure. cbn [total_lines parsed parse_failures endpoints status_codes ips
                              ip_errors ip_suspicious_hits time_first time_last].
    f_equal; cbn [List.length]; lia.
Qed.

Lemma parsed_zero_no_parse (lines : list string) :
  parsed (aggregate lines) = 0 <-> forall line, In line lines -> parses line = false.
Proof.
  destruct (fold_absorb_counts lines initial) as (P & _ & _). fold (aggregate lines) in P.
  rewrite P. change (parsed initial) with 0. split.
  - intros Z line Hl. destruct (parses line) eqn:E; [|reflexivity].
    assert (In line (filter parses lines)) as I by (apply filter_In; auto).
    destruct (filter parses lines); [contradiction | simpl in Z; lia].
  - intros A. rewrite (filter_none parses lines A). reflexivity.
Qed.

End NoDataFacts.

(** When no line parses (an empty input included), [analyze] returns the
    report with nothing but the count of lines, all of them parse
    failures, an error rate of [0.0], no time range, no endpoint, status
    or IP, and the single issue [no_data]; and a report has the issue
    [no_data] only in that case. *)
Theorem unparsable_input_report
        (clock : Clock) (lines : list string) (top_n : Z) (thr : float) :
  ((forall line, In line lines -> ~ well_formed line) ->
   analyze lines top_n thr = Ret (empty_report (Z.of_nat (List.length lines))))
  /\ (forall r, analyze lines top_n thr = Ret r -> In no_data (Report.issues r) ->
        forall line, In line lines -> ~ well_formed line).
Proof.
  split.
  - intros A.
    assert (forall line, In line lines -> parses line = false) as A'.
    { intros line Hl. destruct (parses line) eqn:E; [|reflexivity].
      apply parses_well_formed in E. now apply A in Hl. }
    rewrite analyze_spec. cbv zeta. unfold aggregate.
    rewrite (fold_absorb_failures lines A' initial).
    cbn [parsed initial Z.eqb].
    unfold report_with, empty_report, rate_of, overall_part, suspicious_part,
      Counter.most_common, Counter.len.
    cbn [total_lines parsed parse_failures endpoints status_codes ips time_first time_last
         initial Z.eqb option_map Counter.sorted_desc fold_right List.length List.app].
    replace (FloatSpec.round4 PyFloat.zero) with PyFloat.zero by (vm_compute; reflexivity).
    rewrite firstn_nil. destruct (top_n <=? 0); reflexivity.
  - intros r H I line Hl W. apply parses_well_formed in W.
    destruct (analyze_inv _ _ _ H) as [[Z _]|(P & t & _ & ->)].
    + rewrite (proj1 (parsed_zero_no_parse lines) Z line Hl) in W. discriminate.
    + cbn [report_with Report.issues] in I. unfold overall_part, suspicious_part in I.
      replace (parsed (aggregate lines) =? 0) with false in I
        by (symmetry; apply Z.eqb_neq; lia).
      apply in_app_or in I as [I|I].
      * destruct (PyFloat.ge _ _); [destruct I as [I|[]]; discriminate | contradiction].
      * destruct (suspects _ _); [contradiction | destruct I as [I|[]]; discriminate].
Qed.

Lemma unparsable_input_report_witness :
  analyze (clock := ExampleClock.clock) [ "not a log line"; "" ] 10 threshold_0_1
  = Ret (empty_report 2).
Proof.
  apply (proj1 (@unparsable_input_report ExampleClock.clock
                  [ "not a log line"; "" ] 10 threshold_0_1)).
  intros line [<-|[<-|[]]] W; apply parses_well_formed in W; vm_compute in W; discriminate.
Defined.

(** ** The time range *)

Section TimeFacts.

Context {clock : Clock}.

Lemma bound_of_step (before : datetime -> datetime -> bool) (b : option datetime)
      (ts : list datetime) (t : datetime) :
  (forall a, before a a = false) ->
  (forall a b c, before a b = true -> before b c = true -> before a c = true) ->
  bound_of before b ts ->
  bound_of before (match b with
                   | None => Some t
                   | Some x => if before t x then Some t else b
                   end) (ts ++ [t]).
Proof.
  intros Irr Tr. destruct b as [x|]; cbn [bound_of].
  - intros [I M]. destruct (before t x) eqn:E; cbn [bound_of].
    + split; [apply in_or_app; right; now left|].
      intros t' H'. apply in_app_or in H' as [H'|[<-|[]]]; [|apply Irr].
      destruct (before t' t) eqn:E'; [|reflexivity].
      rewrite <- (M t' H'). symmetry. now apply Tr with t.
    + split; [apply in_or_app; now left|].
      intros t' H'. apply in_app_or in H' as [H'|[<-|[]]]; [now apply M | exact E].
  - intros ->. cbn [List.app]. split; [now left|].
    intros t' [<-|[]]. apply Irr.
Qed.

Lemma fold_absorb_bounds (lines : list string) :
  (forall a, dt_lt a a = false) ->
  (forall a b c, dt_lt a b = true -> dt_lt b c = true -> dt_lt a c = true) ->
  (forall a, dt_gt a a = false) ->
  (forall a b c, dt_gt a b = true -> dt_gt b c = true -> dt_gt a c = true) ->
  forall st ts,
    bound_of dt_lt (time_first st) ts -> bound_of dt_gt (time_last st) ts ->
    bound_of dt_lt (time_first (fold_left absorb lines st)) (ts ++ timestamps lines)
    /\ bound_of dt_gt (time_last (fold_left absorb lines st)) (ts ++ timestamps lines).
Proof.
  intros LI LT GI GT.
  induction lines as [|line rest IH]; intros st ts F L; cbn [fold_left].
  - unfold timestamps, entries. cbn [flat_map]. rewrite app_nil_r. auto.
  - assert (timestamps (line :: rest)
            = (match parsed_entry line with
               | Some e => match _try_parse_apache_time (LogEntry.timestamp_raw e) with
                           | Some t => [t]
                           | None => []
                           end
               | None => []
               end ++ timestamps rest)%list) as E.
    { unfold timestamps, entries. cbn [flat_map]. rewrite flat_map_app.
      destruct (parsed_entry line); cbn [flat_map]; [now rewrite app_nil_r | reflexivity]. }
    rewrite E. rewrite app_assoc. apply IH; unfold absorb;
      (destruct (parsed_entry line) as [e|];
       [ unfold count_entry; cbn [time_first time_last];
         destruct (_try_parse_apache_time (LogEntry.timestamp_raw e)) as [t|];
         [ unfold bound_first, bound_last | rewrite app_nil_r; assumption ]
       | unfold count_failure; cbn [time_first time_last]; rewrite app_nil_r; assumption ]).
    + now apply bound_of_step.
    + now apply bound_of_step.
Qed.

End TimeFacts.

(** With a comparison of instants that is irreflexive and transitive,
    the bounds of the time range are absent exactly when no parsed entry
    has a time stamp that [strptime] reads; otherwise the first is one of
    these time stamps and none of them is before it, the last is one of
    them and none of them is after it; the report carries their
    [isoformat]. *)
Theorem time_range_is_min_max (clock : Clock) (lines : list string) :
  (forall a, dt_lt a a = false) ->
  (forall a b c, dt_lt a b = true -> dt_lt b c = true -> dt_lt a c = true) ->
  (forall a, dt_gt a a = false) ->
  (forall a b c, dt_gt a b = true -> dt_gt b c = true -> dt_gt a c = true) ->
  let st := aggregate lines in
  bound_of dt_lt (time_first st) (timestamps lines)
  /\ bound_of dt_gt (time_last st) (timestamps lines)
  /\ (time_first st = None <-> timestamps lines = [])
  /\ (time_last st = None <-> timestamps lines = [])
  /\ forall top_n thr r,
       analyze lines top_n thr = Ret r ->
       Summary.time_range_first (Report.summary r) = option_map isoformat (time_first st)
       /\ Summary.time_range_last (Report.summary r) = option_map isoformat (time_last st).
Proof.
  intros LI LT GI GT st.
  destruct (@fold_absorb_bounds _ lines LI LT GI GT initial [] eq_refl eq_refl) as [F L].
  fold (aggregate lines) in F, L. fold st in F, L. cbn [List.app] in F, L.
  split; [exact F|]. split; [exact L|].
  assert (forall before b ts, bound_of before b ts -> (b = None <-> ts = [])) as N.
  { intros before [t|] ts B; cbn [bound_of] in B.
    - destruct B as [I _]. split; [discriminate | intros ->; contradiction].
    - tauto. }
  split; [exact (N _ _ _ F)|]. split; [exact (N _ _ _ L)|].
  intros top_n thr r H.
  destruct (analyze_inv _ _ _ H) as [[_ ->]|(_ & t & _ & ->)]; split; reflexivity.
Qed.

Lemma time_range_is_min_max_witness :
  bound_of (clock := ExampleClock.clock) Z.ltb (Some 1728568536) (timestamps DEMO_LINES)
  /\ bound_of (clock := ExampleClock.clock) Z.gtb (Some 1728568570) (timestamps DEMO_LINES).
Proof.
  destruct (@time_range_is_min_max ExampleClock.clock DEMO_LINES) as (F & L & _).
  - intros a. apply Z.ltb_irrefl.
  - intros a b c. cbn [dt_lt ExampleClock.clock]. rewrite !Z.ltb_lt. lia.
  - intros a. cbn [dt_gt ExampleClock.clock]. rewrite Z.gtb_ltb. apply Z.ltb_irrefl.
  - intros a b c. cbn [dt_gt ExampleClock.clock]. rewrite !Z.gtb_ltb, !Z.ltb_lt. lia.
  - split; [exact F | exact L].
Defined.

(** ** The fields of a line in the common format *)

Section GreedyFacts.

Variable A : Type.

Lemma stops_append (p q : ascii -> bool) (w s : string) :
  nonempty w = true -> Str.all q w = true ->
  (forall c, q c = true -> p c = false) ->
  stops p (w ++ s) = true.
Proof.
  destruct w as [|c w]; [discriminate|]. intros _ H Q. cbn in *.
  apply andb_prop in H as [H _]. now rewrite (Q c H).
Qed.

Lemma plus_run_stops (p : ascii -> bool) (s : string) (k : string -> option A) :
  stops p s = true -> plus_run p s k = None.
Proof.
  destruct s as [|c s]; [reflexivity|]. cbn. now destruct (p c).
Qed.

(** The longest run is tried first: when the continuation succeeds after
    the whole of [w], that is the result. *)
Lemma plus_run_longest (p : ascii -> bool) (w s : string) (k : string -> option A) (a : A) :
  nonempty w = true -> Str.all p w = true -> stops p s = true ->
  k s = Some a -> plus_run p (w ++ s) k = Some a.
Proof.
  intros N H S K. induction w as [|c w IH]; [discriminate|].
  cbn in H |- *. apply andb_prop in H as [Hc Hw]. rewrite Hc.
  destruct w as [|c' w].
  - cbn [append]. now rewrite (plus_run_stops p s k S).
  - now rewrite (IH eq_refl Hw).
Qed.

Lemma exec_plus_longest (p : ascii -> bool) (w s : string) (g : groups)
      (k : string -> groups -> option A) (a : A) :
  nonempty w = true -> Str.all p w = true -> stops p s = true ->
  k s g = Some a -> exec (Plus p) (w ++ s) g k = Some a.
Proof. intros. cbn [exec]. now apply plus_run_longest. Qed.

Lemma exec_group_plus_longest (name : string) (p : ascii -> bool) (w s : string) (g : groups)
      (k : string -> groups -> option A) (a : A) :
  nonempty w = true -> Str.all p w = true -> stops p s = true ->
  k s ((name, w) :: g) = Some a -> exec (Group name (Plus p)) (w ++ s) g k = Some a.
Proof.
  intros N H S K. cbn [exec]. apply plus_run_longest; try assumption.
  now rewrite consumed_append.
Qed.

End GreedyFacts.

Lemma is_digit_not_space (c : ascii) : Str.is_digit c = true -> Str.is_space c = false.
Proof.
  unfold Str.is_digit, Str.is_space. intros H.
  apply andb_prop in H as [H1 H2]. apply Z.leb_le in H1, H2.
  repeat (apply orb_false_intro); try apply andb_false_iff;
    rewrite ?Z.leb_gt, ?Z.eqb_neq; lia.
Qed.

Lemma non_space_not_space (c : ascii) : Str.non_space c = true -> Str.is_space c = false.
Proof. unfold Str.non_space. now destruct (Str.is_space c). Qed.

Lemma token_parts (w : string) :
  token w = true -> nonempty w = true /\ Str.all Str.non_space w = true.
Proof. unfold token. intros H. now apply andb_prop in H. Qed.

(** [rstrip] stops at a character that is no white space. *)
Lemma rstrip_after_token (a w b : string) :
  token w = true -> Str.rstrip (a ++ w ++ b) = (a ++ w ++ Str.rstrip b)%string.
Proof.
  intros T. apply token_parts in T as [N H].
  assert (Str.rstrip (w ++ b) = (w ++ Str.rstrip b)%string
          /\ nonempty (w ++ Str.rstrip b) = true) as [E NE].
  { induction w as [|c w IH]; [discriminate|].
    cbn in H. apply andb_prop in H as [Hc Hw]. apply non_space_not_space in Hc.
    split; [|reflexivity]. cbn [append Str.rstrip]. destruct w as [|c' w].
    - cbn [append]. rewrite Hc. now destruct (Str.rstrip b).
    - destruct (IH eq_refl Hw) as [-> NE]. now destruct (String c' w ++ Str.rstrip b)%string. }
  induction a as [|c a IH]; cbn [append Str.rstrip]; [exact E|].
  rewrite IH. destruct (a ++ w ++ Str.rstrip b)%string eqn:Q; [|reflexivity].
  exfalso. destruct a; cbn in Q; [|discriminate].
  rewrite Q in NE. discriminate.
Qed.

Lemma stops_rstrip (s : string) :
  stops Str.non_space s = true -> stops Str.non_space (Str.rstrip s) = true.
Proof.
  destruct s as [|c s]; [reflexivity|]. cbn [stops Str.rstrip]. intros H.
  unfold Str.non_space in H. rewrite negb_involutive in H.
  destruct (Str.rstrip s); [rewrite H; reflexivity|].
  cbn [stops]. unfold Str.non_space. now rewrite H.
Qed.

Lemma lstrip_token (w s : string) : token w = true -> Str.lstrip (w ++ s) = (w ++ s)%string.
Proof.
  intros T. apply token_parts in T as [N H]. destruct w as [|c w]; [discriminate|].
  cbn in H |- *. apply andb_prop in H as [Hc _]. now rewrite (non_space_not_space _ Hc).
Qed.

Section StepFacts.

Variable A : Type.

Lemma exec_cat (r1 r2 : regex) (s : string) (g : groups) (k : string -> groups -> option A) :
  exec (Cat r1 r2) s g k = exec r1 s g (fun s1 g1 => exec r2 s1 g1 k).
Proof. reflexivity. Qed.

Lemma exec_lit (c : ascii) (s : string) (g : groups) (k : string -> groups -> option A) :
  exec (Lit c) (String c s) g k = k s g.
Proof. cbn [exec]. now rewrite Ascii.eqb_refl. Qed.

Lemma exec_class (p : ascii -> bool) (c : ascii) (s : string) (g : groups)
      (k : string -> groups -> option A) :
  p c = true -> exec (Class p) (String c s) g k = k s g.
Proof. intros H. cbn [exec]. now rewrite H. Qed.

Lemma exec_plus_one (p : ascii -> bool) (c : ascii) (s : string) (g : groups)
      (k : string -> groups -> option A) (a : A) :
  p c = true -> stops p s = true -> k s g = Some a ->
  exec (Plus p) (String c s) g k = Some a.
Proof.
  intros H S K. apply (@exec_plus_longest A p (String c EmptyString) s g k a);
    try assumption; [reflexivity | cbn; now rewrite H].
Qed.

Lemma exec_opt_first (r : regex) (s : string) (g : groups)
      (k : string -> groups -> option A) (a : A) :
  exec r s g k = Some a -> exec (Opt r) s g k = Some a.
Proof. intros H. cbn [exec]. now rewrite H. Qed.

Lemma exec_group (name : string) (r : regex) (s : string) (g : groups)
      (k : string -> groups -> option A) :
  exec (Group name r) s g k
  = exec r s g (fun s' g' => k s' ((name, consumed s s') :: g')).
Proof. reflexivity. Qed.

End StepFacts.

Lemma stops_append_head (p : ascii -> bool) (w s : string) :
  nonempty w = true -> stops p w = true -> stops p (w ++ s) = true.
Proof. destruct w; [discriminate | auto]. Qed.

Ltac side NS :=
  first [ assumption
        | reflexivity
        | (eapply stops_append; [eassumption | eassumption | exact NS])
        | (apply stops_append_head; assumption)
        | (cbn [stops]; rewrite is_digit_not_space by assumption; reflexivity) ].

Ltac step NS :=
  lazymatch goal with
  | |- exec (Cat _ _) _ _ _ = _ => rewrite exec_cat
  | |- exec (Lit _) _ _ _ = _ => rewrite exec_lit
  | |- exec (Class _) _ _ _ = _ => rewrite exec_class by assumption
  | |- exec (Opt _) _ _ _ = _ => apply exec_opt_first
  | |- exec (Group _ (Plus _)) _ _ _ = _ => apply exec_group_plus_longest; [side NS ..|]
  | |- exec (Group _ _) _ _ _ = _ => rewrite exec_group
  | |- exec (Plus _) (String _ _) _ _ = _ => apply exec_plus_one; [side NS ..|]
  | |- exec (Plus _) _ _ _ = _ => apply exec_plus_longest; [side NS ..|]
  end; cbv beta.

(** The groups of the match on a line in the common format. *)
Lemma match_log_line (ip ident user time method path proto : string) (d1 d2 d3 : ascii)
      (size rest : string) :
  token ip = true -> token ident = true -> token user = true ->
  nonempty time = true -> Str.all Str.not_rbracket time = true ->
  token method = true -> token path = true ->
  nonempty proto = true -> Str.all Str.not_dquote proto = true ->
  stops Str.is_space proto = true ->
  Str.is_digit d1 = true -> Str.is_digit d2 = true -> Str.is_digit d3 = true ->
  token size = true -> stops Str.non_space rest = true ->
  match_ LOG_PATTERN (log_line ip ident user time method path proto d1 d2 d3 size rest)
  = Some [ ("size", size);
           ("status", String d1 (String d2 (String d3 EmptyString)));
           ("proto", proto); ("path", path); ("method", method);
           ("time", time); ("ip", ip) ].
Proof.
  intros Tip Tident Tuser Ntime Atime Tmethod Tpath Nproto Aproto Sproto D1 D2 D3 Tsize Srest.
  apply token_parts in Tip as [Nip Aip], Tident as [Nident Aident], Tuser as [Nuser Auser],
    Tmethod as [Nmethod Amethod], Tpath as [Npath Apath], Tsize as [Nsize Asize].
  pose proof non_space_not_space as NS.
  unfold match_, LOG_PATTERN, log_line. cbn [cat append].
  repeat step NS.
  change (String d1 (String d2 (String d3 (String " " (size ++ rest)))))
    with (String d1 (String d2 (String d3 EmptyString)) ++ String " " (size ++ rest))%string.
  now rewrite consumed_append.
Qed.

Lemma rstrip_keep_cons (c : ascii) (t t' : string) :
  Str.rstrip t = t' /\ nonempty t' = true ->
  Str.rstrip (String c t) = String c t' /\ nonempty (String c t') = true.
Proof.
  intros [E N]. split; [|reflexivity]. cbn [Str.rstrip]. rewrite E.
  destruct t'; [discriminate | reflexivity].
Qed.

Lemma rstrip_keep_app (s t t' : string) :
  Str.rstrip t = t' /\ nonempty t' = true ->
  Str.rstrip (s ++ t) = (s ++ t')%string /\ nonempty (s ++ t') = true.
Proof.
  intros H. induction s as [|c s IH]; [exact H|]. cbn [append].
  now apply rstrip_keep_cons.
Qed.

Lemma strip_log_line (ip ident user time method path proto : string) (d1 d2 d3 : ascii)
      (size rest : string) :
  token ip = true -> token size = true ->
  Str.strip (log_line ip ident user time method path proto d1 d2 d3 size rest)
  = log_line ip ident user time method path proto d1 d2 d3 size (Str.rstrip rest).
Proof.
  intros Tip Tsize. unfold Str.strip, log_line. rewrite lstrip_token by assumption.
  assert (Str.rstrip (size ++ rest) = (size ++ Str.rstrip rest)%string
          /\ nonempty (size ++ Str.rstrip rest) = true) as K.
  { split; [exact (@rstrip_after_token EmptyString size rest Tsize)|].
    apply token_parts in Tsize as [N _]. now destruct size. }
  cbn [append].
  repeat first [ exact K | apply rstrip_keep_cons | apply rstrip_keep_app ].
Qed.

(** A line in the common format parses into its fields: for fields
    without white space (the time without a closing bracket, the protocol
    without a double quote and not starting with white space), a status of
    three digits and a rest that is empty or starts with white space, the
    entry has the IP, the time, the method and the path as they stand,
    the status read in base 10 and the size that [_parse_size] gives. *)
Theorem parse_log_line_extracts_fields
        (ip ident user time method path proto : string) (d1 d2 d3 : ascii)
        (size rest : string) :
  token ip = true -> token ident = true -> token user = true ->
  nonempty time = true -> Str.all Str.not_rbracket time = true ->
  token method = true -> token path = true ->
  nonempty proto = true -> Str.all Str.not_dquote proto = true ->
  stops Str.is_space proto = true ->
  Str.is_digit d1 = true -> Str.is_digit d2 = true -> Str.is_digit d3 = true ->
  token size = true -> stops Str.non_space rest = true ->
  parse_log_line (log_line ip ident user time method path proto d1 d2 d3 size rest)
  = Ret (Some (LogEntry.mk ip time method path
                           (100 * Str.digit_val d1 + 10 * Str.digit_val d2 + Str.digit_val d3)
                           (_parse_size size))).
Proof.
  intros Tip Tident Tuser Ntime Atime Tmethod Tpath Nproto Aproto Sproto D1 D2 D3 Tsize Srest.
  unfold parse_log_line. rewrite strip_log_line by assumption.
  rewrite match_log_line by (try assumption; now apply stops_rstrip).
  unfold group_text. cbn [group String.eqb Ascii.eqb Bool.eqb bind].
  rewrite (py_int_status _ _ _ D1 D2 D3). reflexivity.
Qed.

Lemma parse_log_line_extracts_fields_witness :
  parse_log_line
    (log_line "203.0.113.9" "-" "frank" "10/Oct/2024:13:56:00 +0000" "POST" "/login?next=/"
              "HTTP/1.1" "5" "0" "0" "900" (" " ++ quoted "-" ++ " " ++ quoted "curl/8.0"))
  = Ret (Some (LogEntry.mk "203.0.113.9" "10/Oct/2024:13:56:00 +0000" "POST" "/login?next=/"
                           500 (Some 900))).
Proof.
  apply (parse_log_line_extracts_fields
           "203.0.113.9" "-" "frank" "10/Oct/2024:13:56:00 +0000" "POST" "/login?next=/"
           "HTTP/1.1" "5" "0" "0" "900" (" " ++ quoted "-" ++ " " ++ quoted "curl/8.0"));
    vm_compute; reflexivity.
Defined.

(** ** The order of the status codes on the console *)

Module ConsoleFacts.
Import Console.

Lemma ascii_compare_lt_trans (a b c : ascii) :
  Ascii.compare a b = Lt -> Ascii.compare b c = Lt -> Ascii.compare a c = Lt.
Proof. unfold Ascii.compare. rewrite !N.compare_lt_iff. lia. Qed.

Lemma string_compare_lt_trans (a : string) :
  forall b c, String.compare a b = Lt -> String.compare b c = Lt -> String.compare a c = Lt.
Proof.
  induction a as [|x a IH]; intros [|y b] [|z c]; cbn [String.compare];
    try discriminate; try reflexivity.
  destruct (Ascii.compare x y) eqn:Exy; try discriminate;
    destruct (Ascii.compare y z) eqn:Eyz; try discriminate.
  - apply Ascii.compare_eq_iff in Exy, Eyz. subst. 
    replace (Ascii.compare z z) with Eq
      by (symmetry; unfold Ascii.compare; apply N.compare_refl).
    apply IH.
  - apply Ascii.compare_eq_iff in Exy. subst. rewrite Eyz. reflexivity.
  - apply Ascii.compare_eq_iff in Eyz. subst. rewrite Exy. reflexivity.
  - rewrite (ascii_compare_lt_trans _ _ _ Exy Eyz). reflexivity.
Qed.

Lemma string_compare_refl (a : string) : String.compare a a = Eq.
Proof.
  induction a as [|x a IH]; cbn [String.compare]; [reflexivity|].
  replace (Ascii.compare x x) with Eq
    by (symmetry; unfold Ascii.compare; apply N.compare_refl).
  exact IH.
Qed.

Lemma string_compare_gt_lt (a b : string) :
  String.compare a b = Gt <-> String.compare b a = Lt.
Proof.
  rewrite (String.compare_antisym b a). destruct (String.compare a b); simpl;
    split; congruence.
Qed.

(** The order of the items is total: an item below [x] is below [y] or
    [y] is below [x]. *)
Lemma item_lt_total (z y x : string * Z) :
  item_lt z x = true -> item_lt z y = true \/ item_lt y x = true.
Proof.
  destruct z as [kz vz], y as [ky vy], x as [kx vx]. unfold item_lt. cbn [fst snd].
  destruct (String.compare kz kx) eqn:Ezx; try discriminate.
  - apply String.compare_eq_iff in Ezx. subst kx. intros V. apply Z.ltb_lt in V.
    destruct (String.compare kz ky) eqn:Ezy.
    + apply String.compare_eq_iff in Ezy. subst ky. rewrite string_compare_refl.
      destruct (Z_lt_le_dec vz vy); [left | right]; apply Z.ltb_lt; lia.
    + now left.
    + right. apply string_compare_gt_lt in Ezy. now rewrite Ezy.
  - intros _. destruct (String.compare kz ky) eqn:Ezy.
    + apply String.compare_eq_iff in Ezy. subst ky. rewrite Ezx. now right.
    + now left.
    + right. apply string_compare_gt_lt in Ezy.
      now rewrite (string_compare_lt_trans _ _ _ Ezy Ezx).
Qed.

Lemma item_lt_asym (a b : string * Z) : item_lt a b = true -> item_lt b a = false.
Proof.
  destruct a as [ka va], b as [kb vb]. unfold item_lt. cbn [fst snd].
  rewrite (String.compare_antisym kb ka).
  destruct (String.compare ka kb) eqn:E; cbn [CompOpp]; intros H;
    try discriminate; try reflexivity.
  apply Z.ltb_lt in H. apply Z.ltb_ge. lia.
Qed.

Lemma insert_perm (x : string * Z) (l : list (string * Z)) :
  Permutation (insert x l) (x :: l).
Proof.
  induction l as [|y l IH]; simpl; [reflexivity|].
  destruct (item_lt y x); [|reflexivity].
  rewrite IH. apply perm_swap.
Qed.

Lemma sorted_perm (l : list (string * Z)) : Permutation (sorted l) l.
Proof.
  induction l as [|x l IH]; simpl; [reflexivity|].
  rewrite insert_perm. now constructor.
Qed.

Lemma insert_sorted (x : string * Z) (l : list (string * Z)) :
  StronglySorted (fun a b => item_lt b a = false) l ->
  StronglySorted (fun a b => item_lt b a = false) (insert x l).
Proof.
  induction 1 as [|y l S IH F]; simpl; [repeat constructor|].
  destruct (item_lt y x) eqn:E.
  - constructor; [assumption|].
    rewrite Forall_forall in *. intros z Hz.
    apply (Permutation_in _ (insert_perm x l)) in Hz. destruct Hz as [<-|Hz].
    + now apply item_lt_asym.
    + now apply F.
  - constructor; [now constructor|].
    constructor; [assumption|].
    rewrite Forall_forall in *. intros z Hz.
    destruct (item_lt z x) eqn:Ezx; [|reflexivity].
    destruct (item_lt_total _ y _ Ezx) as [H|H]; [|congruence].
    rewrite (F z Hz) in H. discriminate.
Qed.

Lemma sorted_sorted (l : list (string * Z)) :
  StronglySorted (fun a b => item_lt b a = false) (sorted l).
Proof.
  induction l as [|x l IH]; simpl; [constructor | now apply insert_sorted].
Qed.

(** With distinct keys the items come in the strict order of the keys. *)
Lemma sorted_strict (l : list (string * Z)) :
  NoDup (map fst l) ->
  StronglySorted (fun a b => String.ltb (fst a) (fst b) = true) (sorted l).
Proof.
  intros N.
  assert (NoDup (map fst (sorted l))) as N'
    by (apply (Permutation_NoDup (l := map fst l)); [|assumption];
        apply Permutation_map; symmetry; apply sorted_perm).
  pose proof (sorted_sorted l) as S. clear N.
  induction S as [|a m S IH F]; [constructor|].
  cbn [map] in N'. inversion N' as [|? ? Na Nm]; subst.
  constructor; [now apply IH|].
  rewrite Forall_forall in *. intros b Hb. specialize (F b Hb).
  unfold String.ltb. unfold item_lt in F.
  rewrite (String.compare_antisym (fst b) (fst a)) in F.
  destruct (String.compare (fst a) (fst b)) eqn:E; cbn [CompOpp] in F;
    [|reflexivity | discriminate].
  apply String.compare_eq_iff in E. exfalso. apply Na. rewrite E. now apply in_map.
Qed.

End ConsoleFacts.

Section ConsoleReportFacts.

Context {clock : Clock}.

(** The issues of a report that [analyze] returned: none, or the issue
    of the overall verdict, or the issue of the detection, or both. *)
Lemma analyze_issues (lines : list string) (top_n : Z) (thr : float) (r : Report.t) :
  analyze lines top_n thr = Ret r ->
  (parsed (aggregate lines) = 0 /\ Report.issues r = [no_data])
  \/ (0 < parsed (aggregate lines)
      /\ exists o a, Report.issues r = (o ++ a)%list
                     /\ (o = [] \/ exists rate t, o = [high_error_rate rate t])
                     /\ (a = [] \/ exists l v, a = [suspicious_ip_activity l v])).
Proof.
  intros H. destruct (analyze_inv _ _ _ H) as [[Z ->]|(P & t & _ & ->)].
  - left. split; [assumption|]. cbn [report_with Report.issues].
    unfold overall_part, suspicious_part. rewrite Z. reflexivity.
  - right. split; [assumption|]. cbn [report_with Report.issues].
    unfold overall_part, suspicious_part.
    replace (parsed (aggregate lines) =? 0) with false by (symmetry; apply Z.eqb_neq; lia).
    eexists. eexists. split; [reflexivity|]. split.
    + destruct (PyFloat.ge _ _); eauto.
    + destruct (suspects _ _); eauto.
Qed.

End ConsoleReportFacts.

(** On the console the status codes of a report of [analyze] come in
    the strict order of their texts (by code points, so [1000] would come
    before [200]), each code of the parsed entries once, with the number
    of entries that have it. *)
Theorem console_status_codes_in_order
        (clock : Clock) (repr : float -> string)
        (lines : list string) (top_n : Z) (thr : float) (r : Report.t) :
  analyze lines top_n thr = Ret r ->
  exists items,
    status_lines r = ([ ""; "Status codes"; Console.rule_single ] ++ map status_line items)%list
    /\ Permutation items (Report.status_code_breakdown r)
    /\ StronglySorted (fun a b => String.ltb (fst a) (fst b) = true) items
    /\ (forall k v, In (k, v) items
                    <-> In k (status_sequence lines)
                        /\ v = RankSpec.occurrences k (status_sequence lines))
    /\ print_console_report repr r
       = (summary_lines repr r ++ endpoint_lines r ++ status_lines r ++ issue_lines r)%list.
Proof.
  intros H.
  assert (Report.status_code_breakdown r = status_codes (aggregate lines)) as Eb
    by (destruct (analyze_inv _ _ _ H) as [[_ ->]|(_ & t & _ & ->)]; reflexivity).
  pose proof (consistent_aggregate lines) as C.
  destruct (fold_absorb_counts lines initial) as (_ & _ & S). fold (aggregate lines) in S.
  change (status_codes initial) with (@nil (string * Z)) in S.
  pose proof (c_wf_status C) as W.
  exists (Console.sorted (Report.status_code_breakdown r)).
  split; [reflexivity|]. split; [apply ConsoleFacts.sorted_perm|].
  split; [apply ConsoleFacts.sorted_strict; rewrite Eb; apply W|].
  split; [|reflexivity].
  intros k v. rewrite Eb.
  assert (forall k, Counter.get k (status_codes (aggregate lines))
                    = RankSpec.occurrences k (status_sequence lines)) as G.
  { intros k'. rewrite S. apply (RankFacts.get_count_all k' (status_sequence lines) []). }
  split.
  - intros I. apply (Permutation_in _ (ConsoleFacts.sorted_perm _)) in I.
    pose proof (@CounterFacts.get_in _ _ _ (proj1 W) I) as E.
    split; [|now rewrite <- G, E].
    apply occurrences_pos. rewrite <- G, E.
    destruct W as [_ F]. rewrite Forall_forall in F. specialize (F _ I). cbn in F. lia.
  - intros [I ->]. apply (Permutation_in _ (Permutation_sym (ConsoleFacts.sorted_perm _))).
    rewrite <- G. apply CounterFacts.in_get.
    apply occurrences_pos in I. rewrite <- G in I.
    destruct (in_dec string_dec k (Counter.keys (status_codes (aggregate lines)))) as [K|N];
      [assumption|].
    rewrite (@CounterFacts.get_not_in _ _ N) in I. lia.
Qed.

Lemma console_status_codes_in_order_witness :
  exists r items,
    analyze (clock := ExampleClock.clock) DEMO_LINES 10 threshold_0_1 = Ret r
    /\ status_lines r
       = ([ ""; "Status codes"; Console.rule_single ] ++ map status_line items)%list
    /\ StronglySorted (fun a b => String.ltb (fst a) (fst b) = true) items.
Proof.
  assert (exists r, analyze (clock := ExampleClock.clock) DEMO_LINES 10 threshold_0_1 = Ret r)
    as [r E] by (eexists; vm_compute; reflexivity).
  destruct (@console_status_codes_in_order ExampleClock.clock (fun _ => EmptyString)
              _ _ _ _ E) as (items & L & _ & S & _).
  exists r, items. auto.
Defined.

(** The section of the potential issues is printed exactly when the
    report has an issue.  For a report of [analyze] it has one line per
    issue, at most two, each the message of its type; with no parsed line
    it is the message of [no_data]. *)
Theorem console_issue_section
        (clock : Clock) (lines : list string) (top_n : Z) (thr : float) (r : Report.t) :
  analyze lines top_n thr = Ret r ->
  (issue_lines r = [] <-> Report.issues r = [])
  /\ issue_lines r
     = match Report.issues r with
       | [] => []
       | _ :: _ => ([ ""; "Potential issues"; Console.rule_single ]
                    ++ map (fun i => ("- " ++ issue_message i)%string) (Report.issues r))%list
       end
  /\ (List.length (Report.issues r) <= 2)%nat
  /\ (parsed (aggregate lines) = 0 ->
      issue_lines r = [ ""; "Potential issues"; Console.rule_single;
                        "- No valid log lines were parsed." ]).
Proof.
  intros H.
  assert (forall i, issue_line i = "- " ++ issue_message i) as M by (intros []; reflexivity).
  assert (issue_lines r
          = match Report.issues r with
            | [] => []
            | _ :: _ => ([ ""; "Potential issues"; Console.rule_single ]
                         ++ map (fun i => ("- " ++ issue_message i)%string) (Report.issues r))%list
            end) as E.
  { unfold issue_lines. destruct (Report.issues r) as [|i l]; [reflexivity|].
    f_equal. apply map_ext. exact M. }
  split; [|split; [exact E|split]].
  - rewrite E. destruct (Report.issues r); split; try discriminate; reflexivity.
  - destruct (analyze_issues _ _ _ H) as [[_ ->]|(_ & o & a & -> & [->|(? & ? & ->)] & [->|(? & ? & ->)])];
      simpl; lia.
  - intros Z. rewrite E.
    destruct (analyze_issues _ _ _ H) as [[_ ->]|(P & _)]; [reflexivity | lia].
Qed.

Lemma console_issue_section_witness :
  exists r,
    analyze (clock := ExampleClock.clock) DEMO_LINES 10 threshold_0_1 = Ret r
    /\ (List.length (Report.issues r) <= 2)%nat
    /\ (issue_lines r = [] <-> Report.issues r = []).
Proof.
  assert (exists r, analyze (clock := ExampleClock.clock) DEMO_LINES 10 threshold_0_1 = Ret r)
    as [r E] by (eexists; vm_compute; reflexivity).
  destruct (@console_issue_section ExampleClock.clock _ _ _ _ E) as (N & _ & L & _).
  exists r. auto.
Defined.

(** ** The command line *)

Section MainFacts.

Context {clock : Clock}.
Variable sys : System.
Variable args : Args.

(** What [main] analyzes. *)
Lemma main_cases :
  let input := main_input sys args in
  (exists e, input = Failed e /\ main sys args = handle args e [])
  \/ (exists lines e,
        input = Done lines
        /\ analyze lines (top args) (error_threshold args) = Raise e
        /\ main sys args = Build_Run (Uncaught e) [] [] None)
  \/ (exists lines report e,
        input = Done lines
        /\ analyze lines (top args) (error_threshold args) = Ret report
        /\ write_text sys (out args) (json_dumps sys report) = Failed e
        /\ main sys args = handle args e (print_console_report (repr_float sys) report))
  \/ (exists lines report u,
        input = Done lines
        /\ analyze lines (top args) (error_threshold args) = Ret report
        /\ write_text sys (out args) (json_dumps sys report) = Done u
        /\ main sys args
           = Build_Run (Exit 0)
               (print_console_report (repr_float sys) report
                ++ [ ""; "JSON report written to: " ++ resolve sys (out args) ])
               [] (Some (out args, json_dumps sys report))).
Proof.
  cbv zeta. unfold main, main_input.
  destruct (if demo args then Done DEMO_LINES else read_lines sys (logfile args))
    as [lines|e]; [|left; eauto].
  right. destruct (analyze lines (top args) (error_threshold args)) as [report|e] eqn:A;
    [|left; eauto].
  right. cbv zeta.
  destruct (write_text sys (out args) (json_dumps sys report)) as [u|e] eqn:W.
  - right. exists lines, report, u. repeat split; try reflexivity; assumption.
  - left. exists lines, report, e. repeat split; try reflexivity; assumption.
Qed.

End MainFacts.

(** The exit code of [main] is 0, 2 or 130.  It is 0 exactly when the
    input was read, analyzed and the report written, and a file is
    written in that case only.  It is 2 exactly when reading the input or
    writing the report raised [FileNotFoundError] or [PermissionError],
    and 130 when one of them was interrupted.  When reading fails nothing
    is printed on the standard output; when writing fails the console
    report was printed already, and the message on the standard error
    names the log file. *)
Theorem main_exit_codes (clock : Clock) (sys : System) (args : Args) :
  let run := main sys args in
  (forall c, run_ending run = Exit c -> c = 0 \/ c = 2 \/ c = 130)
  /\ (run_ending run = Exit 0 <-> exists u, writes sys args (Done u))
  /\ (run_written run <> None <-> run_ending run = Exit 0)
  /\ (run_ending run = Exit 2
      <-> exists e, (e = FileNotFoundError \/ e = PermissionError)
                    /\ (main_input sys args = Failed e \/ writes sys args (Failed e)))
  /\ (run_ending run = Exit 130
      <-> main_input sys args = Failed KeyboardInterrupt
          \/ writes sys args (Failed KeyboardInterrupt))
  /\ (forall e, main_input sys args = Failed e -> run_stdout run = [] /\ run_written run = None)
  /\ (forall lines report,
        main_input sys args = Done lines ->
        analyze lines (top args) (error_threshold args) = Ret report ->
        write_text sys (out args) (json_dumps sys report) = Failed PermissionError ->
        run_stdout run = print_console_report (repr_float sys) report
        /\ run_stderr run = [ "Error: permission denied reading: " ++ logfile args ]).
Proof.
  cbv zeta. unfold writes.
  destruct (main_cases sys args)
    as [(e & I & M)|[(lines & e & I & A & M)|[(lines & report & e & I & A & W & M)
                                             |(lines & report & u & I & A & W & M)]]];
    cbv zeta in I; rewrite M; clear M.
  - split; [|split; [|split; [|split; [|split; [|split]]]]].
    + destruct e; cbn; intros c H; inversion H; auto.
    + split; [destruct e; discriminate | intros (u & l & r & I' & _); congruence].
    + split; [destruct e; cbn; congruence | destruct e; discriminate].
    + split.
      * intros H. exists e. destruct e; try discriminate; auto.
      * intros (e' & [-> | ->] & [I' | (l & r & I' & _)]); try congruence;
          rewrite I in I'; inversion I'; subst e; reflexivity.
    + split.
      * intros H. left. destruct e; try discriminate. exact I.
      * intros [I' | (l & r & I' & _)]; [|congruence].
        rewrite I in I'. inversion I'; subst e. reflexivity.
    + intros e' _. destruct e; split; reflexivity.
    + intros l r I'. congruence.
  - split; [|split; [|split; [|split; [|split; [|split]]]]]; cbn.
    + discriminate.
    + split; [discriminate | intros (u & l & r & I' & A' & _); congruence].
    + split; [congruence | discriminate].
    + split; [discriminate|].
      intros (e' & _ & [I' | (l & r & I' & A' & _)]); congruence.
    + split; [discriminate|]. intros [I' | (l & r & I' & A' & _)]; congruence.
    + intros e' I'. congruence.
    + intros l r I' A'. congruence.
  - assert (forall l r, main_input sys args = Done l ->
                        analyze l (top args) (error_threshold args) = Ret r ->
                        l = lines /\ r = report) as U
      by (intros l r I' A'; rewrite I in I'; inversion I'; subst l; split; congruence).
    split; [|split; [|split; [|split; [|split; [|split]]]]].
    + destruct e; cbn; intros c H; inversion H; auto.
    + split; [destruct e; discriminate|].
      intros (u & l & r & I' & A' & W'). destruct (U _ _ I' A') as [-> ->]. congruence.
    + split; [destruct e; cbn; congruence | destruct e; discriminate].
    + split.
      * intros H. exists e. split; [destruct e; try discriminate; auto|].
        right. exists lines, report. auto.
      * intros (e' & E & [I' | (l & r & I' & A' & W')]); [congruence|].
        destruct (U _ _ I' A') as [-> ->]. rewrite W in W'. inversion W'; subst e'.
        destruct E as [-> | ->]; reflexivity.
    + split.
      * intros H. right. exists lines, report. destruct e; try discriminate. auto.
      * intros [I' | (l & r & I' & A' & W')]; [congruence|].
        destruct (U _ _ I' A') as [-> ->]. rewrite W in W'. inversion W'; subst e.
        reflexivity.
    + intros e' I'. congruence.
    + intros l r I' A' W'. destruct (U _ _ I' A') as [-> ->].
      rewrite W in W'. inversion W'; subst e. split; reflexivity.
  - assert (forall l r, main_input sys args = Done l ->
                        analyze l (top args) (error_threshold args) = Ret r ->
                        l = lines /\ r = report) as U
      by (intros l r I' A'; rewrite I in I'; inversion I'; subst l; split; congruence).
    split; [|split; [|split; [|split; [|split; [|split]]]]]; cbn.
    + intros c H. inversion H. auto.
    + split; [|reflexivity]. intros _. exists u, lines, report. auto.
    + split; [reflexivity | discriminate].
    + split; [discriminate|].
      intros (e' & _ & [I' | (l & r & I' & A' & W')]); [congruence|].
      destruct (U _ _ I' A') as [-> ->]. congruence.
    + split; [discriminate|]. intros [I' | (l & r & I' & A' & W')]; [congruence|].
      destruct (U _ _ I' A') as [-> ->]. congruence.
    + intros e' I'. congruence.
    + intros l r I' A' W'. destruct (U _ _ I' A') as [-> ->]. congruence.
Qed.

Section DemoFacts.

Context {clock : Clock}.

Lemma analyze_demo (top_n : Z) (thr : float) :
  exists report,
    analyze DEMO_LINES top_n thr = Ret report
    /\ Summary.parsed_requests (Report.summary report) = 7.
Proof.
  assert (parsed (aggregate DEMO_LINES) = 7) as P by (vm_compute; reflexivity).
  destruct (analyze_returns DEMO_LINES top_n thr) as [r H]; [rewrite P; reflexivity|].
  exists r. split; [assumption|].
  destruct (analyze_inv _ _ _ H) as [[_ ->]|(_ & t & _ & ->)]; exact P.
Qed.

End DemoFacts.

(** With [--demo], [main] does not read: two systems that differ in
    what reading gives, and agree otherwise, give the same run.  The
    analysis of the demo lines never raises, so the run ends with the
    code 0 or in the handling of a failure to write, and the console
    report, with its 7 parsed requests, is printed in both cases. *)
Theorem main_demo_needs_no_input (clock : Clock) (sys sys' : System) (args : Args) :
  demo args = true ->
  write_text sys = write_text sys' -> resolve sys = resolve sys' ->
  repr_float sys = repr_float sys' -> json_dumps sys = json_dumps sys' ->
  main sys args = main sys' args
  /\ (forall e, run_ending (main sys args) <> Uncaught e)
  /\ exists report,
       analyze DEMO_LINES (top args) (error_threshold args) = Ret report
       /\ (exists rest,
             run_stdout (main sys args)
             = (print_console_report (repr_float sys) report ++ rest)%list)
       /\ In "Parsed requests:       7" (run_stdout (main sys args))
       /\ (forall u, write_text sys (out args) (json_dumps sys report) = Done u ->
             run_ending (main sys args) = Exit 0
             /\ run_written (main sys args) = Some (out args, json_dumps sys report)).
Proof.
  intros D W R F J.
  destruct (analyze_demo (top args) (error_threshold args)) as (report & A & P).
  unfold main. rewrite D, A. cbv zeta. rewrite <- W, <- R, <- F, <- J.
  split; [reflexivity|].
  assert (In "Parsed requests:       7" (print_console_report (repr_float sys) report)) as I.
  { unfold print_console_report, summary_lines. rewrite P.
    cbn [List.app In]. right. right. right. left. reflexivity. }
  destruct (write_text sys (out args) (json_dumps sys report)) as [u|e] eqn:Wr.
  - split; [discriminate|]. exists report. split; [reflexivity|].
    split; [eexists; reflexivity|]. split.
    + cbn [run_stdout]. apply in_or_app. now left.
    + intros u' _. split; reflexivity.
  - split; [destruct e; cbn; discriminate|]. exists report. split; [reflexivity|].
    split; [exists []; rewrite app_nil_r; destruct e; reflexivity|]. split.
    + destruct e; exact I.
    + intros u' H. rewrite Wr in H. discriminate H.
Qed.

Lemma main_demo_needs_no_input_witness :
  main (clock := ExampleClock.clock) (example_system (Failed FileNotFoundError)) demo_args
  = main (clock := ExampleClock.clock) (example_system (Done [])) demo_args
  /\ run_ending (main (clock := ExampleClock.clock)
                      (example_system (Failed FileNotFoundError)) demo_args) = Exit 0.
Proof.
  destruct (@main_demo_needs_no_input ExampleClock.clock
              (example_system (Failed FileNotFoundError)) (example_system (Done []))
              demo_args eq_refl eq_refl eq_refl eq_refl eq_refl)
    as (E & _ & report & A & _ & _ & X).
  split; [exact E|]. exact (proj1 (X tt eq_refl)).
Defined.

Lemma main_exit_codes_witness :
  run_ending (main (clock := ExampleClock.clock)
                   (example_system (Failed FileNotFoundError))
                   {| logfile := "access.log"; out := "report.json"; top := 10;
                      error_threshold := threshold_0_1; demo := false |}) = Exit 2.
Proof.
  apply (proj1 (proj2 (proj2 (proj2 (@main_exit_codes ExampleClock.clock
           (example_system (Failed FileNotFoundError))
           {| logfile := "access.log"; out := "report.json"; top := 10;
              error_threshold := threshold_0_1; demo := false |}))))).
  exists FileNotFoundError. split; [now left|]. left. reflexivity.
Defined.

(** ** The options of [analyze] *)

(** The option [top_n] bears on [top_endpoints] only and the threshold
    of the error rate on the issues only: two reports on the same lines
    have the same summary, status codes, top IPs and issue of the
    detection; with the same [top_n] they have the same top endpoints, and
    with the same threshold they have the same issues.  The list of the
    top IPs has at most 10 items whatever [top_n]. *)
Theorem options_frame
        (clock : Clock) (lines : list string) (top_n top_n' : Z) (thr thr' : float)
        (r r' : Report.t) :
  analyze lines top_n thr = Ret r ->
  analyze lines top_n' thr' = Ret r' ->
  Report.summary r = Report.summary r'
  /\ Report.status_code_breakdown r = Report.status_code_breakdown r'
  /\ Report.top_ips r = Report.top_ips r'
  /\ (List.length (Report.top_ips r) <= 10)%nat
  /\ filter is_activity (Report.issues r) = filter is_activity (Report.issues r')
  /\ (top_n = top_n' -> Report.top_endpoints r = Report.top_endpoints r')
  /\ (thr = thr' -> Report.issues r = Report.issues r').
Proof.
  intros H H'.
  assert (exists t, r = report_with (aggregate lines) top_n thr t
                    /\ r' = report_with (aggregate lines) top_n' thr' t) as (t & -> & ->).
  { destruct (analyze_inv _ _ _ H) as [[Z ->]|(P & t & T & ->)];
      destruct (analyze_inv _ _ _ H') as [[Z' ->]|(P' & t' & T' & ->)]; try lia.
    - exists 0. auto.
    - rewrite T in T'. inversion T'; subst t'. exists t. auto. }
  cbn [report_with Report.summary Report.status_code_breakdown Report.top_ips
       Report.top_endpoints Report.issues].
  split; [reflexivity|]. split; [reflexivity|]. split; [reflexivity|].
  split; [unfold Counter.most_common; cbn [Z.leb Z.compare]; apply firstn_le_length|].
  split.
  { destruct (issues_report_with (aggregate lines) top_n thr t) as [E _].
    destruct (issues_report_with (aggregate lines) top_n' thr' t) as [E' _].
    cbn [report_with Report.issues] in E, E'. now rewrite E, E'. }
  split; [now intros -> | now intros ->].
Qed.

Lemma options_frame_witness :
  exists r r',
    analyze (clock := ExampleClock.clock) DEMO_LINES 10 threshold_0_1 = Ret r
    /\ analyze (clock := ExampleClock.clock) DEMO_LINES 2 PyFloat.one = Ret r'
    /\ Report.summary r = Report.summary r'
    /\ Report.top_ips r = Report.top_ips r'.
Proof.
  assert (exists r, analyze (clock := ExampleClock.clock) DEMO_LINES 10 threshold_0_1 = Ret r)
    as [r E] by (eexists; vm_compute; reflexivity).
  assert (exists r, analyze (clock := ExampleClock.clock) DEMO_LINES 2 PyFloat.one = Ret r)
    as [r' E'] by (eexists; vm_compute; reflexivity).
  destruct (@options_frame ExampleClock.clock _ _ _ _ _ _ _ E E') as (S & _ & T & _).
  exists r, r'. auto.
Defined.

(** ** Sensitive paths *)

Lemma startswith_spec (p s : string) :
  Str.startswith p s = true <-> exists b, s = (p ++ b)%string.
Proof.
  revert s. induction p as [|c p IH]; intros s; cbn [Str.startswith].
  - split; [intros _; now exists s | reflexivity].
  - destruct s as [|d s].
    + split; [discriminate | intros [b E]; discriminate E].
    + rewrite andb_true_iff, IH. split.
      * intros [E [b ->]]. apply Ascii.eqb_eq in E. subst d. now exists b.
      * intros [b E]. cbn in E. inversion E; subst. split; [apply Ascii.eqb_refl | now exists b].
Qed.

(** [needle in hay]: [needle] occurs somewhere in [hay]. *)
Lemma contains_spec (needle hay : string) :
  Str.contains needle hay = true <-> exists a b, hay = (a ++ needle ++ b)%string.
Proof.
  induction hay as [|c hay IH].
  - cbn [Str.contains]. rewrite orb_false_r, startswith_spec. split.
    + intros [b E]. exists EmptyString, b. exact E.
    + intros (a & b & E). destruct a; [now exists b | discriminate E].
  - cbn [Str.contains]. rewrite orb_true_iff, startswith_spec, IH. split.
    + intros [[b E] | (a & b & E)].
      * exists EmptyString, b. exact E.
      * exists (String c a), b. cbn. now rewrite E.
    + intros (a & b & E). destruct a as [|d a].
      * left. now exists b.
      * right. cbn in E. inversion E; subst. now exists a, b.
Qed.

(** An endpoint is a suspicious hit exactly when one of the six
    snippets occurs somewhere in it, at the start or not; so an endpoint
    that contains a suspicious endpoint is one as well, and the test is
    sensitive to case. *)
Theorem suspicious_path_is_substring_match :
  (forall endpoint,
     hits_suspicious_path endpoint = true
     <-> exists snippet a b,
           In snippet SUSPICIOUS_PATH_SNIPPETS /\ endpoint = (a ++ snippet ++ b)%string)
  /\ (forall endpoint a b,
        hits_suspicious_path endpoint = true ->
        hits_suspicious_path (a ++ endpoint ++ b) = true)
  /\ hits_suspicious_path "/Admin" = false.
Proof.
  assert (forall endpoint,
            hits_suspicious_path endpoint = true
            <-> exists snippet a b,
                  In snippet SUSPICIOUS_PATH_SNIPPETS
                  /\ endpoint = (a ++ snippet ++ b)%string) as S.
  { intros endpoint. unfold hits_suspicious_path. rewrite existsb_exists. split.
    - intros (snippet & I & C). apply contains_spec in C as (a & b & E). eauto.
    - intros (snippet & a & b & I & E). exists snippet. split; [assumption|].
      apply contains_spec. eauto. }
  split; [exact S|]. split; [|reflexivity].
  intros endpoint a b H. apply S in H as (snippet & a' & b' & I & ->). apply S.
  exists snippet, (a ++ a')%string, (b' ++ b)%string. split; [assumption|].
  now rewrite !append_assoc.
Qed.

(** ** The fields of a parsed entry *)

Lemma derives_plus_class (p : ascii -> bool) (w : string) (g g' : groups) :
  derives (Plus p) w g g' -> nonempty w = true /\ Str.all p w = true /\ g' = g.
Proof.
  intros D. inversion D as [| |p' c w' g0 Hc Hw| | | |]; subst.
  split; [reflexivity|]. split; [|reflexivity].
  cbn. now rewrite Hc, Hw.
Qed.

(** The classes of the groups of a match of [LOG_PATTERN]. *)
Lemma log_pattern_group_classes (w : string) (g : groups) :
  derives LOG_PATTERN w [] g ->
  exists ip time method path,
    group "ip" g = Some ip /\ group "time" g = Some time
    /\ group "method" g = Some method /\ group "path" g = Some path
    /\ token ip = true /\ nonempty time = true /\ Str.all Str.not_rbracket time = true
    /\ token method = true /\ token path = true.
Proof.
  intros D. cbv [LOG_PATTERN cat] in D.
  repeat match goal with
         | H : derives (Cat _ _) _ _ _ |- _ => inversion H; subst; clear H
         | H : derives (Group _ _) _ _ _ |- _ => inversion H; subst; clear H
         | H : derives (Lit _) _ _ _ |- _ => inversion H; subst; clear H
         | H : derives (Class _) _ _ _ |- _ => inversion H; subst; clear H
         | H : derives (Opt _) _ _ _ |- _ => inversion H; subst; clear H
         | H : derives (Plus _) _ _ _ |- _ =>
             apply derives_plus_class in H; destruct H as (? & ? & ?); subst
         end;
    do 4 eexists; cbn [group String.eqb Ascii.eqb Bool.eqb]; unfold token;
    repeat split; try reflexivity;
    repeat match goal with
           | H : _ = true |- _ => rewrite H
           end; reflexivity.
Qed.

Lemma all_before_first (p : ascii -> bool) (sep : ascii) (s : string) :
  Str.all p s = true -> Str.all p (Str.before_first sep s) = true.
Proof.
  induction s as [|c s IH]; cbn; [reflexivity|].
  intros H. apply andb_prop in H as [Hc Hs].
  destruct (Ascii.eqb c sep); cbn; [reflexivity|]. now rewrite Hc, IH.
Qed.

Lemma parse_log_line_fields (line : string) (e : LogEntry.t) :
  parse_log_line line = Ret (Some e) ->
  token (LogEntry.ip e) = true
  /\ token (LogEntry.method e) = true
  /\ token (LogEntry.path e) = true
  /\ nonempty (LogEntry.timestamp_raw e) = true
  /\ Str.all Str.not_rbracket (LogEntry.timestamp_raw e) = true
  /\ 0 <= LogEntry.status e <= 999.
Proof.
  intros H. unfold parse_log_line in H.
  destruct (match_ LOG_PATTERN (Str.strip line)) as [g|] eqn:M; [|discriminate].
  destruct (match_sound _ _ M) as (w & rest & _ & D).
  destruct (log_pattern_groups D)
    as (ip & time & method & path & d1 & d2 & d3 & size
        & Hip & Htime & Hmethod & Hpath & Hstatus & H1 & H2 & H3 & Hsize).
  destruct (log_pattern_group_classes D)
    as (ip' & time' & method' & path' & Hip' & Htime' & Hmethod' & Hpath'
        & Tip & Ntime & Atime & Tmethod & Tpath).
  rewrite Hip in Hip'. rewrite Htime in Htime'. rewrite Hmethod in Hmethod'.
  rewrite Hpath in Hpath'. inversion Hip'; inversion Htime'; inversion Hmethod';
    inversion Hpath'; subst ip' time' method' path'.
  unfold group_text in H. rewrite Hpath, Hstatus in H. cbn [bind] in H.
  rewrite (py_int_status _ _ _ H1 H2 H3) in H. cbn [bind] in H.
  rewrite Hsize, Hip, Htime, Hmethod in H. cbn [bind] in H.
  assert (e = LogEntry.mk ip time method path
                          (100 * Str.digit_val d1 + 10 * Str.digit_val d2 + Str.digit_val d3)
                          (_parse_size size)) as -> by congruence.
  apply digit_val_range in H1, H2, H3.
  repeat split; try assumption; unfold LogEntry.status; lia.
Qed.

Section KeyFacts.

Context {clock : Clock}.

Lemma in_entries (lines : list string) (e : LogEntry.t) :
  In e (entries lines) -> exists line, In line lines /\ parse_log_line line = Ret (Some e).
Proof.
  unfold entries. intros H. apply in_flat_map in H as (line & I & H).
  exists line. split; [assumption|].
  rewrite parse_log_line_parsed_entry. destruct (parsed_entry line); [|contradiction].
  destruct H as [->|[]]. reflexivity.
Qed.

Lemma counter_keys_in (lines : list string) :
  (forall k, In k (Counter.keys (ips (aggregate lines)))
             <-> exists e, In e (entries lines) /\ LogEntry.ip e = k)
  /\ (forall k, In k (Counter.keys (endpoints (aggregate lines)))
                <-> exists e, In e (entries lines) /\ _strip_query (LogEntry.path e) = k)
  /\ (forall k, In k (Counter.keys (status_codes (aggregate lines)))
                <-> exists e, In e (entries lines)
                              /\ PyInt.to_string (LogEntry.status e) = k).
Proof.
  destruct (aggregate_counters lines) as (Ki & Gi & Ke & Ge & _).
  destruct (fold_absorb_counts lines initial) as (_ & _ & S). fold (aggregate lines) in S.
  change (status_codes initial) with (@nil (string * Z)) in S.
  pose proof (consistent_aggregate lines) as C.
  assert (Counter.keys (status_codes (aggregate lines))
          = RankSpec.first_seen (status_sequence lines)
          /\ forall k, Counter.get k (status_codes (aggregate lines))
                       = RankSpec.occurrences k (status_sequence lines)) as [Ks Gs].
  { rewrite S. split.
    - apply (RankFacts.keys_count_all (status_sequence lines) []).
    - intros k. apply (RankFacts.get_count_all k (status_sequence lines) []). }
  destruct (@counter_keys_seen _ _ (c_wf_ips C) Ki Gi) as [_ Ii].
  destruct (@counter_keys_seen _ _ (c_wf_endpoints C) Ke Ge) as [_ Ie].
  destruct (@counter_keys_seen _ _ (c_wf_status C) Ks Gs) as [_ Is].
  split; [|split]; intros k.
  - rewrite Ki, Ii. unfold ip_sequence. rewrite in_map_iff.
    split; intros (e & A & B); exists e; auto.
  - rewrite Ke, Ie. unfold endpoint_sequence. rewrite in_map_iff.
    split; intros (e & A & B); exists e; auto.
  - rewrite Ks, Is. unfold status_sequence. rewrite in_map_iff.
    split; intros (e & A & B); exists e; auto.
Qed.

End KeyFacts.

(** What a parsed entry always has: an IP, a method and a path that are
    not empty and have no white space, a time stamp that is not empty and
    has no closing bracket, and a status between 0 and 999; its endpoint
    has no white space and no question mark, and is empty exactly when
    the path starts with a question mark.  So have the keys of the
    counters after the loop: the IPs, the endpoints, and the status codes,
    which are the texts of integers between 0 and 999. *)
Theorem parsed_fields_are_well_formed (clock : Clock) (lines : list string) :
  (forall line e,
     parse_log_line line = Ret (Some e) ->
     token (LogEntry.ip e) = true
     /\ token (LogEntry.method e) = true
     /\ token (LogEntry.path e) = true
     /\ nonempty (LogEntry.timestamp_raw e) = true
     /\ Str.all Str.not_rbracket (LogEntry.timestamp_raw e) = true
     /\ 0 <= LogEntry.status e <= 999
     /\ Str.all Str.non_space (_strip_query (LogEntry.path e)) = true
     /\ Str.all no_question (_strip_query (LogEntry.path e)) = true
     /\ (_strip_query (LogEntry.path e) = EmptyString
         <-> exists q, LogEntry.path e = String "?" q))
  /\ (forall ip, In ip (Counter.keys (ips (aggregate lines))) -> token ip = true)
  /\ (forall k, In k (Counter.keys (endpoints (aggregate lines))) ->
        Str.all Str.non_space k = true /\ Str.all no_question k = true)
  /\ (forall k, In k (Counter.keys (status_codes (aggregate lines))) ->
        exists s, 0 <= s <= 999 /\ k = PyInt.to_string s).
Proof.
  assert (forall line e,
            parse_log_line line = Ret (Some e) ->
            Str.all Str.non_space (_strip_query (LogEntry.path e)) = true
            /\ Str.all no_question (_strip_query (LogEntry.path e)) = true) as E.
  { intros line e H. destruct (parse_log_line_fields _ H) as (_ & _ & Tp & _).
    apply token_parts in Tp as [_ Ap]. split.
    - now apply all_before_first.
    - apply (before_first_spec "?"). }
  destruct (counter_keys_in lines) as (Ki & Ke & Ks).
  split; [|split; [|split]].
  - intros line e H. destruct (parse_log_line_fields _ H) as (Ti & Tm & Tp & Nt & At & R).
    destruct (E _ _ H) as [E1 E2]. repeat split; try assumption; try lia.
    + intros Q. apply token_parts in Tp as [Np _].
      unfold _strip_query in Q. destruct (LogEntry.path e) as [|c p]; [discriminate|].
      cbn in Q. destruct (Ascii.eqb_spec c "?") as [->|]; [eauto | discriminate].
    + intros [q ->]. reflexivity.
  - intros ip H. apply Ki in H as (e & I & <-).
    destruct (in_entries _ _ I) as (line & _ & P).
    now destruct (parse_log_line_fields _ P).
  - intros k H. apply Ke in H as (e & I & <-).
    destruct (in_entries _ _ I) as (line & _ & P). exact (E _ _ P).
  - intros k H. apply Ks in H as (e & I & <-).
    destruct (in_entries _ _ I) as (line & _ & P).
    exists (LogEntry.status e). split; [|reflexivity].
    now destruct (parse_log_line_fields _ P) as (_ & _ & _ & _ & _ & R).
Qed.

(** ** Counting composes *)

Lemma occurrences_app (k : string) (l1 l2 : list string) :
  RankSpec.occurrences k (l1 ++ l2) = RankSpec.occurrences k l1 + RankSpec.occurrences k l2.
Proof. induction l1 as [|x l1 IH]; simpl; [reflexivity | rewrite IH; lia]. Qed.

Lemma occurrences_perm (k : string) (l1 l2 : list string) :
  Permutation l1 l2 -> RankSpec.occurrences k l1 = RankSpec.occurrences k l2.
Proof. induction 1; simpl; lia. Qed.

Lemma entries_app (l1 l2 : list string) : entries (l1 ++ l2) = (entries l1 ++ entries l2)%list.
Proof. unfold entries. apply flat_map_app. Qed.

Lemma flat_map_perm (A B : Type) (f : A -> list B) (l1 l2 : list A) :
  Permutation l1 l2 -> Permutation (flat_map f l1) (flat_map f l2).
Proof.
  induction 1 as [|x l1 l2 P IH|x y l|l1 l2 l3 P1 IH1 P2 IH2]; cbn [flat_map].
  - constructor.
  - now apply Permutation_app_head.
  - rewrite !app_assoc. apply Permutation_app_tail, Permutation_app_comm.
  - now transitivity (flat_map f l2).
Qed.

Section ComposeFacts.

Context {clock : Clock}.

Lemma fold_absorb_error_hits (lines : list string) :
  forall st,
    ip_errors (fold_left absorb lines st)
    = RankSpec.count_all (error_ip_sequence lines) (ip_errors st)
    /\ ip_suspicious_hits (fold_left absorb lines st)
       = RankSpec.count_all (hit_ip_sequence lines) (ip_suspicious_hits st).
Proof.
  unfold error_ip_sequence, hit_ip_sequence.
  induction lines as [|line rest IH]; intros st; cbn [fold_left].
  - split; reflexivity.
  - destruct (IH (absorb st line)) as [E H]. rewrite E, H.
    unfold entries. cbn [flat_map]. fold (entries rest). rewrite !flat_map_app.
    unfold RankSpec.count_all. rewrite !fold_left_app.
    unfold absorb. destruct (parsed_entry line) as [e|]; cbn [flat_map List.app].
    + unfold count_entry. cbn [ip_errors ip_suspicious_hits]. rewrite !app_nil_r.
      fold (is_error_status (LogEntry.status e)).
      destruct (is_error_status (LogEntry.status e));
        destruct (hits_suspicious_path (_strip_query (LogEntry.path e)));
        split; reflexivity.
    + unfold count_failure. cbn [ip_errors ip_suspicious_hits]. split; reflexivity.
Qed.

(** Every count of the state after the loop, as a count over the input. *)
Lemma aggregate_tallies (lines : list string) :
  let st := aggregate lines in
  total_lines st = Z.of_nat (List.length lines)
  /\ parsed st = Z.of_nat (List.length (filter parses lines))
  /\ parse_failures st = Z.of_nat (List.length (filter (fun l => negb (parses l)) lines))
  /\ (forall k, Counter.get k (ips st) = RankSpec.occurrences k (ip_sequence lines))
  /\ (forall k, Counter.get k (endpoints st) = RankSpec.occurrences k (endpoint_sequence lines))
  /\ (forall k, Counter.get k (status_codes st)
                = RankSpec.occurrences k (status_sequence lines))
  /\ (forall k, Counter.get k (ip_errors st)
                = RankSpec.occurrences k (error_ip_sequence lines))
  /\ (forall k, Counter.get k (ip_suspicious_hits st)
                = RankSpec.occurrences k (hit_ip_sequence lines)).
Proof.
  intros st. subst st.
  destruct (aggregate_counters lines) as (_ & Gi & _ & Ge & T).
  destruct (fold_absorb_counts lines initial) as (P & F & S).
  destruct (fold_absorb_error_hits lines initial) as (E & H).
  fold (aggregate lines) in P, F, S, E, H.
  split; [exact T|]. split; [exact P|]. split; [exact F|].
  split; [exact Gi|]. split; [exact Ge|].
  split; [|split]; intros k.
  - rewrite S. apply (RankFacts.get_count_all k (status_sequence lines) []).
  - rewrite E. apply (RankFacts.get_count_all k (error_ip_sequence lines) []).
  - rewrite H. apply (RankFacts.get_count_all k (hit_ip_sequence lines) []).
Qed.

End ComposeFacts.

Section OrderFacts.

Context {clock : Clock}.

Lemma filter_perm_length (A : Type) (f : A -> bool) (l1 l2 : list A) :
  Permutation l1 l2 -> List.length (filter f l1) = List.length (filter f l2).
Proof.
  induction 1 as [|x l1 l2 P IH|x y l|l1 l2 l3 P1 IH1 P2 IH2]; cbn [filter].
  - reflexivity.
  - destruct (f x); cbn [List.length]; lia.
  - destruct (f x), (f y); reflexivity.
  - lia.
Qed.

Lemma counter_len_same (a b : Counter.t) :
  CounterSpec.wf a -> CounterSpec.wf b ->
  (forall k, Counter.get k a = Counter.get k b) -> Counter.len a = Counter.len b.
Proof.
  intros Wa Wb G. unfold Counter.len. f_equal.
  assert (forall x y, CounterSpec.wf x -> CounterSpec.wf y ->
            (forall k, Counter.get k x = Counter.get k y) ->
            forall k, In k (Counter.keys x) -> In k (Counter.keys y)) as I.
  { intros x y Wx Wy Gxy k H. pose proof (@CounterFacts.get_pos _ _ Wx H) as P.
    rewrite Gxy in P.
    destruct (in_dec string_dec k (Counter.keys y)) as [K|N]; [assumption|].
    rewrite (@CounterFacts.get_not_in _ _ N) in P. lia. }
  rewrite <- (length_map fst a), <- (length_map fst b).
  apply Permutation_length. apply NoDup_Permutation; [apply Wa | apply Wb|].
  intros k. split; [apply (I a b) | apply (I b a)]; auto.
Qed.

End OrderFacts.

(** The counts of the loop compose: on two inputs one after the other,
    the counts of lines, of parsed lines and of failures, every count of
    every counter and the count of errors of the overall rate are the
    sums of the counts on each.  And they do not depend on the order of
    the lines: on a permutation of the input they are the same, with the
    same number of IPs and the same overall error rate. *)
Theorem counts_compose (clock : Clock) (l1 l2 : list string) :
  let a := aggregate l1 in
  let b := aggregate l2 in
  let c := aggregate (l1 ++ l2) in
  total_lines c = total_lines a + total_lines b
  /\ parsed c = parsed a + parsed b
  /\ parse_failures c = parse_failures a + parse_failures b
  /\ (forall k, Counter.get k (ips c) = Counter.get k (ips a) + Counter.get k (ips b))
  /\ (forall k, Counter.get k (endpoints c)
                = Counter.get k (endpoints a) + Counter.get k (endpoints b))
  /\ (forall k, Counter.get k (status_codes c)
                = Counter.get k (status_codes a) + Counter.get k (status_codes b))
  /\ (forall k, Counter.get k (ip_errors c)
                = Counter.get k (ip_errors a) + Counter.get k (ip_errors b))
  /\ (forall k, Counter.get k (ip_suspicious_hits c)
                = Counter.get k (ip_suspicious_hits a) + Counter.get k (ip_suspicious_hits b))
  /\ error_requests (status_codes c)
     = error_requests (status_codes a) + error_requests (status_codes b)
  /\ (forall l1', Permutation l1 l1' ->
        same_counts a (aggregate l1')
        /\ Counter.len (ips a) = Counter.len (ips (aggregate l1'))
        /\ error_requests (status_codes a) = error_requests (status_codes (aggregate l1'))
        /\ overall_error_rate a = overall_error_rate (aggregate l1')).
Proof.
  intros a b c. subst a b c.
  destruct (aggregate_tallies l1) as (T1 & P1 & F1 & I1 & E1 & S1 & R1 & H1).
  destruct (aggregate_tallies l2) as (T2 & P2 & F2 & I2 & E2 & S2 & R2 & H2).
  destruct (aggregate_tallies (l1 ++ l2)) as (T & P & F & I & E & S & R & H).
  pose proof (error_requests_fold l1 initial) as X1.
  pose proof (error_requests_fold l2 initial) as X2.
  pose proof (error_requests_fold (l1 ++ l2) initial) as X.
  fold (aggregate l1) in X1. fold (aggregate l2) in X2. fold (aggregate (l1 ++ l2)) in X.
  change (error_requests (status_codes initial)) with 0 in X1, X2, X.
  split; [rewrite T, T1, T2, length_app; lia|].
  split; [rewrite P, P1, P2, filter_app, length_app; lia|].
  split; [rewrite F, F1, F2, filter_app, length_app; lia|].
  split; [intros k; rewrite I, I1, I2; unfold ip_sequence;
          rewrite entries_app, map_app; apply occurrences_app|].
  split; [intros k; rewrite E, E1, E2; unfold endpoint_sequence;
          rewrite entries_app, map_app; apply occurrences_app|].
  split; [intros k; rewrite S, S1, S2; unfold status_sequence;
          rewrite entries_app, map_app; apply occurrences_app|].
  split; [intros k; rewrite R, R1, R2; unfold error_ip_sequence;
          rewrite entries_app, flat_map_app; apply occurrences_app|].
  split; [intros k; rewrite H, H1, H2; unfold hit_ip_sequence;
          rewrite entries_app, flat_map_app; apply occurrences_app|].
  split; [rewrite X, X1, X2, entries_app, filter_app, length_app; lia|].
  intros l1' Pm.
  destruct (aggregate_tallies l1') as (T' & P' & F' & I' & E' & S' & R' & H').
  pose proof (error_requests_fold l1' initial) as X'. fold (aggregate l1') in X'.
  change (error_requests (status_codes initial)) with 0 in X'.
  assert (Permutation (entries l1) (entries l1')) as Pe by (now apply flat_map_perm).
  assert (same_counts (aggregate l1) (aggregate l1')) as SC.
  { unfold same_counts.
    split; [rewrite T1, T'; f_equal; now apply Permutation_length|].
    split; [rewrite P1, P'; f_equal; now apply filter_perm_length|].
    split; [rewrite F1, F'; f_equal; now apply filter_perm_length|].
    split; [intros k; rewrite I1, I'; apply occurrences_perm; now apply Permutation_map|].
    split; [intros k; rewrite E1, E'; apply occurrences_perm; now apply Permutation_map|].
    split; [intros k; rewrite S1, S'; apply occurrences_perm; now apply Permutation_map|].
    split; intros k; [rewrite R1, R' | rewrite H1, H'];
      apply occurrences_perm; now apply flat_map_perm. }
  assert (error_requests (status_codes (aggregate l1))
          = error_requests (status_codes (aggregate l1'))) as XE
    by (rewrite X1, X'; do 2 f_equal; now apply filter_perm_length).
  split; [exact SC|]. split; [|split; [exact XE|]].
  - apply counter_len_same; try apply consistent_aggregate. apply SC.
  - unfold overall_error_rate. destruct SC as (_ & -> & _). now rewrite XE.
Qed.

Lemma counts_compose_witness :
  same_counts (aggregate (clock := ExampleClock.clock) DEMO_LINES)
              (aggregate (clock := ExampleClock.clock) (List.rev DEMO_LINES)).
Proof.
  apply (proj1 (proj2 (proj2 (proj2 (proj2 (proj2 (proj2 (proj2 (proj2 (proj2
           (@counts_compose ExampleClock.clock DEMO_LINES [])))))))))
           (List.rev DEMO_LINES) (Permutation_rev DEMO_LINES))).
Defined.

(** ** Thresholds at the edges *)

Lemma ge_nonpositive (x thr : float) :
  FloatSpec.unit_range x -> nonpositive thr = true -> PyFloat.ge x thr = true.
Proof.
  intros [->|(m & e & -> & _)] N; destruct thr as [[]|[]| |[] ? ?]; try discriminate N;
    reflexivity.
Qed.

Lemma ge_unreachable (x thr : float) :
  FloatSpec.unit_range x -> unreachable thr = true -> PyFloat.ge x thr = false.
Proof.
  intros [->|(m & e & -> & _)] N; destruct thr as [[]|[]| |[] ? ?]; try discriminate N;
    reflexivity.
Qed.

(** With a parsed line, a threshold of the error rate that is zero or
    negative gives the issue [high_error_rate] in every report, whatever
    the errors, even none; a threshold that is not a number or is plus
    infinity never gives it. *)
Theorem error_threshold_edges
        (clock : Clock) (lines : list string) (top_n : Z) (thr : float) (r : Report.t) :
  analyze lines top_n thr = Ret r ->
  0 < parsed (aggregate lines) ->
  (nonpositive thr = true ->
   exists rate, filter is_high_error_rate (Report.issues r) = [high_error_rate rate thr])
  /\ (unreachable thr = true -> filter is_high_error_rate (Report.issues r) = []).
Proof.
  intros H P.
  destruct (analyze_inv _ _ _ H) as [[Z _]|(_ & t & _ & ->)]; [lia|].
  pose proof (rate_of_unit (consistent_aggregate lines)) as U.
  cbn [report_with Report.issues]. rewrite filter_app.
  assert (filter is_high_error_rate (suspicious_part (aggregate lines) t) = []) as S.
  { unfold suspicious_part. destruct (parsed (aggregate lines) =? 0); [reflexivity|].
    destruct (suspects (aggregate lines) t); reflexivity. }
  rewrite S, app_nil_r. unfold overall_part.
  replace (parsed (aggregate lines) =? 0) with false by (symmetry; apply Z.eqb_neq; lia).
  split; intros N.
  - rewrite (@ge_nonpositive _ _ U N). eexists. reflexivity.
  - rewrite (@ge_unreachable _ _ U N). reflexivity.
Qed.

Lemma error_threshold_edges_witness :
  exists r rate,
    analyze (clock := ExampleClock.clock)
            [ nth 0 DEMO_LINES EmptyString ] 10 PyFloat.zero = Ret r
    /\ filter is_high_error_rate (Report.issues r) = [high_error_rate rate PyFloat.zero].
Proof.
  assert (exists r, analyze (clock := ExampleClock.clock)
                            [ nth 0 DEMO_LINES EmptyString ] 10 PyFloat.zero = Ret r)
    as [r E] by (eexists; vm_compute; reflexivity).
  destruct (@error_threshold_edges ExampleClock.clock _ _ _ _ E) as [N _];
    [vm_compute; reflexivity|].
  destruct (N eq_refl) as [rate I]. exists r, rate. auto.
Defined.
